(** * find_versions.py: shot-name parsing and version resolution

    A shallow embedding of [src/find_versions.py] and the properties of its
    name parser, version resolver, resolution loop, layout and summary.

    Conventions of the embedding.
    - A Python [str] is a [string]; its characters are 8-bit ([ascii]), so
      [\d] is [0-9] and [[a-z]] is the 26 lowercase letters.
    - [None] / a value is [option]; a raised exception is [Raise] in
      [outcome].
    - The [re] module is embedded as a backtracking matcher over a pattern
      syntax tree ([regex]); the patterns written in the source appear as
      syntax trees, the configured [shot_regex] is a parameter.
    - The [pathlib] calls that touch the disk ([exists], [glob]) form the
      interface [FileSystem]; each of them returns or raises.  [DiskFS]
      implements it for directories of regular files, with [fnmatch]-style
      matching of entry names; it raises where the operating system
      refuses a name (a component of more than 255 characters, a path of
      4096 or more) and where [glob] refuses a pattern.
    - The progress display ([setMessage], [setProgress]) leaves no mark on
      the results and is left out.
    - What the script asks of the node graph (messages, the undo block,
      backdrops, Read nodes, placeholders) is the list of [command]s that
      [script] issues; the calls themselves are taken not to raise.
    - The values of the configuration are taken as read: integers for the
      layout, strings or integers for the colours. *)

From Stdlib Require Import Bool Arith NArith ZArith Lia List Ascii String.
From Stdlib Require Import Permutation DecimalString.
Import ListNotations.

Local Open Scope string_scope.
Local Open Scope list_scope.

(* ------------------------------------------------------------------ *)
(** ** Outcomes: a returned value or a raised exception *)

Inductive exn : Type :=
| IndexError            (* m.group(i) with no such group *)
| ValueError            (* Path.glob with an empty or ill-formed pattern *)
| NotImplementedError   (* Path.glob with a non-relative pattern *)
| AttributeError        (* Path.glob with a pattern of dots and slashes *)
| OSError.              (* anything the operating system refuses *)

Inductive outcome (A : Type) : Type :=
| Ok (a : A)
| Raise (e : exn).

Arguments Ok {A} a.
Arguments Raise {A} e.

Definition bind {A B : Type} (m : outcome A) (k : A -> outcome B) : outcome B :=
  match m with
  | Ok a => k a
  | Raise e => Raise e
  end.

Notation "x <- m ;; k" := (bind m (fun x => k))
  (at level 61, m at next level, right associativity).

(* ------------------------------------------------------------------ *)
(** ** Python string primitives *)

Module Str.

(** [s[:n]] *)
Fixpoint take (n : nat) (s : string) : string :=
  match n, s with
  | S n', String c s' => String c (take n' s')
  | _, _ => EmptyString
  end.

(** [s[n:]] *)
Fixpoint drop (n : nat) (s : string) : string :=
  match n, s with
  | S n', String _ s' => drop n' s'
  | _, _ => s
  end.

Fixpoint rfind_from (c : ascii) (s : string) (i : Z) (found : Z) : Z :=
  match s with
  | EmptyString => found
  | String a s' => rfind_from c s' (i + 1) (if Ascii.eqb a c then i else found)
  end.

(** [s.rfind(c)]: the highest index of [c] in [s], [-1] when there is none. *)
Definition rfind (c : ascii) (s : string) : Z := rfind_from c s 0 (-1).

(** [s.split(c)[0]] *)
Fixpoint split_head (c : ascii) (s : string) : string :=
  match s with
  | EmptyString => EmptyString
  | String a s' => if Ascii.eqb a c then EmptyString else String a (split_head c s')
  end.

(** Truthiness of a [str]. *)
Definition truthy (s : string) : bool :=
  match s with
  | EmptyString => false
  | String _ _ => true
  end.

Definition in_range (lo hi c : ascii) : bool :=
  (nat_of_ascii lo <=? nat_of_ascii c)%nat && (nat_of_ascii c <=? nat_of_ascii hi)%nat.

Definition is_lower (c : ascii) : bool := in_range "a" "z" c.
Definition is_digit (c : ascii) : bool := in_range "0" "9" c.

Definition newline : ascii := "010".

Definition digit_value (c : ascii) : N := N.of_nat (nat_of_ascii c - 48).

Fixpoint int_from (acc : N) (s : string) : N :=
  match s with
  | EmptyString => acc
  | String c s' => int_from (acc * 10 + digit_value c)%N s'
  end.

(** [int(s)] for a string of decimal digits. *)
Definition int (s : string) : N := int_from 0%N s.

End Str.

(* ------------------------------------------------------------------ *)
(** ** [os.path] (POSIX flavour) *)

Module OsPath.

(** [os.path.basename(p)]: [p[p.rfind('/') + 1:]]. *)
Definition basename (p : string) : string :=
  Str.drop (Z.to_nat (Str.rfind "/" p + 1)) p.

(** The [while] loop of [genericpath._splitext]: scan the [n] characters
    from [filenameIndex] on; the first one that is not a dot makes the
    split at [dotIndex]. *)
Fixpoint splitext_scan (p : string) (filenameIndex n dotIndex : nat)
  : option (string * string) :=
  match n with
  | O => None
  | S n' =>
      match String.get filenameIndex p with
      | Some "."%char => splitext_scan p (S filenameIndex) n' dotIndex
      | _ => Some (Str.take dotIndex p, Str.drop dotIndex p)
      end
  end.

(** [os.path.splitext(p)]. *)
Definition splitext (p : string) : string * string :=
  let sepIndex := Str.rfind "/" p in
  let dotIndex := Str.rfind "." p in
  if (sepIndex <? dotIndex)%Z then
    let filenameIndex := Z.to_nat (sepIndex + 1) in
    match splitext_scan p filenameIndex (Z.to_nat dotIndex - filenameIndex)
                        (Z.to_nat dotIndex) with
    | Some r => r
    | None => (p, EmptyString)
    end
  else (p, EmptyString).

End OsPath.

(* ------------------------------------------------------------------ *)
(** ** The [re] module: patterns and a backtracking matcher *)

Module Re.

(** Pattern syntax.  [Grp i r] is the capturing group that Python numbers
    [i] (by its opening parenthesis); [Cls neg ranges] is a character set,
    complemented when [neg]. *)
Inductive regex : Type :=
| Eps
| Chr (c : ascii)
| Cls (neg : bool) (ranges : list (ascii * ascii))
| Cat (r1 r2 : regex)
| Alt (r1 r2 : regex)
| Star (r : regex)
| Grp (i : nat) (r : regex)
| Bol
| Eol.

Definition Plus (r : regex) : regex := Cat r (Star r).
Definition Opt (r : regex) : regex := Alt r Eps.

Fixpoint Lit (s : string) : regex :=
  match s with
  | EmptyString => Eps
  | String c s' => Cat (Chr c) (Lit s')
  end.

(** [[a-z]] and [\d] *)
Definition lower : regex := Cls false [("a", "z")]%char.
Definition digit : regex := Cls false [("0", "9")]%char.

Definition in_class (neg : bool) (ranges : list (ascii * ascii)) (c : ascii) : bool :=
  xorb neg (existsb (fun lh => Str.in_range (fst lh) (snd lh) c) ranges).

(** [re.compile(p).groups] *)
Fixpoint ngroups (r : regex) : nat :=
  match r with
  | Cat r1 r2 | Alt r1 r2 => Nat.max (ngroups r1) (ngroups r2)
  | Star r1 => ngroups r1
  | Grp i r1 => Nat.max i (ngroups r1)
  | _ => 0
  end.

(** Captured text per group number; the most recent capture comes first. *)
Definition captures : Type := list (nat * string).

Fixpoint lookup (i : nat) (g : captures) : option string :=
  match g with
  | [] => None
  | (j, s) :: g' => if Nat.eqb i j then Some s else lookup i g'
  end.

(** A match object: the pattern's group count, the captures, the unread
    rest of the subject. *)
Record match_obj : Type := mkMatch {
  m_groups : nat;
  m_caps : captures;
  m_rest : string
}.

(** [m.group(i)] for [i >= 1]: [None] when the group took no part in the
    match, [IndexError] when the pattern has no group [i]. *)
Definition group (m : match_obj) (i : nat) : outcome (option string) :=
  if (i <=? m_groups m)%nat then Ok (lookup i (m_caps m)) else Raise IndexError.

(** [$] without MULTILINE: at the end, or just before a final newline. *)
Definition at_eol (s : string) : bool :=
  match s with
  | EmptyString => true
  | String c EmptyString => Ascii.eqb c Str.newline
  | _ => false
  end.

Definition cont : Type := bool -> string -> captures -> option (string * captures).

(** The repetition of [body], longest first: at most [n] more rounds, each
    of which must consume something to be followed by another; [k] takes
    over where the repetition stops.  A subject of [n] characters never
    needs more than [n + 1] rounds. *)
Fixpoint star_loop (body : bool -> string -> captures -> cont -> option (string * captures))
  (k : cont) (n : nat) (bos : bool) (s : string) (g : captures)
  {struct n} : option (string * captures) :=
  match n with
  | O => k bos s g
  | S n' =>
      match body bos s g
              (fun b' s' g' =>
                 if (String.length s' <? String.length s)%nat
                 then star_loop body k n' b' s' g'
                 else k b' s' g')
      with
      | Some x => Some x
      | None => k bos s g
      end
  end.

(** [rx r bos s g k]: match [r] at the head of [s] ([bos]: [s] is the whole
    subject), then run [k] on what is left; alternatives are tried in
    Python's order (left branch first, longest repetition first). *)
Fixpoint rx (r : regex) (bos : bool) (s : string) (g : captures) (k : cont)
  {struct r} : option (string * captures) :=
  match r with
  | Eps => k bos s g
  | Chr c =>
      match s with
      | String a s' => if Ascii.eqb a c then k false s' g else None
      | EmptyString => None
      end
  | Cls neg ranges =>
      match s with
      | String a s' => if in_class neg ranges a then k false s' g else None
      | EmptyString => None
      end
  | Cat r1 r2 => rx r1 bos s g (fun b' s' g' => rx r2 b' s' g' k)
  | Alt r1 r2 =>
      match rx r1 bos s g k with
      | Some x => Some x
      | None => rx r2 bos s g k
      end
  | Star r1 => star_loop (rx r1) k (S (String.length s)) bos s g
  | Grp i r1 =>
      rx r1 bos s g
         (fun b' s' g' =>
            k b' s' ((i, Str.take (String.length s - String.length s') s) :: g'))
  | Bol => if bos then k bos s g else None
  | Eol => if at_eol s then k bos s g else None
  end.

Definition accept : cont := fun _ s g => Some (s, g).

Definition match_at (r : regex) (bos : bool) (s : string) : option match_obj :=
  match rx r bos s [] accept with
  | Some (rest, g) => Some (mkMatch (ngroups r) g rest)
  | None => None
  end.

(** [re.match(r, s)]: anchored at the start of [s], free at its end. *)
Definition match_ (r : regex) (s : string) : option match_obj := match_at r true s.

Fixpoint search_from (r : regex) (bos : bool) (s : string) : option match_obj :=
  match match_at r bos s with
  | Some m => Some m
  | None =>
      match s with
      | EmptyString => None
      | String _ s' => search_from r false s'
      end
  end.

(** [re.search(r, s)]: the leftmost position where [r] matches. *)
Definition search (r : regex) (s : string) : option match_obj := search_from r true s.

(** A match at the head of [s] that reads at least one character. *)
Definition match_advancing (r : regex) (bos : bool) (s : string) : option match_obj :=
  match rx r bos s []
          (fun _ s' g =>
             if (String.length s' <? String.length s)%nat then Some (s', g) else None)
  with
  | Some (rest, g) => Some (mkMatch (ngroups r) g rest)
  | None => None
  end.

(** [re.sub(r, repl, s)] for a literal replacement: scan left to right;
    [skip] characters still belong to the match being replaced.  Behind an
    empty match the next match must advance. *)
Fixpoint sub_from (r : regex) (repl : string) (skip : nat) (bos : bool) (s : string)
  : string :=
  match skip with
  | S skip' =>
      match s with
      | EmptyString => EmptyString
      | String _ s' => sub_from r repl skip' false s'
      end
  | O =>
      match s with
      | EmptyString =>
          match match_at r bos s with
          | Some _ => repl
          | None => EmptyString
          end
      | String c s' =>
          match match_at r bos s with
          | None => String c (sub_from r repl 0 false s')
          | Some m =>
              repl ++
              match String.length s - String.length (m_rest m) with
              | S w => sub_from r repl w false s'
              | O =>
                  match match_advancing r bos s with
                  | Some m' =>
                      repl ++
                      sub_from r repl
                        (String.length s - String.length (m_rest m') - 1) false s'
                  | None => String c (sub_from r repl 0 false s')
                  end
              end
          end
      end
  end.

Definition sub (r : regex) (repl : string) (s : string) : string :=
  sub_from r repl 0 true s.

End Re.

(* ------------------------------------------------------------------ *)
(** ** Name parser *)

(** [_extract_shot_name(filename, shot_regex)] *)
Definition _extract_shot_name (filename : string) (shot_regex : Re.regex)
  : outcome (option string) :=
  let stem := fst (OsPath.splitext filename) in
  match Re.match_ shot_regex stem with
  | Some m => Re.group m 1
  | None => Ok None
  end.

(** [r"_([a-z]\d+)_vfx$"] *)
Definition label_re : Re.regex :=
  Re.Cat (Re.Chr "_")
    (Re.Cat (Re.Grp 1 (Re.Cat Re.lower (Re.Plus Re.digit)))
       (Re.Cat (Re.Lit "_vfx") Re.Eol)).

(** [r"_(v\d+)"] *)
Definition label_fallback_re : Re.regex :=
  Re.Cat (Re.Chr "_") (Re.Grp 1 (Re.Cat (Re.Chr "v") (Re.Plus Re.digit))).

Definition group_or_empty (m : Re.match_obj) (i : nat) : string :=
  match Re.lookup i (Re.m_caps m) with
  | Some s => s
  | None => EmptyString
  end.

(** [_extract_version_label(filename)]; both patterns have their group 1 on
    every match, so [m.group(1)] is a string. *)
Definition _extract_version_label (filename : string) : string :=
  let stem := fst (OsPath.splitext filename) in
  match Re.search label_re stem with
  | Some m => group_or_empty m 1
  | None =>
      match Re.search label_fallback_re stem with
      | Some m => group_or_empty m 1
      | None => EmptyString
      end
  end.

(** [r"[a-z]$"] *)
Definition shot_base_re : Re.regex := Re.Cat Re.lower Re.Eol.

(** [_shot_base(shot_name)]: [re.sub(r"[a-z]$", "", shot_name)] *)
Definition _shot_base (shot_name : string) : string :=
  Re.sub shot_base_re EmptyString shot_name.

(* ------------------------------------------------------------------ *)
(** ** [pathlib] (POSIX flavour) *)

Module Pathlib.

(** A path: its root ([""] for a relative path, ["/"], or ["//"] for a
    path written with exactly two leading slashes) and its components. *)
Record Path : Type := mkPath {
  p_root : string;
  p_parts : list string
}.

(** [s.split('/')] with the current component accumulated in [cur]. *)
Fixpoint split_sep (cur : string) (s : string) : list string :=
  match s with
  | EmptyString => [cur]
  | String c s' =>
      if Ascii.eqb c "/" then cur :: split_sep EmptyString s'
      else split_sep (cur ++ String c EmptyString) s'
  end.

Definition keep_part (s : string) : bool :=
  negb (String.eqb s EmptyString) && negb (String.eqb s ".").

Definition is_absolute (s : string) : bool :=
  match s with
  | String "/" _ => true
  | _ => false
  end.

(** [part.lstrip('/')] *)
Fixpoint lstrip_sep (s : string) : string :=
  match s with
  | EmptyString => EmptyString
  | String c s' => if Ascii.eqb c "/" then lstrip_sep s' else s
  end.

(** The root that [splitroot] finds: exactly two leading slashes are kept
    as they are, any other number of them is one slash. *)
Definition splitroot (part : string) : string :=
  if is_absolute part then
    if (String.length part - String.length (lstrip_sep part) =? 2)%nat then "//"
    else "/"
  else EmptyString.

(** [Path(s)]: empty and [.] components are dropped. *)
Definition of_string (s : string) : Path :=
  mkPath (splitroot s) (filter keep_part (split_sep EmptyString s)).

(** [p / s]: an absolute [s] replaces [p]. *)
Definition div (p : Path) (s : string) : Path :=
  let q := of_string s in
  if Str.truthy (p_root q) then q else mkPath (p_root p) (p_parts p ++ p_parts q).

Fixpoint join_sep (parts : list string) : string :=
  match parts with
  | [] => EmptyString
  | [x] => x
  | x :: rest => x ++ "/" ++ join_sep rest
  end.

(** [str(p)] *)
Definition str (p : Path) : string :=
  if Str.truthy (p_root p) then p_root p ++ join_sep (p_parts p)
  else
    match p_parts p with
    | [] => "."
    | parts => join_sep parts
    end.

(** [p.name] *)
Definition name (p : Path) : string := last (p_parts p) EmptyString.

(** The test [0 < i < len(name) - 1] of [suffix] and [stem]. *)
Definition dot_splits (nm : string) : option nat :=
  let i := Str.rfind "." nm in
  if ((0 <? i) && (i <? Z.of_nat (String.length nm) - 1))%Z
  then Some (Z.to_nat i) else None.

(** [p.suffix] *)
Definition suffix (p : Path) : string :=
  match dot_splits (name p) with
  | Some i => Str.drop i (name p)
  | None => EmptyString
  end.

(** [p.stem] *)
Definition stem (p : Path) : string :=
  match dot_splits (name p) with
  | Some i => Str.take i (name p)
  | None => name p
  end.

Definition parts_eqb (a b : list string) : bool :=
  (List.length a =? List.length b)%nat &&
  forallb (fun xy => String.eqb (fst xy) (snd xy)) (combine a b).

End Pathlib.

Import Pathlib.

(** What the resolver asks of the disk: [p.exists()] and [p.glob(pattern)].
    Either call can raise: [exists] passes on what the operating system
    refuses (a name that is too long, a directory that may not be searched),
    [glob] also rejects some patterns. *)
Class FileSystem : Type := {
  path_exists : Path -> outcome bool;
  path_glob : Path -> string -> outcome (list Path)
}.

(* ------------------------------------------------------------------ *)
(** ** [fnmatch]: shell-style patterns over entry names *)

Module Fnmatch.

Inductive tok : Type :=
| TStar
| TAny
| TLit (c : ascii)
| TSet (neg : bool) (ranges : list (ascii * ascii)).

(** The items of a bracket expression: [lo-hi] is a range, any other
    character stands for itself. *)
Fixpoint set_items (s : string) : list (ascii * ascii) :=
  match s with
  | String lo (String "-" (String hi s')) => (lo, hi) :: set_items s'
  | String c s' => (c, c) :: set_items s'
  | EmptyString => []
  end.

(** The text up to the closing bracket and what follows it. *)
Fixpoint until_close (acc : string) (s : string) : option (string * string) :=
  match s with
  | EmptyString => None
  | String "]" s' => Some (acc, s')
  | String c s' => until_close (acc ++ String c EmptyString) s'
  end.

(** After an opening bracket: an optional [!], then an optional literal
    closing bracket, then the scan for the closing one. *)
Definition bracket (s : string) : option (tok * string) :=
  let '(neg, s1) :=
    match s with
    | String "!" s' => (true, s')
    | _ => (false, s)
    end in
  let '(first, s2) :=
    match s1 with
    | String "]" s' => ("]", s')
    | _ => (EmptyString, s1)
    end in
  match until_close first s2 with
  | Some (stuff, rest) => Some (TSet neg (set_items stuff), rest)
  | None => None
  end.

(** The scan of [fnmatch.translate], for at most [n] tokens: runs of [*]
    collapse, an opening bracket without a closing one is a literal. *)
Fixpoint translate_fuel (n : nat) (pat : string) : list tok :=
  match n, pat with
  | S n', String "*" rest =>
      match translate_fuel n' rest with
      | TStar :: ts => TStar :: ts
      | ts => TStar :: ts
      end
  | S n', String "?" rest => TAny :: translate_fuel n' rest
  | S n', String "[" rest =>
      match bracket rest with
      | Some (t, rest') => t :: translate_fuel n' rest'
      | None => TLit "[" :: translate_fuel n' rest
      end
  | S n', String c rest => TLit c :: translate_fuel n' rest
  | _, _ => []
  end.

(** [fnmatch.translate(pat)], as tokens. *)
Definition translate (pat : string) : list tok :=
  translate_fuel (String.length pat) pat.

(** Whole-name match of a token list. *)
Fixpoint matches (ts : list tok) (s : string) {struct ts} : bool :=
  match ts with
  | [] => match s with EmptyString => true | _ => false end
  | TStar :: ts' =>
      (fix star (s : string) : bool :=
         matches ts' s ||
         match s with
         | EmptyString => false
         | String _ s' => star s'
         end) s
  | TAny :: ts' =>
      match s with
      | String _ s' => matches ts' s'
      | EmptyString => false
      end
  | TLit c :: ts' =>
      match s with
      | String a s' => Ascii.eqb a c && matches ts' s'
      | EmptyString => false
      end
  | TSet neg ranges :: ts' =>
      match s with
      | String a s' => Re.in_class neg ranges a && matches ts' s'
      | EmptyString => false
      end
  end.

(** [fnmatch.fnmatchcase(name, pat)] *)
Definition fnmatchcase (name pat : string) : bool := matches (translate pat) name.

End Fnmatch.

(* ------------------------------------------------------------------ *)
(** ** A disk of directories holding regular files *)

Module Disk.

(** Each listed directory with its entry names in enumeration order. *)
Definition disk : Type := list (Path * list string).

Fixpoint no_sep (s : string) : bool :=
  match s with
  | EmptyString => true
  | String c s' => negb (Ascii.eqb c "/") && no_sep s'
  end.

(** What a directory entry can be called: not empty, not [.] or [..],
    without a separator. *)
Definition entry_name (n : string) : bool :=
  Str.truthy n && negb (String.eqb n ".") && negb (String.eqb n "..") && no_sep n.

Definition well_formed (d : disk) : Prop :=
  Forall (fun e => Forall (fun n => entry_name n = true) (snd e)) d.

Definition name_max : nat := 255.
Definition path_max : nat := 4096.

Fixpoint has_char (c : ascii) (s : string) : bool :=
  match s with
  | EmptyString => false
  | String a s' => Ascii.eqb a c || has_char c s'
  end.

(** Two paths to the same place: the kernel reads [//] as [/]. *)
Definition same_place (p q : Path) : bool :=
  Bool.eqb (Str.truthy (p_root p)) (Str.truthy (p_root q)) &&
  parts_eqb (p_parts p) (p_parts q).

Fixpoint listdir (d : disk) (p : Path) : option (list string) :=
  match d with
  | [] => None
  | (q, names) :: d' => if same_place p q then Some names else listdir d' p
  end.

Fixpoint is_prefix (a b : list string) : bool :=
  match a, b with
  | [], _ => true
  | x :: a', y :: b' => String.eqb x y && is_prefix a' b'
  | _ :: _, [] => false
  end.

(** A listed directory or a directory above one. *)
Definition is_dir (d : disk) (p : Path) : bool :=
  existsb (fun e =>
             Bool.eqb (Str.truthy (p_root p)) (Str.truthy (p_root (fst e))) &&
             is_prefix (p_parts p) (p_parts (fst e))) d.

(** A file listed in its directory. *)
Definition is_file (d : disk) (p : Path) : bool :=
  existsb (fun e => existsb (fun n => same_place p (div (fst e) n)) (snd e)) d.

Inductive kind : Type := KDir | KFile.

(** The walk of [stat] along the components still [todo], from the
    directory [done]: [..] steps back; a component longer than [name_max]
    is refused; a component that is not there, or that follows a regular
    file, ends the walk with nothing. *)
Fixpoint walk (d : disk) (root : string) (done todo : list string)
  : outcome (option kind) :=
  match todo with
  | [] => Ok (Some KDir)
  | c :: rest =>
      if String.eqb c ".." then walk d root (removelast done) rest
      else if (name_max <? String.length c)%nat then Raise OSError
      else
        let q := mkPath root (done ++ [c]) in
        if is_dir d q then walk d root (done ++ [c]) rest
        else if is_file d q then
          match rest with
          | [] => Ok (Some KFile)
          | _ :: _ => Ok None
          end
        else Ok None
  end.

(** [os.stat(p)], as far as [exists] and [is_dir] read it: [None] where
    they answer [False] (also for a path with a null character, which never
    reaches the operating system), [OSError] where the path has
    [path_max] characters or more or a component is too long. *)
Definition stat (d : disk) (p : Path) : outcome (option kind) :=
  if has_char "000" (str p) then Ok None
  else if (path_max <=? String.length (str p))%nat then Raise OSError
  else walk d (p_root p) [] (p_parts p).

(** [p.exists()] *)
Definition exists_ (d : disk) (p : Path) : outcome bool :=
  k <- stat d p ;;
  Ok (match k with Some _ => true | None => false end).

(** The components with every [..] resolved against what precedes it. *)
Definition resolve (parts : list string) : list string :=
  fold_left (fun acc c => if String.eqb c ".." then removelast acc else acc ++ [c])
            parts [].

(** The regular files of the directory [p]. *)
Definition entries (d : disk) (p : Path) : list string :=
  match listdir d (mkPath (p_root p) (resolve (p_parts p))) with
  | Some names => names
  | None => []
  end.

Fixpoint has_double_star (s : string) : bool :=
  match s with
  | EmptyString => false
  | String c s' =>
      match s' with
      | EmptyString => false
      | String c' _ => (Ascii.eqb c "*" && Ascii.eqb c' "*") || has_double_star s'
      end
  end.

Definition is_wildcard_pattern (pat : string) : bool :=
  has_char "*" pat || has_char "?" pat || has_char "[" pat.

Fixpoint ends_with_sep (s : string) : bool :=
  match s with
  | EmptyString => false
  | String c EmptyString => Ascii.eqb c "/"
  | String _ s' => ends_with_sep s'
  end.

(** The components of a pattern: empty ones and [.] are dropped, a final
    separator leaves an empty component. *)
Definition pattern_parts (pat : string) : list string :=
  filter keep_part (split_sep EmptyString pat)
    ++ (if ends_with_sep pat then [EmptyString] else []).

(** The selectors of [glob], from the directory [p]: an empty component
    ends the selection with [p] itself; [**] stays in [p], which has no
    directory below it; a component with a wildcard selects the regular
    files whose name matches, and nothing when more components follow (they
    would need a directory); any other component is looked up by name. *)
Fixpoint select (d : disk) (p : Path) (comps : list string) : outcome (list Path) :=
  match comps with
  | [] => Ok [p]
  | c :: rest =>
      if String.eqb c EmptyString then Ok [p]
      else if String.eqb c "**" then select d p rest
      else if is_wildcard_pattern c then
        match rest with
        | [] => Ok (map (div p) (filter (fun n => Fnmatch.fnmatchcase n c) (entries d p)))
        | _ :: _ => Ok []
        end
      else
        let q := mkPath (p_root p) (p_parts p ++ [c]) in
        k <- stat d q ;;
        match k, rest with
        | Some _, [] => Ok [q]
        | Some KDir, _ :: _ => select d q rest
        | _, _ => Ok []
        end
  end.

(** [p.glob(pat)] on a disk whose listed directories hold regular files
    only, in enumeration order.  An empty pattern, a pattern that starts at
    the root, a pattern without component and a component that has [**]
    inside it are rejected before the disk is read; nothing is found when
    [p] is not a directory. *)
Definition glob (d : disk) (p : Path) (pat : string) : outcome (list Path) :=
  match pat with
  | EmptyString => Raise ValueError
  | String "/" _ => Raise NotImplementedError
  | _ =>
      match pattern_parts pat with
      | [] => Raise IndexError
      | first :: _ =>
          if String.eqb first EmptyString then Raise AttributeError
          else if existsb (fun c => has_double_star c && negb (String.eqb c "**"))
                          (pattern_parts pat)
          then Raise ValueError
          else
            k <- stat d p ;;
            match k with
            | Some KDir => select d p (pattern_parts pat)
            | _ => Ok []
            end
      end
  end.

End Disk.

Definition DiskFS (d : Disk.disk) : FileSystem :=
  {| path_exists := Disk.exists_ d; path_glob := Disk.glob d |}.

(* ------------------------------------------------------------------ *)
(** ** Path deriver *)

(** [_build_vfx_path(shot_name, shot_tree_root, version_subfolder)] *)
Definition _build_vfx_path (shot_name shot_tree_root version_subfolder : string) : Path :=
  let base := _shot_base shot_name in
  let seq := Str.split_head "_" base in
  let shot_dir := base in
  div (div (div (of_string shot_tree_root) seq) shot_dir) version_subfolder.

(* ------------------------------------------------------------------ *)
(** ** [list.sort(key=..., reverse=True)]: stable, descending *)

Section Sorting.

Context {A : Type} (key : A -> N).

(** [x] stood before every element of [l]: it goes in front of the first
    element whose key does not exceed its own. *)
Fixpoint insert_desc (x : A) (l : list A) : list A :=
  match l with
  | [] => [x]
  | y :: l' => if (key x <? key y)%N then y :: insert_desc x l' else x :: y :: l'
  end.

Fixpoint sort_desc (l : list A) : list A :=
  match l with
  | [] => []
  | x :: l' => insert_desc x (sort_desc l')
  end.

End Sorting.

(* ------------------------------------------------------------------ *)
(** ** Version resolver *)

Section Resolver.

Context {FS : FileSystem}.

(** [[f for f in vfx_dir.glob(pat) if f.suffix == file_ext]] *)
Definition glob_ext (vfx_dir : Path) (file_ext pat : string) : outcome (list Path) :=
  fs <- path_glob vfx_dir pat ;;
  Ok (filter (fun f => String.eqb (suffix f) file_ext) fs).

(** The loop [for pat in patterns] of [_find_version_zero]. *)
Fixpoint first_match (vfx_dir : Path) (file_ext : string) (patterns : list string)
  : outcome (option string) :=
  match patterns with
  | [] => Ok None
  | pat :: rest =>
      matches <- glob_ext vfx_dir file_ext pat ;;
      match matches with
      | f :: _ => Ok (Some (str f))
      | [] => first_match vfx_dir file_ext rest
      end
  end.

Definition version_zero_patterns (base file_ext : string) : list string :=
  [ (base ++ "_*_?0000_vfx" ++ file_ext)%string;
    (base ++ "_?0000_vfx" ++ file_ext)%string ].

(** [_find_version_zero(shot_name, vfx_dir, file_ext)] *)
Definition _find_version_zero (shot_name : string) (vfx_dir : Path) (file_ext : string)
  : outcome (option string) :=
  there <- path_exists vfx_dir ;;
  if negb there then Ok None
  else
    let base := _shot_base shot_name in
    first_match vfx_dir file_ext (version_zero_patterns base file_ext).

(** The loop [for pat in patterns: matching_files.extend(...)]. *)
Fixpoint gather (vfx_dir : Path) (file_ext : string) (patterns : list string)
  : outcome (list Path) :=
  match patterns with
  | [] => Ok []
  | pat :: rest =>
      here <- glob_ext vfx_dir file_ext pat ;;
      more <- gather vfx_dir file_ext rest ;;
      Ok (here ++ more)
  end.

(** [r"_([a-z])(\d+)_vfx$"] *)
Definition version_re : Re.regex :=
  Re.Cat (Re.Chr "_")
    (Re.Cat (Re.Grp 1 Re.lower)
       (Re.Cat (Re.Grp 2 (Re.Plus Re.digit))
          (Re.Cat (Re.Lit "_vfx") Re.Eol))).

(** [exclude_filename and f.name == exclude_filename] *)
Definition excluded (exclude_filename : option string) (f : Path) : bool :=
  match exclude_filename with
  | Some e => Str.truthy e && String.eqb (name f) e
  | None => false
  end.

(** The loop [for f in matching_files] that fills [versions]; both groups
    of [version_re] take part in every match, so [m.group(2)] is a string
    of digits. *)
Fixpoint collect_versions (exclude_filename : option string) (files : list Path)
  : list (N * string) :=
  match files with
  | [] => []
  | f :: rest =>
      if excluded exclude_filename f then collect_versions exclude_filename rest
      else
        match Re.search version_re (stem f) with
        | Some m =>
            (Str.int (group_or_empty m 2), str f)
              :: collect_versions exclude_filename rest
        | None => collect_versions exclude_filename rest
        end
  end.

Definition latest_patterns (shot_name file_ext : string) : list string :=
  [ (shot_name ++ "_*_?*_vfx" ++ file_ext)%string ].

(** [_find_latest_version(shot_name, vfx_dir, file_ext, exclude_filename)] *)
Definition _find_latest_version (shot_name : string) (vfx_dir : Path)
  (file_ext : string) (exclude_filename : option string) : outcome (option string) :=
  there <- path_exists vfx_dir ;;
  if negb there then Ok None
  else
    matching_files <- gather vfx_dir file_ext (latest_patterns shot_name file_ext) ;;
    match matching_files with
    | [] => Ok None
    | _ =>
        let versions := collect_versions exclude_filename matching_files in
        match sort_desc fst versions with
        | [] => Ok None
        | (_, p) :: _ => Ok (Some p)
        end
    end.

End Resolver.

(* ------------------------------------------------------------------ *)
(** ** Resolution loop of the script *)

(** A selected Read node: [node["file"].value()], [node.xpos()], [node.ypos()]. *)
Record node : Type := mkNode {
  file_value : string;
  xpos : Z;
  ypos : Z
}.

(** The keys of the configuration that the resolution reads. *)
Record config : Type := mkConfig {
  shot_regex : Re.regex;
  shot_tree_root : string;
  version_subfolder : string;
  file_ext : string
}.

(** [(shot_name, ver_label, node)] *)
Definition entry : Type := (string * string * node)%type.

Definition entry_shot (e : entry) : string := fst (fst e).
Definition entry_label (e : entry) : string := snd (fst e).
Definition entry_node (e : entry) : node := snd e.

(** The loop [for node in selected] that fills [entries]. *)
Fixpoint parse_entries (shot_regex : Re.regex) (selected : list node)
  : outcome (list entry) :=
  match selected with
  | [] => Ok []
  | node :: rest =>
      let filepath := file_value node in
      let filename := OsPath.basename filepath in
      shot_name <- _extract_shot_name filename shot_regex ;;
      let ver_label := _extract_version_label filename in
      more <- parse_entries shot_regex rest ;;
      match shot_name with
      | Some s => if Str.truthy s then Ok ((s, ver_label, node) :: more) else Ok more
      | None => Ok more
      end
  end.

(** What the loop does, in order: a poll of [task.isCancelled()] with its
    answer, a version-zero lookup, a latest lookup. *)
Inductive event : Type :=
| EvPoll (answer : bool)
| EvVersionZero (shot_name : string)
| EvLatest (shot_name : string).

(** The variables of the loop. *)
Record loop_state : Type := mkLoop {
  v0_results : list (option string);
  latest_results : list (option string);
  cancelled : bool;
  step : nat;
  trace : list event
}.

Definition loop_init : loop_state := mkLoop [] [] false 0 [].

Section Orchestrator.

Context {FS : FileSystem}.

(** [task.isCancelled()], as a function of the number of lookups that
    have completed when it is asked. *)
Variable isCancelled : nat -> bool.

Variable cfg : config.

Definition entry_dir (e : entry) : Path :=
  _build_vfx_path (entry_shot e) (shot_tree_root cfg) (version_subfolder cfg).

Definition lookup_version_zero (e : entry) : outcome (option string) :=
  _find_version_zero (entry_shot e) (entry_dir e) (file_ext cfg).

Definition lookup_latest (e : entry) : outcome (option string) :=
  let selected_filename := OsPath.basename (file_value (entry_node e)) in
  _find_latest_version (entry_shot e) (entry_dir e) (file_ext cfg)
                       (Some selected_filename).

(** The loop [for shot_name, ver_label, node in entries]. *)
Fixpoint resolve_loop (entries : list entry) (st : loop_state) : outcome loop_state :=
  match entries with
  | [] => Ok st
  | e :: rest =>
      if isCancelled (step st) then
        Ok (mkLoop (v0_results st) (latest_results st) true (step st)
                   (trace st ++ [EvPoll true]))
      else
        v0 <- lookup_version_zero e ;;
        latest <- lookup_latest e ;;
        resolve_loop rest
          (mkLoop (v0_results st ++ [v0]) (latest_results st ++ [latest])
                  (cancelled st) (step st + 2)
                  (trace st ++ [EvPoll false;
                                EvVersionZero (entry_shot e);
                                EvLatest (entry_shot e)]))
  end.

(** One column of the layout: the entry, [latest_results[col_idx]] and
    [v0_results[col_idx]]. *)
Definition column : Type := (entry * option string * option string)%type.

Definition index {A : Type} (l : list A) (i : nat) : outcome A :=
  match nth_error l i with
  | Some x => Ok x
  | None => Raise IndexError
  end.

(** The loop [for col_idx, ... in enumerate(entries)] of the layout. *)
Fixpoint columns_from (col_idx : nat) (entries : list entry) (st : loop_state)
  : outcome (list column) :=
  match entries with
  | [] => Ok []
  | e :: rest =>
      latest <- index (latest_results st) col_idx ;;
      v0 <- index (v0_results st) col_idx ;;
      more <- columns_from (S col_idx) rest st ;;
      Ok ((e, latest, v0) :: more)
  end.

(** How a run over the selection ends. *)
Inductive report : Type :=
| SelectReadNodesFirst
| CouldNotParse
| Cancelled
| Done (columns : list column).

(** The script from [selected = nuke.selectedNodes("Read")] on. *)
Definition run (selected : list node) : outcome report :=
  match selected with
  | [] => Ok SelectReadNodesFirst
  | _ =>
      entries <- parse_entries (shot_regex cfg) selected ;;
      match entries with
      | [] => Ok CouldNotParse
      | _ =>
          st <- resolve_loop entries loop_init ;;
          if cancelled st then Ok Cancelled
          else
            cols <- columns_from 0 entries st ;;
            Ok (Done cols)
      end
  end.

End Orchestrator.

(** Cancellation signaled once [k] lookups have been started (during the
    [k]-th lookup, or before any when [k = 0]): a poll sees it from [k]
    completed lookups on. *)
Definition signaled_during (k : nat) : nat -> bool := fun completed => (k <=? completed)%nat.

Definition never_cancelled : nat -> bool := fun _ => false.

Definition is_lookup (ev : event) : bool :=
  match ev with
  | EvPoll _ => false
  | _ => true
  end.

Definition is_poll (ev : event) : bool := negb (is_lookup ev).

Definition lookups (tr : list event) : nat := List.length (filter is_lookup tr).
Definition polls (tr : list event) : nat := List.length (filter is_poll tr).

(* ------------------------------------------------------------------ *)
(** ** Notions used in the statements *)

(** The candidates that reach the ranking of [_find_latest_version], with
    their numbers: glob matches with the exact suffix, not excluded by
    name, carrying a strict version token. *)
Definition ranked (file_ext : string) (exclude_filename : option string)
  (files : list Path) : list (N * string) :=
  collect_versions exclude_filename
    (filter (fun f => String.eqb (suffix f) file_ext) files).

(** The subject has a lowercase letter where [[a-z]$] can match: as its
    last character, or just before a final newline. *)
Fixpoint ends_in_letter (s : string) : bool :=
  match s with
  | EmptyString => false
  | String c rest => (Str.is_lower c && Re.at_eol rest) || ends_in_letter rest
  end.

(** What the loop does for one entry that it processes. *)
Definition entry_events (e : entry) : list event :=
  [EvPoll false; EvVersionZero (entry_shot e); EvLatest (entry_shot e)].

(** The node's filename yields a shot name that is kept ([if shot_name]). *)
Definition parses (shot_regex : Re.regex) (n : node) : bool :=
  match _extract_shot_name (OsPath.basename (file_value n)) shot_regex with
  | Ok (Some s) => Str.truthy s
  | _ => false
  end.

(** Both lookups of the entry return (no [glob] raises). *)
Definition lookups_return {FS : FileSystem} (cfg : config) (e : entry) : Prop :=
  exists v0 latest,
    lookup_version_zero cfg e = Ok v0 /\ lookup_latest cfg e = Ok latest.

(** Only decimal digits. *)
Fixpoint all_digits (s : string) : bool :=
  match s with
  | EmptyString => true
  | String c rest => Str.is_digit c && all_digits rest
  end.

(** Still at the beginning of the subject after reading [s] down to [s']. *)
Definition still (bos : bool) (s s' : string) : bool :=
  bos && (String.length s' =? String.length s)%nat.

(** [Reads r bos s s']: the words of the pattern, read off the head of the
    subject.  [r] reads [s] down to [s']; [bos] tells whether [s] is the
    whole subject. *)
Inductive Reads : Re.regex -> bool -> string -> string -> Prop :=
| ReadsEps bos s : Reads Re.Eps bos s s
| ReadsChr c bos s : Reads (Re.Chr c) bos (String c s) s
| ReadsCls neg ranges a bos s :
    Re.in_class neg ranges a = true -> Reads (Re.Cls neg ranges) bos (String a s) s
| ReadsCat r1 r2 bos s s1 s2 :
    Reads r1 bos s s1 -> Reads r2 (still bos s s1) s1 s2 -> Reads (Re.Cat r1 r2) bos s s2
| ReadsAltL r1 r2 bos s s' : Reads r1 bos s s' -> Reads (Re.Alt r1 r2) bos s s'
| ReadsAltR r1 r2 bos s s' : Reads r2 bos s s' -> Reads (Re.Alt r1 r2) bos s s'
| ReadsStarStop r bos s : Reads (Re.Star r) bos s s
| ReadsStarStep r bos s s1 s2 :
    Reads r bos s s1 -> Reads (Re.Star r) (still bos s s1) s1 s2 ->
    Reads (Re.Star r) bos s s2
| ReadsGrp i r bos s s' : Reads r bos s s' -> Reads (Re.Grp i r) bos s s'
| ReadsBol s : Reads Re.Bol true s s
| ReadsEol bos s : Re.at_eol s = true -> Reads Re.Eol bos s s.

(** [t] is a piece of [s]. *)
Definition piece_of (s t : string) : Prop :=
  exists a b, s = (a ++ t ++ b)%string.

(** From [(s, g)] the matcher has come to [(s', g')]: [s'] is an end of
    [s], the captures added to [g] are pieces of [s]. *)
Definition extends (s : string) (g : Re.captures) (s' : string) (g' : Re.captures) : Prop :=
  (exists w, s = (w ++ s')%string) /\
  (exists new, g' = new ++ g /\ Forall (fun c => piece_of s (snd c)) new).

(** What a successful run of a matcher comes from: a word read off the
    subject, and the continuation succeeding behind it. *)
Definition sound (r : Re.regex)
  (body : bool -> string -> Re.captures -> Re.cont -> option (string * Re.captures)) : Prop :=
  forall bos s g k x,
    body bos s g k = Some x ->
    exists s' g',
      Reads r bos s s' /\ extends s g s' g' /\ k (still bos s s') s' g' = Some x.

(** Whatever the pattern can read in front of a continuation that succeeds,
    the matcher finds some way through: for [r] itself and, when [r] is a
    repetition, for its loop on any sufficient count of rounds. *)
Definition finds (r : Re.regex) (bos : bool) (s s' : string) : Prop :=
  (forall g k, (forall g', k (still bos s s') s' g' <> None) -> Re.rx r bos s g k <> None) /\
  match r with
  | Re.Star r1 =>
      forall n g k,
        String.length s < n ->
        (forall g', k (still bos s s') s' g' <> None) ->
        Re.star_loop (Re.rx r1) k n bos s g <> None
  | _ => True
  end.

(** A disk where nothing exists and every [glob] is refused. *)
Definition RefusingFS : FileSystem :=
  {| path_exists := fun _ => Ok false; path_glob := fun _ _ => Raise OSError |}.

(** The shot [SEQ_1140a] and its directory. *)
Module Example.

Definition vfx_dir : Path := _build_vfx_path "SEQ_1140a" "/shows" "_vfx".

Definition u0003 : string := "SEQ_1140a_comp_u0003_vfx.mov".
Definition w0012 : string := "SEQ_1140a_comp_w0012_vfx.mov".
Definition i0007 : string := "SEQ_1140a_comp_i0007_vfx.mov".
Definition a_u0000 : string := "SEQ_1140a_comp_u0000_vfx.mov".

Definition base_u0000 : string := "SEQ_1140_comp_u0000_vfx.mov".
Definition base_w0000 : string := "SEQ_1140_comp_w0000_vfx.mov".
Definition bare_w0000 : string := "SEQ_1140_w0000_vfx.mov".

(** A directory holding exactly [names], enumerated in that order. *)
Definition dir_with (names : list string) : FileSystem := DiskFS [(vfx_dir, names)].

(** [([A-Z]+_\d+[a-z]?)_], a pattern for names such as [SEQ_1140a_...]. *)
Definition shot_re : Re.regex :=
  Re.Cat
    (Re.Grp 1
       (Re.Cat (Re.Plus (Re.Cls false [("A", "Z")]%char))
          (Re.Cat (Re.Chr "_") (Re.Cat (Re.Plus Re.digit) (Re.Opt Re.lower)))))
    (Re.Chr "_").

Definition cfg : config := mkConfig shot_re "/shows" "_vfx" ".mov".

Definition selected_w0012 : node :=
  mkNode "/shows/SEQ/SEQ_1140/_vfx/SEQ_1140a_comp_w0012_vfx.mov" 0 0.

Definition selected_u0003 : node :=
  mkNode "/shows/SEQ/SEQ_1140/_vfx/SEQ_1140a_comp_u0003_vfx.mov" 350 0.

(** A selected node whose filename the pattern does not match. *)
Definition selected_notes : node := mkNode "/shows/notes/readme.mov" 700 0.

Definition entry_w0012 : entry := ("SEQ_1140a", "w0012", selected_w0012).
Definition entry_u0003 : entry := ("SEQ_1140a", "u0003", selected_u0003).

Definition renders : list string := [u0003; w0012; i0007; base_u0000].

Fixpoint nines (n : nat) : string :=
  match n with
  | O => EmptyString
  | S n' => String "9" (nines n')
  end.

(** A shot identity with a shot number of 300 digits. *)
Definition long_shot : string := ("SEQ_" ++ nines 300)%string.

End Example.

(** A letter, lowercase or uppercase. *)
Definition is_letter (c : ascii) : bool :=
  Str.is_lower c || Str.in_range "A" "Z" c.

(** A shot identity as the data model has it: a sequence code, an
    underscore, a shot number, and at most one trailing letter. *)
Definition shot_identity (x : string) : Prop :=
  exists seq num tail,
    x = (seq ++ "_" ++ num ++ tail)%string /\
    all_digits num = true /\ num <> EmptyString /\
    (tail = EmptyString \/
     exists c, is_letter c = true /\ tail = String c EmptyString).

(* ------------------------------------------------------------------ *)
(** ** Further notions used in the statements *)

(** [c not in s] *)
Fixpoint lacks (c : ascii) (s : string) : bool :=
  match s with
  | EmptyString => true
  | String a s' => negb (Ascii.eqb a c) && lacks c s'
  end.

(** The values [Path.suffix] can take, the empty one apart: a dot followed
    by one or more characters none of which is a dot. *)
Definition simple_suffix (e : string) : bool :=
  match e with
  | String "." t => Str.truthy t && lacks "." t
  | _ => false
  end.

(** What [Path(s)] keeps of a text without separator: the text itself,
    unless it is empty or a lone dot. *)
Definition kept (s : string) : list string :=
  if keep_part s then [s] else [].

(** A stem that carries a version token: anything, then an underscore, a
    letter, digits and [_vfx], then [rest] (nothing, or a final newline). *)
Definition token_stem (pre : string) (c : ascii) (ds rest : string) : string :=
  (pre ++ String "_" (String c (ds ++ "_vfx" ++ rest)))%string.

(** The first character, if any, is not a digit. *)
Definition stops_digits (s : string) : bool :=
  match s with
  | EmptyString => true
  | String a _ => negb (Str.is_digit a)
  end.



(** Of two texts for a group, the one captured later stands; an earlier
    one stays when nothing is captured later. *)
Definition later (t2 t1 : option string) : option string :=
  match t2 with
  | Some _ => t2
  | None => t1
  end.

(** [Spans i r bos s s' t]: [r] reads [s] down to [s'], and on that way
    through the pattern group [i] holds [t]: the text between the
    parentheses numbered [i], as they were passed last, [None] when they
    were not passed at all. *)
Inductive Spans (i : nat) : Re.regex -> bool -> string -> string -> option string -> Prop :=
| SpansEps bos s : Spans i Re.Eps bos s s None
| SpansChr c bos s : Spans i (Re.Chr c) bos (String c s) s None
| SpansCls neg ranges a bos s :
    Re.in_class neg ranges a = true ->
    Spans i (Re.Cls neg ranges) bos (String a s) s None
| SpansCat r1 r2 bos s s1 s2 t1 t2 :
    Spans i r1 bos s s1 t1 -> Spans i r2 (still bos s s1) s1 s2 t2 ->
    Spans i (Re.Cat r1 r2) bos s s2 (later t2 t1)
| SpansAltL r1 r2 bos s s' t : Spans i r1 bos s s' t -> Spans i (Re.Alt r1 r2) bos s s' t
| SpansAltR r1 r2 bos s s' t : Spans i r2 bos s s' t -> Spans i (Re.Alt r1 r2) bos s s' t
| SpansStarStop r bos s : Spans i (Re.Star r) bos s s None
| SpansStarStep r bos s s1 s2 t1 t2 :
    Spans i r bos s s1 t1 -> Spans i (Re.Star r) (still bos s s1) s1 s2 t2 ->
    Spans i (Re.Star r) bos s s2 (later t2 t1)
| SpansGrp j r bos w s' t :
    Spans i r bos (w ++ s') s' t ->
    Spans i (Re.Grp j r) bos (w ++ s') s' (if (i =? j)%nat then Some w else t)
| SpansBol s : Spans i Re.Bol true s s None
| SpansEol bos s : Re.at_eol s = true -> Spans i Re.Eol bos s s None.






(* ------------------------------------------------------------------ *)
(** ** Colours: [_parse_color] *)

Module Text.

Definition code_in (codes : list nat) (c : ascii) : bool :=
  existsb (Nat.eqb (nat_of_ascii c)) codes.

(** The characters that [str.strip()] removes. *)
Definition is_space (c : ascii) : bool :=
  code_in [9; 10; 11; 12; 13; 28; 29; 30; 31; 32; 133; 160]%nat c.

(** The characters that [int(s, base)] skips around the number. *)
Definition is_int_space (c : ascii) : bool :=
  code_in [9; 10; 11; 12; 13; 32; 133; 160]%nat c.

Fixpoint lstrip_by (p : ascii -> bool) (s : string) : string :=
  match s with
  | EmptyString => EmptyString
  | String c r => if p c then lstrip_by p r else s
  end.

Fixpoint rstrip_by (p : ascii -> bool) (s : string) : string :=
  match s with
  | EmptyString => EmptyString
  | String c r =>
      match rstrip_by p r with
      | EmptyString => if p c then EmptyString else String c EmptyString
      | r' => String c r'
      end
  end.

(** [s.strip()] *)
Definition strip (s : string) : string := lstrip_by is_space (rstrip_by is_space s).

(** [s.lstrip(ch)] for a single character [ch] *)
Definition lstrip_char (ch : ascii) (s : string) : string := lstrip_by (Ascii.eqb ch) s.

(** [s.replace("0x", "")]: the occurrences are found from left to right and
    do not overlap. *)
Fixpoint remove_0x (s : string) : string :=
  match s with
  | EmptyString => EmptyString
  | String c r =>
      match r with
      | EmptyString => String c EmptyString
      | String d r' =>
          if Ascii.eqb c "0" && Ascii.eqb d "x" then remove_0x r'
          else String c (remove_0x r)
      end
  end.

(** The value of a base-16 digit. *)
Definition hex_value (c : ascii) : option Z :=
  if Str.is_digit c then Some (Z.of_nat (nat_of_ascii c - 48))
  else if Str.in_range "a" "f" c then Some (Z.of_nat (nat_of_ascii c - 87))
  else if Str.in_range "A" "F" c then Some (Z.of_nat (nat_of_ascii c - 55))
  else None.

(** The digits of [int(s, 16)], single underscores allowed between them;
    returns the number, the count of digits and what follows them. *)
Fixpoint digits16 (s : string) (prev_underscore : bool) (acc : Z) (n : nat)
  : option (Z * nat * string) :=
  match s with
  | EmptyString => if prev_underscore then None else Some (acc, n, EmptyString)
  | String c r =>
      match hex_value c with
      | Some v => digits16 r false (acc * 16 + v)%Z (S n)
      | None =>
          if Ascii.eqb c "_" then
            if prev_underscore then None else digits16 r true acc n
          else if prev_underscore then None else Some (acc, n, s)
      end
  end.

(** [int(s, 16)]: whitespace, a sign, a [0x] or [0X] prefix (with one
    underscore after it), digits, whitespace. *)
Definition int16 (s : string) : outcome Z :=
  let s1 := lstrip_by is_int_space s in
  let '(sign, s2) :=
    match s1 with
    | String c r =>
        if Ascii.eqb c "+" then (1%Z, r)
        else if Ascii.eqb c "-" then ((-1)%Z, r)
        else (1%Z, s1)
    | EmptyString => (1%Z, s1)
    end in
  let s3 :=
    match s2 with
    | String c (String d r) =>
        if Ascii.eqb c "0" && (Ascii.eqb d "x" || Ascii.eqb d "X") then
          match r with
          | String u r' => if Ascii.eqb u "_" then r' else r
          | EmptyString => r
          end
        else s2
    | _ => s2
    end in
  match s3 with
  | String u _ =>
      if Ascii.eqb u "_" then Raise ValueError
      else
        match digits16 s3 false 0%Z 0%nat with
        | Some (v, n, rest) =>
            if (0 <? n)%nat && String.eqb (lstrip_by is_int_space rest) EmptyString
            then Ok (sign * v)%Z
            else Raise ValueError
        | None => Raise ValueError
        end
  | EmptyString => Raise ValueError
  end.

(** [str(n)] for an [int] *)
Definition show_int (z : Z) : string := NilZero.string_of_int (Z.to_int z).

Definition nl : string := String Str.newline EmptyString.

End Text.

(** A colour of the configuration: a string, or an integer where the
    configuration spells a number. *)
Inductive color_value : Type :=
| ColorStr (s : string)
| ColorInt (z : Z).

(** [str(val)] *)
Definition str_of (val : color_value) : string :=
  match val with
  | ColorStr s => s
  | ColorInt z => Text.show_int z
  end.

(** [_parse_color(val)] *)
Definition _parse_color (val : color_value) : outcome Z :=
  let val := Text.remove_0x (Text.lstrip_char "#" (Text.strip (str_of val))) in
  let val := if (String.length val =? 6)%nat then (val ++ "FF")%string else val in
  Text.int16 val.

(* ------------------------------------------------------------------ *)
(** ** Node graph commands, layout and summary *)

(** What the script asks of Nuke, apart from the progress display. *)
Inductive command : Type :=
| Message (text : string)
| UndoBegin (name : string)
| UndoEnd
| BackdropNode (b_xpos b_ypos bdwidth bdheight tile_color : Z) (label : string)
| ReadNode (file : string) (r_xpos r_ypos : Z)
| NoOpNode (name label : string) (n_xpos n_ypos : Z).

(** A computation that issues commands and then returns or raises. *)
Definition effect (A : Type) : Type := (list command * outcome A)%type.

Definition ret {A : Type} (a : A) : effect A := ([], Ok a).

Definition ebind {A B : Type} (m : effect A) (k : A -> effect B) : effect B :=
  match m with
  | (w, Ok a) => let '(w', r) := k a in (w ++ w', r)
  | (w, Raise e) => (w, Raise e)
  end.

Definition emit (c : command) : effect unit := ([c], Ok tt).

Definition lift {A : Type} (m : outcome A) : effect A := ([], m).

(** [try: body finally: handler] *)
Definition finally (body handler : effect unit) : effect unit :=
  let '(w, r) := body in
  let '(w', r') := handler in
  (w ++ w', match r' with Ok _ => r | Raise e => Raise e end).

Notation "x <~ m ;; k" := (ebind m (fun x => k))
  (at level 61, m at next level, right associativity).

(** [dict.get(key, default)] *)
Definition get {A : Type} (value : option A) (default : A) : A :=
  match value with
  | Some a => a
  | None => default
  end.

(** The keys of [config["layout"]], integers where present. *)
Record layout_config : Type := mkLayout {
  backdrop_width : option Z;
  backdrop_height : option Z;
  column_spacing : option Z;
  row_spacing_key : option Z
}.

(** The keys of [config["colors"]], where present. *)
Record colors_config : Type := mkColors {
  selected_versions : option color_value;
  latest_versions : option color_value;
  version_zeros : option color_value
}.

(** [max(...)] and [min(...)] of integers; both raise on nothing. *)
Definition max_of (l : list Z) : outcome Z :=
  match l with
  | [] => Raise ValueError
  | x :: rest => Ok (fold_left Z.max rest x)
  end.

Definition min_of (l : list Z) : outcome Z :=
  match l with
  | [] => Raise ValueError
  | x :: rest => Ok (fold_left Z.min rest x)
  end.

(** Truthiness of a lookup result or file path. *)
Definition found (fpath : option string) : bool :=
  match fpath with
  | Some p => Str.truthy p
  | None => false
  end.

(** [_create_read(filepath, xpos, ypos)] *)
Definition _create_read (filepath : string) (xpos ypos : Z) : command :=
  ReadNode filepath xpos ypos.

(** [_create_backdrop(label, xpos, ypos, width, height, color)] *)
Definition _create_backdrop (label : string) (xpos ypos width height color : Z)
  : command :=
  BackdropNode xpos ypos width height color
    ("<center><b>" ++ label ++ "</b></center>")%string.

(** ["{} {}".format(shot_name, ver_label)] *)
Definition col_label_of (e : entry) : string :=
  (entry_shot e ++ " " ++ entry_label e)%string.

(** The comprehension
    [[... for i, e in enumerate(entries) if not results[i]]]. *)
Fixpoint missing_from (results : list (option string)) (i : nat) (entries : list entry)
  : outcome (list string) :=
  match entries with
  | [] => Ok []
  | e :: rest =>
      r <- index results i ;;
      more <- missing_from results (S i) rest ;;
      Ok (if found r then more else col_label_of e :: more)
  end.

(** The loop [for s in missing: summary += "  - {}\n".format(s)]. *)
Fixpoint bullet_lines (missing : list string) : string :=
  match missing with
  | [] => EmptyString
  | s :: rest => ("  - " ++ s ++ Text.nl ++ bullet_lines rest)%string
  end.

Definition len {A : Type} (l : list A) : Z := Z.of_nat (List.length l).

Definition truthy_list {A : Type} (l : list A) : bool :=
  match l with
  | [] => false
  | _ :: _ => true
  end.

Section Script.

Context {FS : FileSystem}.

Variable isCancelled : nat -> bool.
Variable cfg : config.
Variable layout : layout_config.
Variable colors : colors_config.

Definition bd_w : Z := get (backdrop_width layout) 300%Z.
Definition bd_h : Z := get (backdrop_height layout) 200%Z.
Definition col_spacing : Z := get (column_spacing layout) 350%Z.
Definition row_spacing : Z := get (row_spacing_key layout) 300%Z.

Definition pad_x : Z := 30.
Definition pad_y : Z := 60.

(** The list [rows], its colours parsed in order. *)
Definition rows_of : outcome (list (string * Z)) :=
  c1 <- _parse_color (get (selected_versions colors) (ColorStr "4A6FA5FF")) ;;
  c2 <- _parse_color (get (latest_versions colors) (ColorStr "7B9F35FF")) ;;
  c3 <- _parse_color (get (version_zeros colors) (ColorStr "8C5E3CFF")) ;;
  Ok [("Selected Versions", c1); ("Latest Versions", c2); ("Version Zeros", c3)].

(** The body of the loop over [enumerate(rows)]: one backdrop, then a Read
    node or a placeholder. *)
Definition layout_cell (start_x start_y : Z) (st : loop_state)
  (col_idx : nat) (e : entry) (row_idx : nat) (row : string * Z) : effect unit :=
  let x := (start_x + Z.of_nat col_idx * col_spacing)%Z in
  let col_label := col_label_of e in
  let '(row_label, row_color) := row in
  let y := (start_y + Z.of_nat row_idx * row_spacing)%Z in
  fpath <~ lift (if (row_idx =? 0)%nat then Ok (Some (file_value (entry_node e)))
                 else if (row_idx =? 1)%nat then index (latest_results st) col_idx
                 else index (v0_results st) col_idx) ;;
  let cell_label :=
    if (col_idx =? 0)%nat then (row_label ++ Text.nl ++ col_label)%string
    else col_label in
  _ <~ emit (_create_backdrop cell_label (x - pad_x) (y - pad_y) bd_w bd_h row_color) ;;
  let node_x := (x + bd_w / 2 - pad_x - 40)%Z in
  let node_y := (y + 20)%Z in
  match fpath with
  | Some p =>
      if Str.truthy p then emit (_create_read p node_x node_y)
      else emit (NoOpNode (entry_shot e ++ "_MISSING") "NOT FOUND" node_x node_y)
  | None => emit (NoOpNode (entry_shot e ++ "_MISSING") "NOT FOUND" node_x node_y)
  end.

Fixpoint layout_rows (start_x start_y : Z) (st : loop_state)
  (col_idx : nat) (e : entry) (row_idx : nat) (rows : list (string * Z)) : effect unit :=
  match rows with
  | [] => ret tt
  | row :: rest =>
      _ <~ layout_cell start_x start_y st col_idx e row_idx row ;;
      layout_rows start_x start_y st col_idx e (S row_idx) rest
  end.

(** The loop over [enumerate(entries)] of the layout. *)
Fixpoint layout_columns (start_x start_y : Z) (st : loop_state)
  (rows : list (string * Z)) (col_idx : nat) (entries : list entry) : effect unit :=
  match entries with
  | [] => ret tt
  | e :: rest =>
      _ <~ layout_rows start_x start_y st col_idx e 0 rows ;;
      layout_columns start_x start_y st rows (S col_idx) rest
  end.

(** The text of the closing message. *)
Definition summary_text (entries : list entry) (missing_v0 missing_latest : list string)
  : string :=
  let found_count :=
    (len entries - len missing_v0 + len entries - len missing_latest)%Z in
  let total_count := (len entries * 2)%Z in
  let summary :=
    ("Done! Created nodes for " ++ Text.show_int (len entries) ++ " versions."
       ++ Text.nl)%string in
  let summary :=
    (summary ++ "Found " ++ Text.show_int found_count ++ " of "
       ++ Text.show_int total_count ++ " lookups." ++ Text.nl)%string in
  let summary :=
    if truthy_list missing_v0 then
      (summary ++ Text.nl ++ "Missing version zeros:" ++ Text.nl
         ++ bullet_lines missing_v0)%string
    else summary in
  let summary :=
    if truthy_list missing_latest then
      (summary ++ Text.nl ++ "Missing latest versions:" ++ Text.nl
         ++ bullet_lines missing_latest)%string
    else summary in
  summary.

(** The branch taken when the loop was not cancelled: layout, then summary. *)
Definition finish (entries : list entry) (st : loop_state) : effect unit :=
  max_x <~ lift (max_of (map (fun e => xpos (entry_node e)) entries)) ;;
  let start_x := (max_x + col_spacing + 200)%Z in
  min_y <~ lift (min_of (map (fun e => ypos (entry_node e)) entries)) ;;
  let start_y := min_y in
  rows <~ lift rows_of ;;
  _ <~ emit (UndoBegin "Find versions") ;;
  _ <~ finally (layout_columns start_x start_y st rows 0 entries) (emit UndoEnd) ;;
  missing_v0 <~ lift (missing_from (v0_results st) 0 entries) ;;
  missing_latest <~ lift (missing_from (latest_results st) 0 entries) ;;
  emit (Message (summary_text entries missing_v0 missing_latest)).

(** The script from [selected = nuke.selectedNodes("Read")] to its end. *)
Definition script (selected : list node) : effect unit :=
  match selected with
  | [] => emit (Message "Select one or more Read nodes first.")
  | _ =>
      entries <~ lift (parse_entries (shot_regex cfg) selected) ;;
      match entries with
      | [] =>
          emit (Message ("Could not parse shot names from selected Read nodes."
                           ++ Text.nl ++ "Check shot_regex in config.")%string)
      | _ =>
          st <~ lift (resolve_loop isCancelled cfg entries loop_init) ;;
          if cancelled st then emit (Message "Cancelled.")
          else finish entries st
      end
  end.

End Script.

(* ------------------------------------------------------------------ *)
(** ** Notions used in the statements on colours, layout and summary *)

Definition is_hex (c : ascii) : bool :=
  match Text.hex_value c with
  | Some _ => true
  | None => false
  end.

Fixpoint all_hex (s : string) : bool :=
  match s with
  | EmptyString => true
  | String c rest => is_hex c && all_hex rest
  end.

Fixpoint hex_from (acc : Z) (s : string) : Z :=
  match s with
  | EmptyString => acc
  | String c rest => hex_from (acc * 16 + get (Text.hex_value c) 0)%Z rest
  end.

(** The number that a string of base-16 digits spells. *)
Definition hex_number (s : string) : Z := hex_from 0 s.

Definition col_entry (c : column) : entry := fst (fst c).
Definition col_latest (c : column) : option string := snd (fst c).
Definition col_v0 (c : column) : option string := snd c.

(** The file of a cell: the selected file in row 0, the latest version in
    row 1, the version zero below. *)
Definition fpath_of (c : column) (row_idx : nat) : option string :=
  if (row_idx =? 0)%nat then Some (file_value (entry_node (col_entry c)))
  else if (row_idx =? 1)%nat then col_latest c
  else col_v0 c.

(** The backdrop and the node of the cell in column [col_idx], row [row_idx]. *)
Definition cell_commands (layout : layout_config) (start_x start_y : Z)
  (col_idx : nat) (c : column) (row_idx : nat) (row : string * Z) : list command :=
  let x := (start_x + Z.of_nat col_idx * col_spacing layout)%Z in
  let y := (start_y + Z.of_nat row_idx * row_spacing layout)%Z in
  let e := col_entry c in
  [ _create_backdrop
      (if (col_idx =? 0)%nat then (fst row ++ Text.nl ++ col_label_of e)%string
       else col_label_of e)
      (x - 30) (y - 60) (bd_w layout) (bd_h layout) (snd row);
    if found (fpath_of c row_idx)
    then ReadNode (get (fpath_of c row_idx) EmptyString)
                  (x + bd_w layout / 2 - 30 - 40) (y + 20)
    else NoOpNode (entry_shot e ++ "_MISSING") "NOT FOUND"
                  (x + bd_w layout / 2 - 30 - 40) (y + 20) ]%Z.

Fixpoint rows_commands (layout : layout_config) (start_x start_y : Z)
  (col_idx : nat) (c : column) (row_idx : nat) (rows : list (string * Z))
  : list command :=
  match rows with
  | [] => []
  | row :: rest =>
      cell_commands layout start_x start_y col_idx c row_idx row
        ++ rows_commands layout start_x start_y col_idx c (S row_idx) rest
  end.

Fixpoint grid_commands (layout : layout_config) (start_x start_y : Z)
  (rows : list (string * Z)) (col_idx : nat) (cols : list column) : list command :=
  match cols with
  | [] => []
  | c :: rest =>
      rows_commands layout start_x start_y col_idx c 0 rows
        ++ grid_commands layout start_x start_y rows (S col_idx) rest
  end.

Definition is_message (c : command) : bool :=
  match c with Message _ => true | _ => false end.

Definition is_undo (c : command) : bool :=
  match c with UndoBegin _ | UndoEnd => true | _ => false end.

Definition is_backdrop (c : command) : bool :=
  match c with BackdropNode _ _ _ _ _ _ => true | _ => false end.

Definition is_read (c : command) : bool :=
  match c with ReadNode _ _ _ => true | _ => false end.

Definition is_placeholder (c : command) : bool :=
  match c with NoOpNode _ _ _ _ => true | _ => false end.

Definition count {A : Type} (p : A -> bool) (l : list A) : nat :=
  List.length (filter p l).

(** The labels of the columns whose result [proj] is missing. *)
Definition missing_labels (proj : column -> option string) (cols : list column)
  : list string :=
  map (fun c => col_label_of (col_entry c))
      (filter (fun c => negb (found (proj c))) cols).

(** The number of lookups of the columns that found a file. *)
Definition found_lookups (cols : list column) : nat :=
  count (fun c => found (col_v0 c)) cols + count (fun c => found (col_latest c)) cols.

(** Where a command puts a node. *)
Definition position (c : command) : option (Z * Z) :=
  match c with
  | BackdropNode x y _ _ _ _ => Some (x, y)
  | ReadNode _ x y => Some (x, y)
  | NoOpNode _ _ x y => Some (x, y)
  | _ => None
  end.

Definition is_node (c : command) : bool := is_read c || is_placeholder c.

(** The commands that create something in the node graph. *)
Definition created (w : list command) : list command :=
  filter (fun c => is_backdrop c || is_node c) w.

(** A rectangle: left, top, width, height. *)
Definition rect : Type := (Z * Z * Z * Z)%type.

Definition backdrop_rects (w : list command) : list rect :=
  flat_map (fun c => match c with
                     | BackdropNode x y bw bh _ _ => [(x, y, bw, bh)]
                     | _ => []
                     end) w.

(** Two rectangles that do not overlap; they may share an edge. *)
Definition apart (a b : rect) : Prop :=
  let '(ax, ay, aw, ah) := a in
  let '(bx, by_, bw, bh) := b in
  (ax + aw <= bx \/ bx + bw <= ax \/ ay + ah <= by_ \/ by_ + bh <= ay)%Z.

(** The commands come in pairs: a backdrop, then a Read node or placeholder
    positioned inside that backdrop. *)
Fixpoint framed (w : list command) : Prop :=
  match w with
  | [] => True
  | BackdropNode bx by_ bw bh _ _ :: rest =>
      match rest with
      | n :: rest' =>
          (is_node n = true /\
           match position n with
           | Some (x, y) => (bx <= x < bx + bw /\ by_ <= y < by_ + bh)%Z
           | None => False
           end) /\ framed rest'
      | [] => False
      end
  | _ => False
  end.

(** The rectangle of the backdrop in column [col_idx], row [row_idx]. *)
Definition cell_rect (layout : layout_config) (start_x start_y : Z)
  (col_idx row_idx : nat) : rect :=
  ((start_x + Z.of_nat col_idx * col_spacing layout - 30)%Z,
   (start_y + Z.of_nat row_idx * row_spacing layout - 60)%Z,
   bd_w layout, bd_h layout).

(* ================================================================== *)
(** * Properties *)

Lemma lower_class (c : ascii) : Re.in_class false [("a", "z")]%char c = Str.is_lower c.
Proof.
  unfold Re.in_class, Str.is_lower. simpl.
  destruct (Str.in_range "a" "z" c); reflexivity.
Qed.

(* ------------------------------------------------------------------ *)
(** ** The version token pattern *)

Lemma digit_class (c : ascii) : Re.in_class false [("0", "9")]%char c = Str.is_digit c.
Proof.
  unfold Re.in_class, Str.is_digit. simpl.
  destruct (Str.in_range "0" "9" c); reflexivity.
Qed.

Lemma string_length_app (a b : string) :
  String.length (a ++ b) = String.length a + String.length b.
Proof. induction a as [|c a IH]; cbn; [reflexivity|now f_equal]. Qed.

Lemma take_app_length (a b : string) :
  Str.take (String.length (a ++ b) - String.length b) (a ++ b) = a.
Proof.
  induction a as [|c a IH]; cbn [append String.length].
  - rewrite Nat.sub_diag. destruct b; reflexivity.
  - pose proof (string_length_app a b) as L.
    replace (S (String.length (a ++ b)) - String.length b)
      with (S (String.length (a ++ b) - String.length b)) by lia.
    cbn [Str.take]. now rewrite IH.
Qed.

(** A greedy run of digits stops in front of what the continuation takes. *)
Lemma star_digit_sound (k : Re.cont) (n : nat) :
  forall bos s g x,
    Re.star_loop (Re.rx Re.digit) k n bos s g = Some x ->
    exists ds rest b',
      s = (ds ++ rest)%string /\ all_digits ds = true /\ k b' rest g = Some x.
Proof.
  induction n as [|n IH]; intros bos s g x H; cbn [Re.star_loop] in H.
  - exists EmptyString, s, bos. repeat split. exact H.
  - unfold Re.digit in H at 1. cbn [Re.rx] in H. destruct s as [|a s'].
    + exists EmptyString, EmptyString, bos. repeat split. exact H.
    + rewrite digit_class in H. destruct (Str.is_digit a) eqn:Ea.
      * replace (String.length s' <? String.length (String a s'))%nat with true in H
          by (symmetry; apply Nat.ltb_lt; cbn; lia).
        fold Re.digit in H.
        destruct (Re.star_loop (Re.rx Re.digit) k n false s' g) as [x'|] eqn:E.
        -- injection H as <-. destruct (IH _ _ _ _ E) as (ds & rest & b' & -> & Hd & Hk).
           exists (String a ds), rest, b'. repeat split; [|exact Hk].
           cbn [all_digits]. now rewrite Ea, Hd.
        -- exists EmptyString, (String a s'), bos. repeat split. exact H.
      * exists EmptyString, (String a s'), bos. repeat split. exact H.
Qed.

(** A match of [version_re] reads an underscore, one lowercase letter (group
    1), one or more digits (group 2) and [_vfx], and stops where [$] holds. *)
Lemma version_re_match_sound (bos : bool) (s : string) (m : Re.match_obj) :
  Re.match_at version_re bos s = Some m ->
  exists c ds,
    s = String "_" (String c (ds ++ "_vfx" ++ Re.m_rest m)) /\
    Str.is_lower c = true /\ all_digits ds = true /\ ds <> EmptyString /\
    Re.at_eol (Re.m_rest m) = true /\
    Re.m_caps m = [(2, ds); (1, String c EmptyString)].
Proof.
  unfold Re.match_at.
  destruct (Re.rx version_re bos s [] Re.accept) as [[rest g]|] eqn:E; [|discriminate].
  intros H. injection H as <-. cbn [Re.m_rest Re.m_caps].
  unfold version_re, Re.Plus, Re.lower in E. cbn [Re.rx Re.Lit] in E.
  destruct s as [|a s1]; [discriminate|].
  destruct (Ascii.eqb a "_") eqn:Ea; [|discriminate]. apply Ascii.eqb_eq in Ea. subst a.
  destruct s1 as [|c s2]; [discriminate|].
  rewrite lower_class in E. destruct (Str.is_lower c) eqn:Ec; [|discriminate].
  unfold Re.digit in E at 1. cbn [Re.rx] in E.
  destruct s2 as [|d s3]; [discriminate|].
  rewrite digit_class in E. destruct (Str.is_digit d) eqn:Ed; [|discriminate].
  fold Re.digit in E. apply star_digit_sound in E.
  destruct E as (ds & tail & b' & -> & Hds & E).
  destruct tail as [|t1 tail]; [discriminate|].
  destruct (Ascii.eqb t1 "_") eqn:E1; [|discriminate]. apply Ascii.eqb_eq in E1. subst t1.
  destruct tail as [|t2 tail]; [discriminate|].
  destruct (Ascii.eqb t2 "v") eqn:E2; [|discriminate]. apply Ascii.eqb_eq in E2. subst t2.
  destruct tail as [|t3 tail]; [discriminate|].
  destruct (Ascii.eqb t3 "f") eqn:E3; [|discriminate]. apply Ascii.eqb_eq in E3. subst t3.
  destruct tail as [|t4 tail]; [discriminate|].
  destruct (Ascii.eqb t4 "x") eqn:E4; [|discriminate]. apply Ascii.eqb_eq in E4. subst t4.
  destruct (Re.at_eol tail) eqn:Eeol; [|discriminate].
  unfold Re.accept in E. injection E as <- <-.
  exists c, (String d ds). repeat split.
  - assumption.
  - cbn [all_digits]. now rewrite Ed, Hds.
  - discriminate.
  - assumption.
  - f_equal.
    + f_equal. exact (take_app_length (String d ds) ("_vfx" ++ tail)).
    + f_equal. f_equal.
      exact (take_app_length (String c EmptyString) (String d (ds ++ "_vfx" ++ tail))).
Qed.

Lemma search_from_sound (r : Re.regex) (s : string) :
  forall bos m,
    Re.search_from r bos s = Some m ->
    exists pre at_ b, s = (pre ++ at_)%string /\ Re.match_at r b at_ = Some m.
Proof.
  induction s as [|a s IH]; intros bos m H; cbn [Re.search_from] in H.
  - destruct (Re.match_at r bos EmptyString) eqn:E; [|discriminate].
    injection H as <-. exists EmptyString, EmptyString, bos. split; [reflexivity|exact E].
  - destruct (Re.match_at r bos (String a s)) eqn:E.
    + injection H as <-. exists EmptyString, (String a s), bos. split; [reflexivity|exact E].
    + destruct (IH _ _ H) as (pre & at_ & b & -> & Hm).
      exists (String a pre), at_, b. split; [reflexivity|exact Hm].
Qed.

(** What [version_re.search(stem)] finds: the stem ends (up to a final
    newline) in [_<letter><digits>_vfx]; [m.group(2)] is that run of digits,
    never empty, so [int(m.group(2))] is its decimal value. *)
Lemma version_re_search_sound (stem : string) (m : Re.match_obj) :
  Re.search version_re stem = Some m ->
  exists pre c ds,
    stem = (pre ++ String "_" (String c (ds ++ "_vfx" ++ Re.m_rest m)))%string /\
    Str.is_lower c = true /\ all_digits ds = true /\ ds <> EmptyString /\
    Re.at_eol (Re.m_rest m) = true /\
    group_or_empty m 1 = String c EmptyString /\ group_or_empty m 2 = ds.
Proof.
  intros H. apply search_from_sound in H. destruct H as (pre & at_ & b & -> & H).
  apply version_re_match_sound in H.
  destruct H as (c & ds & -> & Hc & Hd & Hne & He & Hcaps).
  exists pre, c, ds. unfold group_or_empty. rewrite Hcaps. repeat split; assumption.
Qed.

(* ------------------------------------------------------------------ *)
(** ** The matcher reads words of the pattern *)

Lemma string_app_assoc (a b c : string) :
  ((a ++ b) ++ c)%string = (a ++ b ++ c)%string.
Proof. induction a as [|x a IH]; cbn; [reflexivity|now f_equal]. Qed.

Lemma extends_refl (s : string) (g : Re.captures) : extends s g s g.
Proof.
  split; [exists EmptyString; reflexivity|]. exists []. split; [reflexivity|constructor].
Qed.

Lemma piece_of_end (w s' t : string) : piece_of s' t -> piece_of (w ++ s') t.
Proof.
  intros (a & b & ->). exists (w ++ a)%string, b. now rewrite string_app_assoc.
Qed.

Lemma extends_trans s g s1 g1 s2 g2 :
  extends s g s1 g1 -> extends s1 g1 s2 g2 -> extends s g s2 g2.
Proof.
  intros [(w1 & ->) (n1 & -> & F1)] [(w2 & ->) (n2 & -> & F2)]. split.
  - exists (w1 ++ w2)%string. now rewrite string_app_assoc.
  - exists (n2 ++ n1). split; [now rewrite app_assoc|].
    apply Forall_app. split; [|assumption].
    eapply Forall_impl; [|exact F2]. intros c Hc. now apply piece_of_end.
Qed.

Lemma extends_length s g s' g' :
  extends s g s' g' -> String.length s' <= String.length s.
Proof. intros [(w & ->) _]. rewrite string_length_app. lia. Qed.

Lemma still_same (bos : bool) (s : string) : still bos s s = bos.
Proof. unfold still. now rewrite Nat.eqb_refl, andb_true_r. Qed.

Lemma still_shorter (bos : bool) (c : ascii) (s : string) : still bos (String c s) s = false.
Proof.
  unfold still. replace (String.length s =? String.length (String c s))%nat with false.
  - apply andb_false_r.
  - symmetry. apply Nat.eqb_neq. cbn. lia.
Qed.

Lemma still_trans (bos : bool) (s s1 s2 : string) :
  String.length s1 <= String.length s -> String.length s2 <= String.length s1 ->
  still (still bos s s1) s1 s2 = still bos s s2.
Proof.
  intros H1 H2. unfold still. rewrite <- andb_assoc. f_equal.
  destruct (String.length s1 =? String.length s)%nat eqn:E1;
    destruct (String.length s2 =? String.length s1)%nat eqn:E2;
    destruct (String.length s2 =? String.length s)%nat eqn:E3;
    try reflexivity;
    rewrite ?Nat.eqb_eq, ?Nat.eqb_neq in *; lia.
Qed.

Lemma star_loop_sound (r : Re.regex) :
  sound r (Re.rx r) ->
  forall k n bos s g x,
    Re.star_loop (Re.rx r) k n bos s g = Some x ->
    exists s' g',
      Reads (Re.Star r) bos s s' /\ extends s g s' g' /\ k (still bos s s') s' g' = Some x.
Proof.
  intros Hr k n. induction n as [|n IH]; intros bos s g x H; cbn [Re.star_loop] in H.
  - exists s, g. rewrite still_same. split; [constructor|]. split; [apply extends_refl|exact H].
  - destruct (Re.rx r bos s g _) as [x'|] eqn:E.
    + injection H as ->. apply Hr in E.
      destruct E as (s1 & g1 & R1 & X1 & K1).
      destruct (String.length s1 <? String.length s)%nat.
      * apply IH in K1. destruct K1 as (s2 & g2 & R2 & X2 & K2).
        exists s2, g2. split; [econstructor 8; eassumption|].
        split; [eapply extends_trans; eassumption|].
        rewrite <- K2. f_equal. symmetry.
        apply still_trans; eapply extends_length; eassumption.
      * exists s1, g1. split; [|split; assumption].
        econstructor 8; [eassumption|constructor].
    + exists s, g. rewrite still_same. split; [constructor|].
      split; [apply extends_refl|exact H].
Qed.

Lemma rx_sound (r : Re.regex) : sound r (Re.rx r).
Proof.
  induction r as [|c|neg ranges|r1 IH1 r2 IH2|r1 IH1 r2 IH2|r1 IH1|i r1 IH1| |];
    intros bos s g k x H; cbn [Re.rx] in H.
  - exists s, g. rewrite still_same. split; [constructor|]. split; [apply extends_refl|exact H].
  - destruct s as [|a s0]; [discriminate|].
    destruct (Ascii.eqb a c) eqn:E; [|discriminate]. apply Ascii.eqb_eq in E. subst a.
    exists s0, g. rewrite still_shorter. split; [constructor|]. split; [|exact H].
    split; [exists (String c EmptyString); reflexivity|].
    exists []. split; [reflexivity|constructor].
  - destruct s as [|a s0]; [discriminate|].
    destruct (Re.in_class neg ranges a) eqn:E; [|discriminate].
    exists s0, g. rewrite still_shorter. split; [now constructor|]. split; [|exact H].
    split; [exists (String a EmptyString); reflexivity|].
    exists []. split; [reflexivity|constructor].
  - apply IH1 in H. destruct H as (s1 & g1 & R1 & X1 & H).
    apply IH2 in H. destruct H as (s2 & g2 & R2 & X2 & H).
    exists s2, g2. split; [econstructor; eassumption|].
    split; [eapply extends_trans; eassumption|].
    rewrite <- H. f_equal. symmetry.
    apply still_trans; eapply extends_length; eassumption.
  - destruct (Re.rx r1 bos s g k) as [x'|] eqn:E.
    + injection H as ->. apply IH1 in E. destruct E as (s' & g' & R & X & K).
      exists s', g'. split; [now apply ReadsAltL|]. split; assumption.
    + apply IH2 in H. destruct H as (s' & g' & R & X & K).
      exists s', g'. split; [now apply ReadsAltR|]. split; assumption.
  - exact (star_loop_sound r1 IH1 k _ bos s g x H).
  - apply IH1 in H. destruct H as (s' & g' & R & X & K).
    exists s', ((i, Str.take (String.length s - String.length s') s) :: g').
    split; [now constructor|]. split; [|exact K].
    destruct X as [(w & ->) (new & -> & F)]. split; [now exists w|].
    exists ((i, Str.take (String.length (w ++ s') - String.length s') (w ++ s')) :: new).
    split; [reflexivity|]. constructor; [|assumption].
    cbn [snd]. rewrite take_app_length. exists EmptyString, s'. reflexivity.
  - destruct bos; [|discriminate]. exists s, g. rewrite still_same.
    split; [constructor|]. split; [apply extends_refl|exact H].
  - destruct (Re.at_eol s) eqn:E; [|discriminate]. exists s, g. rewrite still_same.
    split; [now constructor|]. split; [apply extends_refl|exact H].
Qed.

Lemma lookup_In (i : nat) (g : Re.captures) (t : string) :
  Re.lookup i g = Some t -> In (i, t) g.
Proof.
  induction g as [|[j u] g IH]; cbn [Re.lookup]; [discriminate|].
  destruct (Nat.eqb i j) eqn:E.
  - apply Nat.eqb_eq in E. subst j. intros H. injection H as ->. now left.
  - intros H. right. now apply IH.
Qed.

(** [re.match(r, s)]: the match begins at the start of [s] and is a word of
    the pattern; what a group has captured is a piece of [s]. *)
Lemma match_sound (r : Re.regex) (s : string) (m : Re.match_obj) :
  Re.match_ r s = Some m ->
  Reads r true s (Re.m_rest m) /\
  (exists w, s = (w ++ Re.m_rest m)%string) /\
  forall i t, Re.lookup i (Re.m_caps m) = Some t -> piece_of s t.
Proof.
  unfold Re.match_, Re.match_at.
  destruct (Re.rx r true s [] Re.accept) as [[rest g]|] eqn:E; [|discriminate].
  intros H. injection H as <-. cbn [Re.m_rest Re.m_caps].
  apply rx_sound in E. destruct E as (s' & g' & R & X & K).
  unfold Re.accept in K. injection K as <- <-.
  destruct X as [Hw (new & -> & F)]. rewrite app_nil_r.
  split; [assumption|]. split; [assumption|].
  intros i t Hl. apply lookup_In in Hl. rewrite Forall_forall in F.
  exact (F _ Hl).
Qed.

Lemma Reads_end (r : Re.regex) (bos : bool) (s s' : string) :
  Reads r bos s s' -> exists w, s = (w ++ s')%string.
Proof.
  induction 1 as [bos s|c bos s|neg ranges a bos s _|r1 r2 bos s s1 s2 _ IH1 _ IH2
                 |r1 r2 bos s s' _ IH|r1 r2 bos s s' _ IH|r bos s
                 |r bos s s1 s2 _ IH1 _ IH2|i r bos s s' _ IH|s|bos s _];
    try (exists EmptyString; reflexivity); try assumption.
  - exists (String c EmptyString). reflexivity.
  - exists (String a EmptyString). reflexivity.
  - destruct IH1 as (w1 & ->), IH2 as (w2 & ->).
    exists (w1 ++ w2)%string. now rewrite string_app_assoc.
  - destruct IH1 as (w1 & ->), IH2 as (w2 & ->).
    exists (w1 ++ w2)%string. now rewrite string_app_assoc.
Qed.

Lemma Reads_length (r : Re.regex) (bos : bool) (s s' : string) :
  Reads r bos s s' -> String.length s' <= String.length s.
Proof.
  intros H. apply Reads_end in H. destruct H as (w & ->).
  rewrite string_length_app. lia.
Qed.

Lemma end_same_length (w s : string) :
  String.length s = String.length (w ++ s) -> w = EmptyString.
Proof.
  rewrite string_length_app. destruct w; [reflexivity|]. cbn. lia.
Qed.

Lemma star_loop_stop (r : Re.regex) (k : Re.cont) (n : nat) (bos : bool) (s : string)
  (g : Re.captures) :
  k bos s g <> None -> Re.star_loop (Re.rx r) k n bos s g <> None.
Proof.
  intros Hk. destruct n as [|n]; cbn [Re.star_loop]; [assumption|].
  destruct (Re.rx r bos s g _); [discriminate|assumption].
Qed.

Lemma rx_complete (r : Re.regex) (bos : bool) (s s' : string) :
  Reads r bos s s' -> finds r bos s s'.
Proof.
  induction 1 as [bos s|c bos s|neg ranges a bos s Hin|r1 r2 bos s s1 s2 R1 IH1 R2 IH2
                 |r1 r2 bos s s' _ IH|r1 r2 bos s s' _ IH|r bos s
                 |r bos s s1 s2 R1 IH1 R2 IH2|i r bos s s' _ IH|s|bos s He].
  - split; [|exact I]. intros g k Hk. cbn [Re.rx]. specialize (Hk g).
    now rewrite still_same in Hk.
  - split; [|exact I]. intros g k Hk. cbn [Re.rx]. rewrite Ascii.eqb_refl.
    specialize (Hk g). now rewrite still_shorter in Hk.
  - split; [|exact I]. intros g k Hk. cbn [Re.rx]. rewrite Hin.
    specialize (Hk g). now rewrite still_shorter in Hk.
  - split; [|exact I]. intros g k Hk. cbn [Re.rx].
    apply (proj1 IH1). intros g1. apply (proj1 IH2). intros g2.
    rewrite still_trans by (eapply Reads_length; eassumption). apply Hk.
  - split; [|exact I]. intros g k Hk. cbn [Re.rx].
    pose proof (proj1 IH g k Hk) as H1.
    destruct (Re.rx r1 bos s g k); [discriminate|contradiction].
  - split; [|exact I]. intros g k Hk. cbn [Re.rx].
    destruct (Re.rx r1 bos s g k); [discriminate|]. exact (proj1 IH g k Hk).
  - assert (Hloop : forall n g k,
               (forall g', k (still bos s s) s g' <> None) ->
               Re.star_loop (Re.rx r) k n bos s g <> None).
    { intros n g k Hk. apply star_loop_stop. specialize (Hk g).
      now rewrite still_same in Hk. }
    split.
    + intros g k Hk. cbn [Re.rx]. now apply Hloop.
    + intros n g k _ Hk. now apply Hloop.
  - assert (Hloop : forall n g k,
               String.length s < n ->
               (forall g', k (still bos s s2) s2 g' <> None) ->
               Re.star_loop (Re.rx r) k n bos s g <> None).
    { intros n g k Hn Hk.
      pose proof (Reads_length _ _ _ _ R1) as L1.
      pose proof (Reads_length _ _ _ _ R2) as L2.
      destruct (Nat.eq_dec (String.length s1) (String.length s)) as [Heq|Hneq].
      - destruct (Reads_end _ _ _ _ R1) as (w & Hw). rewrite Hw in Heq.
        apply end_same_length in Heq. subst w. cbn [append] in Hw. subst s1.
        rewrite still_same in IH2. exact (proj2 IH2 n g k Hn Hk).
      - destruct n as [|n]; [lia|]. cbn [Re.star_loop].
        assert (Hbody : Re.rx r bos s g
                          (fun b' s' g' =>
                             if (String.length s' <? String.length s)%nat
                             then Re.star_loop (Re.rx r) k n b' s' g'
                             else k b' s' g') <> None).
        { apply (proj1 IH1). intros g1.
          replace (String.length s1 <? String.length s)%nat with true
            by (symmetry; apply Nat.ltb_lt; lia).
          apply (proj2 IH2); [lia|]. intros g2.
          rewrite still_trans by assumption. apply Hk. }
        destruct (Re.rx r bos s g _); [discriminate|contradiction]. }
    split.
    + intros g k Hk. cbn [Re.rx]. apply Hloop; [lia|assumption].
    + exact Hloop.
  - split; [|exact I]. intros g k Hk. cbn [Re.rx]. apply (proj1 IH). intros g'. apply Hk.
  - split; [|exact I]. intros g k Hk. cbn [Re.rx]. specialize (Hk g).
    now rewrite still_same in Hk.
  - split; [|exact I]. intros g k Hk. cbn [Re.rx]. rewrite He. specialize (Hk g).
    now rewrite still_same in Hk.
Qed.

(** [re.match(r, s)] finds a match whenever the pattern reads a word off the
    start of [s]. *)
Lemma match_complete (r : Re.regex) (s s' : string) :
  Reads r true s s' -> exists m, Re.match_ r s = Some m.
Proof.
  intros H. apply rx_complete in H. destruct H as [H _].
  specialize (H [] Re.accept (fun g' => ltac:(discriminate))).
  unfold Re.match_, Re.match_at.
  destruct (Re.rx r true s [] Re.accept) as [[rest g]|]; [|contradiction].
  eexists. reflexivity.
Qed.

(* ------------------------------------------------------------------ *)
(** ** The descending stable sort *)

Section SortingFacts.

Context {A : Type} (key : A -> N).

Lemma insert_desc_In (x y : A) (l : list A) :
  In y (insert_desc key x l) <-> y = x \/ In y l.
Proof.
  induction l as [|z l IH]; simpl.
  - intuition congruence.
  - destruct (key x <? key z)%N; simpl; rewrite ?IH; intuition congruence.
Qed.

Lemma sort_desc_In (y : A) (l : list A) : In y (sort_desc key l) <-> In y l.
Proof.
  induction l as [|x l IH]; simpl.
  - reflexivity.
  - rewrite insert_desc_In, IH. intuition congruence.
Qed.

Lemma sort_desc_nil (l : list A) : sort_desc key l = [] -> l = [].
Proof.
  destruct l as [|x l]; [reflexivity|].
  intros H. assert (Hin : In x (sort_desc key (x :: l))) by (apply sort_desc_In; now left).
  rewrite H in Hin. destruct Hin.
Qed.

(** The head of the sorted list stood in the input in front of every
    element with as large a key: nothing before it reaches its key,
    nothing after it exceeds it. *)
Lemma sort_desc_head (l : list A) (h : A) (t : list A) :
  sort_desc key l = h :: t ->
  exists l1 l2,
    l = l1 ++ h :: l2 /\
    (forall y, In y l1 -> (key y < key h)%N) /\
    (forall y, In y l2 -> (key y <= key h)%N).
Proof.
  revert h t. induction l as [|x l IH]; intros h t H; simpl in H.
  - discriminate.
  - destruct (sort_desc key l) as [|h' t'] eqn:E.
    + apply sort_desc_nil in E. subst l. simpl in H. injection H as <- <-.
      exists [], []. repeat split; intros y [].
    + simpl in H. destruct (IH h' t' eq_refl) as (l1 & l2 & -> & Hlt & Hle).
      destruct (key x <? key h')%N eqn:Ex.
      * injection H as <- <-. apply N.ltb_lt in Ex.
        exists (x :: l1), l2. split; [reflexivity|]. split; [|assumption].
        intros y [<-|Hy]; auto.
      * injection H as <- <-. apply N.ltb_ge in Ex.
        exists [], (l1 ++ h' :: l2). split; [reflexivity|]. split; [intros y []|].
        intros y Hy. apply in_app_or in Hy. destruct Hy as [Hy|[<-|Hy]].
        -- specialize (Hlt _ Hy). lia.
        -- assumption.
        -- specialize (Hle _ Hy). lia.
Qed.

Lemma sort_desc_head_max (l : list A) (h : A) (t : list A) :
  sort_desc key l = h :: t ->
  In h l /\ forall y, In y l -> (key y <= key h)%N.
Proof.
  intros H. destruct (sort_desc_head _ _ _ H) as (l1 & l2 & -> & Hlt & Hle). split.
  - apply in_or_app. right. now left.
  - intros y Hy. apply in_app_or in Hy. destruct Hy as [Hy|[<-|Hy]].
    + specialize (Hlt _ Hy). lia.
    + lia.
    + auto.
Qed.

End SortingFacts.

(* ------------------------------------------------------------------ *)
(** ** The resolver, step by step *)

Section ResolverFacts.

Context {FS : FileSystem}.

Lemma find_latest_unfold shot_name vfx_dir file_ext exclude_filename files :
  path_exists vfx_dir = Ok true ->
  path_glob vfx_dir (shot_name ++ "_*_?*_vfx" ++ file_ext) = Ok files ->
  _find_latest_version shot_name vfx_dir file_ext exclude_filename =
  Ok (option_map snd (hd_error (sort_desc fst (ranked file_ext exclude_filename files)))).
Proof.
  intros Hex Hglob. unfold _find_latest_version, ranked, latest_patterns.
  rewrite Hex. cbn [negb gather]. unfold glob_ext. rewrite Hglob.
  cbn [bind]. rewrite app_nil_r.
  destruct (filter _ files) as [|f fs] eqn:E; [reflexivity|].
  destruct (sort_desc fst (collect_versions exclude_filename (f :: fs))) as [|[v p] t];
    reflexivity.
Qed.

Lemma find_latest_raises shot_name vfx_dir file_ext exclude_filename e :
  path_exists vfx_dir = Ok true ->
  path_glob vfx_dir (shot_name ++ "_*_?*_vfx" ++ file_ext) = Raise e ->
  _find_latest_version shot_name vfx_dir file_ext exclude_filename = Raise e.
Proof.
  intros Hex Hglob. unfold _find_latest_version, latest_patterns.
  rewrite Hex. cbn [negb gather]. unfold glob_ext. rewrite Hglob. reflexivity.
Qed.

(** Membership in the ranking, spelled out. *)
Lemma collect_versions_In exclude_filename files v p :
  In (v, p) (collect_versions exclude_filename files) <->
  exists f m,
    In f files /\ excluded exclude_filename f = false /\
    Re.search version_re (stem f) = Some m /\
    v = Str.int (group_or_empty m 2) /\ p = str f.
Proof.
  induction files as [|f fs IH]; simpl.
  - split; [intros []|intros (f & m & [] & _)].
  - destruct (excluded exclude_filename f) eqn:Ex.
    + rewrite IH. split.
      * intros (f' & m & Hin & H). exists f', m. tauto.
      * intros (f' & m & [<-|Hin] & Hx & H); [congruence|]. exists f', m. tauto.
    + destruct (Re.search version_re (stem f)) as [m0|] eqn:Es; simpl; rewrite ?IH.
      * split.
        -- intros [H|(f' & m & Hin & H)].
           ++ injection H as <- <-. exists f, m0. tauto.
           ++ exists f', m. tauto.
        -- intros (f' & m & [<-|Hin] & Hx & Hs & -> & ->).
           ++ left. congruence.
           ++ right. exists f', m. tauto.
      * split.
        -- intros (f' & m & Hin & H). exists f', m. tauto.
        -- intros (f' & m & [<-|Hin] & Hx & Hs & H); [congruence|].
           exists f', m. tauto.
Qed.

Lemma ranked_In file_ext exclude_filename files v p :
  In (v, p) (ranked file_ext exclude_filename files) <->
  exists f m,
    In f files /\ suffix f = file_ext /\ excluded exclude_filename f = false /\
    Re.search version_re (stem f) = Some m /\
    v = Str.int (group_or_empty m 2) /\ p = str f.
Proof.
  unfold ranked. rewrite collect_versions_In. split.
  - intros (f & m & Hin & H). apply filter_In in Hin. destruct Hin as [Hin Hs].
    apply String.eqb_eq in Hs. exists f, m. tauto.
  - intros (f & m & Hin & Hs & H). exists f, m. split; [|tauto].
    apply filter_In. split; [assumption|]. now apply String.eqb_eq.
Qed.

(** Every ranked candidate carries the token [_<letter><digits>_vfx] at the
    end of its stem, and is ranked by the value of those digits. *)
Lemma ranked_token file_ext exclude_filename files v p :
  In (v, p) (ranked file_ext exclude_filename files) ->
  exists f pre c ds rest,
    In f files /\ suffix f = file_ext /\ excluded exclude_filename f = false /\
    p = str f /\
    stem f = (pre ++ String "_" (String c (ds ++ "_vfx" ++ rest)))%string /\
    Str.is_lower c = true /\ all_digits ds = true /\ ds <> EmptyString /\
    Re.at_eol rest = true /\ v = Str.int ds.
Proof.
  intros H. apply ranked_In in H. destruct H as (f & m & Hf & Hs & Hx & Hm & -> & ->).
  apply version_re_search_sound in Hm.
  destruct Hm as (pre & c & ds & Hst & Hc & Hd & Hne & He & _ & ->).
  exists f, pre, c, ds, (Re.m_rest m). repeat split; assumption.
Qed.

Lemma find_version_zero_unfold shot_name vfx_dir file_ext :
  path_exists vfx_dir = Ok true ->
  _find_version_zero shot_name vfx_dir file_ext =
  first_match vfx_dir file_ext
    (version_zero_patterns (_shot_base shot_name) file_ext).
Proof. intros Hex. unfold _find_version_zero. now rewrite Hex. Qed.

End ResolverFacts.

(* ------------------------------------------------------------------ *)
(** ** Entries of a well-formed disk *)

Lemma string_app_nil_r (s : string) : (s ++ EmptyString)%string = s.
Proof. induction s as [|c s IH]; cbn; [reflexivity|now f_equal]. Qed.

Lemma string_app_cons_assoc (a : string) (c : ascii) (b : string) :
  ((a ++ String c EmptyString) ++ b)%string = (a ++ String c b)%string.
Proof. induction a as [|x a IH]; cbn; [reflexivity|now f_equal]. Qed.

Lemma split_sep_no_sep (n : string) :
  forall cur, Disk.no_sep n = true -> split_sep cur n = [(cur ++ n)%string].
Proof.
  induction n as [|c n IH]; intros cur H; cbn [split_sep].
  - now rewrite string_app_nil_r.
  - cbn [Disk.no_sep] in H. apply andb_true_iff in H. destruct H as [Hc Hn].
    apply negb_true_iff in Hc. rewrite Hc, (IH _ Hn). now rewrite string_app_cons_assoc.
Qed.

Lemma is_absolute_eqb (c : ascii) (s : string) :
  is_absolute (String c s) = Ascii.eqb c "/".
Proof. destruct c as [[] [] [] [] [] [] [] []]; reflexivity. Qed.

Lemma splitroot_relative (s : string) :
  is_absolute s = false -> splitroot s = EmptyString.
Proof. unfold splitroot. now intros ->. Qed.

Lemma of_string_entry (n : string) :
  Disk.entry_name n = true -> of_string n = mkPath EmptyString [n].
Proof.
  unfold Disk.entry_name. intros H.
  apply andb_true_iff in H. destruct H as [H Hsep].
  apply andb_true_iff in H. destruct H as [H _].
  apply andb_true_iff in H. destruct H as [Hne Hdot].
  unfold of_string. rewrite (split_sep_no_sep n EmptyString Hsep). cbn [append filter].
  assert (Hk : keep_part n = true).
  { unfold keep_part. rewrite Hdot. destruct n; [discriminate|reflexivity]. }
  rewrite Hk. f_equal. apply splitroot_relative. destruct n as [|c n]; [reflexivity|].
  rewrite is_absolute_eqb. cbn [Disk.no_sep] in Hsep.
  apply andb_true_iff in Hsep. destruct Hsep as [Hc _]. now apply negb_true_iff in Hc.
Qed.

(** The child of a directory is called by its entry name. *)
Lemma name_div (p : Path) (n : string) :
  Disk.entry_name n = true -> name (div p n) = n.
Proof.
  intros H. unfold div. rewrite (of_string_entry n H). cbn [p_root p_parts Str.truthy].
  unfold name. cbn [p_parts]. apply last_last.
Qed.

Lemma listdir_well_formed (d : Disk.disk) (p : Path) (names : list string) :
  Disk.well_formed d -> Disk.listdir d p = Some names ->
  Forall (fun n => Disk.entry_name n = true) names.
Proof.
  induction 1 as [|[q l] d Hq _ IH]; cbn [Disk.listdir].
  - discriminate.
  - destruct (Disk.same_place p q); [|exact IH]. intros E. injection E as <-. exact Hq.
Qed.

Lemma entries_well_formed (d : Disk.disk) (p : Path) :
  Disk.well_formed d -> Forall (fun n => Disk.entry_name n = true) (Disk.entries d p).
Proof.
  intros Hwf. unfold Disk.entries.
  destruct (Disk.listdir d _) as [names|] eqn:E; [|constructor].
  exact (listdir_well_formed _ _ _ Hwf E).
Qed.

(** A pattern that does not start at the root gets as far as its
    components. *)
Lemma glob_relative (d : Disk.disk) (p : Path) (c : ascii) (rest : string) :
  Ascii.eqb c "/" = false ->
  Disk.glob d p (String c rest) =
  match Disk.pattern_parts (String c rest) with
  | [] => Raise IndexError
  | first :: _ =>
      if String.eqb first EmptyString then Raise AttributeError
      else if existsb (fun c => Disk.has_double_star c && negb (String.eqb c "**"))
                      (Disk.pattern_parts (String c rest))
      then Raise ValueError
      else
        k <- Disk.stat d p ;;
        match k with
        | Some Disk.KDir => Disk.select d p (Disk.pattern_parts (String c rest))
        | _ => Ok []
        end
  end.
Proof.
  intros E. unfold Disk.glob.
  destruct c as [[] [] [] [] [] [] [] []]; first [discriminate E | reflexivity].
Qed.

Lemma wildcard_kept (pat : string) :
  Disk.is_wildcard_pattern pat = true -> keep_part pat = true.
Proof.
  intros H. unfold keep_part.
  destruct (String.eqb_spec pat EmptyString) as [->|_]; [discriminate H|].
  destruct (String.eqb_spec pat ".") as [->|_]; [discriminate H|reflexivity].
Qed.

Lemma no_sep_ends (pat : string) :
  Disk.no_sep pat = true -> Disk.ends_with_sep pat = false.
Proof.
  induction pat as [|c pat IH]; [reflexivity|]. cbn [Disk.no_sep Disk.ends_with_sep].
  intros H. apply andb_true_iff in H. destruct H as [Hc Hp].
  apply negb_true_iff in Hc. destruct pat; [exact Hc|exact (IH Hp)].
Qed.

Lemma pattern_parts_single (pat : string) :
  Disk.no_sep pat = true -> keep_part pat = true -> Disk.pattern_parts pat = [pat].
Proof.
  intros Hs Hk. unfold Disk.pattern_parts.
  rewrite (split_sep_no_sep pat EmptyString Hs), (no_sep_ends pat Hs).
  cbn [append filter]. now rewrite Hk.
Qed.

(** A pattern of one component with a wildcard: rejected when it holds
    [**], and otherwise answered with the matching regular files of the
    directory. *)
Lemma disk_glob_wildcard (d : Disk.disk) (p : Path) (pat : string) :
  Disk.no_sep pat = true -> Disk.is_wildcard_pattern pat = true -> pat <> "**" ->
  Disk.glob d p pat =
  if Disk.has_double_star pat then Raise ValueError
  else
    k <- Disk.stat d p ;;
    match k with
    | Some Disk.KDir =>
        Ok (map (div p) (filter (fun n => Fnmatch.fnmatchcase n pat) (Disk.entries d p)))
    | _ => Ok []
    end.
Proof.
  intros Hs Hw Hne. pose proof (wildcard_kept pat Hw) as Hk.
  destruct pat as [|c rest]; [discriminate Hw|].
  assert (Hc : Ascii.eqb c "/" = false).
  { cbn [Disk.no_sep] in Hs. apply andb_true_iff in Hs. destruct Hs as [Hc _].
    now apply negb_true_iff in Hc. }
  rewrite (glob_relative d p c rest Hc), (pattern_parts_single _ Hs Hk).
  cbn [existsb]. rewrite orb_false_r.
  replace (String.eqb (String c rest) EmptyString) with false by reflexivity.
  destruct (String.eqb_spec (String c rest) "**") as [E|_]; [congruence|].
  cbn [negb]. rewrite andb_true_r.
  destruct (Disk.has_double_star (String c rest)); [reflexivity|].
  destruct (Disk.stat d p) as [[[]|]|]; cbn [bind]; try reflexivity.
  cbn [Disk.select]. replace (String.eqb (String c rest) EmptyString) with false
    by reflexivity.
  destruct (String.eqb_spec (String c rest) "**") as [E|_]; [congruence|].
  now rewrite Hw.
Qed.

(** On a well-formed disk every result of such a pattern is a named entry
    of the directory whose name matches the pattern. *)
Lemma disk_glob_entries (d : Disk.disk) (p : Path) (pat : string) (files : list Path) :
  Disk.well_formed d ->
  Disk.no_sep pat = true -> Disk.is_wildcard_pattern pat = true -> pat <> "**" ->
  @path_glob (DiskFS d) p pat = Ok files ->
  Forall (fun f => exists n,
            f = div p n /\ name f = n /\ n <> EmptyString /\
            Fnmatch.fnmatchcase n pat = true) files.
Proof.
  intros Hwf Hs Hw Hne H. cbn [path_glob DiskFS] in H.
  rewrite (disk_glob_wildcard d p pat Hs Hw Hne) in H.
  destruct (Disk.has_double_star pat); [discriminate|].
  destruct (Disk.stat d p) as [[[]|]|]; cbn [bind] in H; try discriminate;
    injection H as <-; try constructor.
  pose proof (entries_well_formed d p Hwf) as Hn.
  rewrite Forall_forall in *. intros f Hf. apply in_map_iff in Hf.
  destruct Hf as (n & <- & Hin). apply filter_In in Hin. destruct Hin as [Hin Hm].
  specialize (Hn n Hin). exists n. repeat split; try assumption.
  - now apply name_div.
  - intros ->. discriminate.
Qed.

Lemma disk_glob_named (d : Disk.disk) (p : Path) (pat : string) (files : list Path) :
  Disk.well_formed d ->
  Disk.no_sep pat = true -> Disk.is_wildcard_pattern pat = true -> pat <> "**" ->
  @path_glob (DiskFS d) p pat = Ok files ->
  Forall (fun f => name f <> EmptyString) files.
Proof.
  intros Hwf Hs Hw Hne H.
  pose proof (disk_glob_entries d p pat files Hwf Hs Hw Hne H) as Hall.
  rewrite Forall_forall in *. intros f Hf.
  destruct (Hall f Hf) as (n & _ & Hn & Hnn & _). now rewrite Hn.
Qed.

(* ------------------------------------------------------------------ *)
(** ** Enumeration orders of a small directory *)

Lemma perm3_cases {A : Type} (a b c : A) (l : list A) :
  Permutation [a; b; c] l ->
  l = [a; b; c] \/ l = [a; c; b] \/ l = [b; a; c] \/
  l = [b; c; a] \/ l = [c; a; b] \/ l = [c; b; a].
Proof.
  intros H.
  assert (Hin : In a l) by (eapply Permutation_in; [exact H|now left]).
  apply in_split in Hin. destruct Hin as (l1 & l2 & ->).
  apply Permutation_cons_app_inv in H.
  apply Permutation_length_2_inv in H.
  destruct l1 as [|x [|y [|z l1]]]; simpl in *; destruct H as [H|H];
    inversion H; subst; simpl; tauto.
Qed.

Lemma filter_nonempty {A : Type} (f : A -> bool) (x : A) (l : list A) :
  In x l -> f x = true -> filter f l <> [].
Proof.
  intros Hin Hf E. assert (H : In x (filter f l)) by (apply filter_In; auto).
  rewrite E in H. destruct H.
Qed.

(* ------------------------------------------------------------------ *)
(** ** Lookups against a missing directory *)

(** C6, as the code has it.  When the existence check answers that the
    directory is not there, [_find_version_zero] and [_find_latest_version]
    both return [None], for every shot identity, extension and exclude
    filename, and before any [glob]: the result is [Ok None] also on a disk
    whose [glob] would raise.  When the check itself raises, both raise
    what it raised. *)
Theorem missing_directory_is_absent {FS : FileSystem}
  (shot_name : string) (vfx_dir : Path) (file_ext : string)
  (exclude_filename : option string) :
  (path_exists vfx_dir = Ok false ->
   _find_version_zero shot_name vfx_dir file_ext = Ok None /\
   _find_latest_version shot_name vfx_dir file_ext exclude_filename = Ok None) /\
  (forall e,
      path_exists vfx_dir = Raise e ->
      _find_version_zero shot_name vfx_dir file_ext = Raise e /\
      _find_latest_version shot_name vfx_dir file_ext exclude_filename = Raise e).
Proof.
  unfold _find_version_zero, _find_latest_version. split.
  - intros Hex. rewrite Hex. split; reflexivity.
  - intros e Hex. rewrite Hex. split; reflexivity.
Qed.

Lemma missing_directory_is_absent_witness :
  @_find_version_zero RefusingFS "SEQ_1140a" Example.vfx_dir ".mov" = Ok None /\
  @_find_latest_version RefusingFS "SEQ_1140a" Example.vfx_dir ".mov"
    (Some Example.w0012) = Ok None.
Proof.
  apply (proj1 (@missing_directory_is_absent RefusingFS "SEQ_1140a" Example.vfx_dir
                  ".mov" (Some Example.w0012))).
  reflexivity.
Defined.

(** C6, as stated: for a shot identity with a shot number of 300 digits the
    derived directory is not on the disk, and yet neither lookup returns
    [None]: the operating system refuses the name, [exists] raises
    [OSError], and so do both lookups. *)
Lemma overlong_identity_raises :
  shot_identity Example.long_shot /\
  (let vfx_dir := _build_vfx_path Example.long_shot "/shows" "_vfx" in
   Disk.is_dir [(Example.vfx_dir, Example.renders)] vfx_dir = false /\
   Disk.is_file [(Example.vfx_dir, Example.renders)] vfx_dir = false /\
   @_find_version_zero (Example.dir_with Example.renders) Example.long_shot vfx_dir ".mov"
   = Raise OSError /\
   @_find_latest_version (Example.dir_with Example.renders) Example.long_shot vfx_dir
      ".mov" None
   = Raise OSError).
Proof.
  split.
  - exists "SEQ", (Example.nines 300), EmptyString.
    split; [reflexivity|]. split; [vm_compute; reflexivity|].
    split; [discriminate|now left].
  - vm_compute. repeat split; reflexivity.
Qed.

(* ------------------------------------------------------------------ *)
(** ** Version zero: the order of the two shapes *)

(** C9. With [matches] the glob results of the extra-middle-segment shape
    that carry the exact suffix: when [matches] is not empty its first
    element is returned, whatever [glob] would do on the vendor-only shape
    (any other disk that agrees on the first shape gives the same result);
    when it is empty the result is the first match of the vendor-only
    shape, or [None]. *)
Theorem version_zero_shape_priority {FS : FileSystem}
  (shot_name : string) (vfx_dir : Path) (file_ext : string) (matches : list Path) :
  path_exists vfx_dir = Ok true ->
  glob_ext vfx_dir file_ext (_shot_base shot_name ++ "_*_?0000_vfx" ++ file_ext)
    = Ok matches ->
  (forall f rest, matches = f :: rest ->
     _find_version_zero shot_name vfx_dir file_ext = Ok (Some (str f)) /\
     forall FS' : FileSystem,
       @path_exists FS' vfx_dir = Ok true ->
       @glob_ext FS' vfx_dir file_ext
          (_shot_base shot_name ++ "_*_?0000_vfx" ++ file_ext) = Ok matches ->
       @_find_version_zero FS' shot_name vfx_dir file_ext = Ok (Some (str f))) /\
  (matches = [] ->
     _find_version_zero shot_name vfx_dir file_ext =
     (second <- glob_ext vfx_dir file_ext
                  (_shot_base shot_name ++ "_?0000_vfx" ++ file_ext) ;;
      Ok (option_map str (hd_error second)))).
Proof.
  intros Hex Hglob. split.
  - intros f rest ->. split.
    + rewrite find_version_zero_unfold by assumption.
      unfold version_zero_patterns. cbn [first_match]. rewrite Hglob. reflexivity.
    + intros FS' Hex' Hglob'. rewrite find_version_zero_unfold by assumption.
      unfold version_zero_patterns. cbn [first_match]. rewrite Hglob'. reflexivity.
  - intros ->. rewrite find_version_zero_unfold by assumption.
    unfold version_zero_patterns. cbn [first_match]. rewrite Hglob. cbn [bind].
    destruct (glob_ext vfx_dir file_ext
                (_shot_base shot_name ++ "_?0000_vfx" ++ file_ext)) as [[|g gs]|e];
      reflexivity.
Qed.

Lemma version_zero_shape_priority_witness :
  @_find_version_zero (Example.dir_with [Example.bare_w0000; Example.base_u0000])
    "SEQ_1140a" Example.vfx_dir ".mov"
  = Ok (Some "/shows/SEQ/SEQ_1140/_vfx/SEQ_1140_comp_u0000_vfx.mov").
Proof.
  refine (proj1 (proj1
    (@version_zero_shape_priority
       (Example.dir_with [Example.bare_w0000; Example.base_u0000])
       "SEQ_1140a" Example.vfx_dir ".mov"
       [div Example.vfx_dir Example.base_u0000] _ _) _ _ eq_refl));
    vm_compute; reflexivity.
Defined.

(* ------------------------------------------------------------------ *)
(** ** Latest version: ranking by number *)

(** C1. Among the candidates that reach the ranking (glob matches with the
    exact suffix, not excluded, with a strict vendor-letter-and-digits
    token) [_find_latest_version] returns a path whose digit group has the
    highest numeric value, the vendor letter playing no part; with no such
    candidate it returns [None].  Each ranked candidate has a stem that
    ends in [_<letter><digits>_vfx] and is ranked by the value of those
    digits.  In a directory holding the [u0003], [w0012] and [i0007]
    renders of [SEQ_1140a], enumerated in any order, the result is the
    [w0012] path. *)
Theorem latest_is_highest_number :
  (forall (FS : FileSystem) (shot_name : string) (vfx_dir : Path) (file_ext : string)
          (exclude_filename : option string) (files : list Path),
      path_exists vfx_dir = Ok true ->
      path_glob vfx_dir (shot_name ++ "_*_?*_vfx" ++ file_ext) = Ok files ->
      (ranked file_ext exclude_filename files = [] ->
       _find_latest_version shot_name vfx_dir file_ext exclude_filename = Ok None) /\
      (ranked file_ext exclude_filename files <> [] ->
       exists v p,
         _find_latest_version shot_name vfx_dir file_ext exclude_filename = Ok (Some p) /\
         In (v, p) (ranked file_ext exclude_filename files) /\
         forall v' p', In (v', p') (ranked file_ext exclude_filename files) ->
                       (v' <= v)%N) /\
      (forall v p,
          In (v, p) (ranked file_ext exclude_filename files) ->
          exists f pre c ds rest,
            In f files /\ suffix f = file_ext /\
            excluded exclude_filename f = false /\ p = str f /\
            stem f = (pre ++ String "_" (String c (ds ++ "_vfx" ++ rest)))%string /\
            Str.is_lower c = true /\ all_digits ds = true /\ ds <> EmptyString /\
            Re.at_eol rest = true /\ v = Str.int ds)) /\
  (forall names : list string,
      Permutation [Example.u0003; Example.w0012; Example.i0007] names ->
      @_find_latest_version (Example.dir_with names) "SEQ_1140a" Example.vfx_dir
         ".mov" None
      = Ok (Some (str (div Example.vfx_dir Example.w0012)))).
Proof.
  split.
  - intros FS shot_name vfx_dir file_ext exclude_filename files Hex Hglob.
    rewrite (find_latest_unfold _ _ _ _ _ Hex Hglob). split; [|split].
    + intros ->. reflexivity.
    + intros Hne.
      destruct (sort_desc fst (ranked file_ext exclude_filename files)) as [|[v p] t] eqn:E.
      * apply sort_desc_nil in E. contradiction.
      * destruct (sort_desc_head_max _ _ _ _ E) as [Hin Hmax].
        exists v, p. split; [reflexivity|]. split; [assumption|].
        intros v' p' H'. exact (Hmax _ H').
    + intros v p H. exact (ranked_token _ _ _ _ _ H).
  - intros names H. apply perm3_cases in H.
    destruct H as [->|[->|[->|[->|[->| ->]]]]]; vm_compute; reflexivity.
Qed.

Lemma latest_is_highest_number_witness :
  exists v p,
    @_find_latest_version
       (Example.dir_with [Example.u0003; Example.w0012; Example.i0007])
       "SEQ_1140a" Example.vfx_dir ".mov" None = Ok (Some p) /\
    In (v, p)
       (ranked ".mov" None
          (map (div Example.vfx_dir) [Example.u0003; Example.w0012; Example.i0007])) /\
    forall v' p',
      In (v', p')
         (ranked ".mov" None
            (map (div Example.vfx_dir) [Example.u0003; Example.w0012; Example.i0007])) ->
      (v' <= v)%N.
Proof.
  refine (proj1 (proj2 (proj1 latest_is_highest_number
    (Example.dir_with [Example.u0003; Example.w0012; Example.i0007])
    "SEQ_1140a" Example.vfx_dir ".mov" None
    (map (div Example.vfx_dir) [Example.u0003; Example.w0012; Example.i0007])
    _ _)) _).
  - vm_compute; reflexivity.
  - vm_compute; reflexivity.
  - vm_compute. discriminate.
Defined.

(* ------------------------------------------------------------------ *)
(** ** Latest version: the excluded filename *)

Lemma excluded_false_iff (e : string) (f : Path) :
  name f <> EmptyString ->
  (excluded (Some e) f = false <-> name f <> e).
Proof.
  intros Hname. unfold excluded. destruct e as [|c e]; simpl.
  - split; [intros _ H; now apply Hname|reflexivity].
  - rewrite String.eqb_neq. reflexivity.
Qed.

(** C2. A path returned by [_find_latest_version] never has the excluded
    filename as its name: it is a glob match with the exact suffix and a
    strict version token whose name differs from [exclude_filename], and
    its number is the highest among the candidates whose name differs from
    [exclude_filename].  (Glob yields named entries.)  In the directory of
    the three [SEQ_1140a] renders, enumerated in any order, excluding the
    [w0012] file gives the [i0007] path. *)
Theorem latest_skips_excluded :
  (forall (FS : FileSystem) (shot_name : string) (vfx_dir : Path) (file_ext : string)
          (exclude_filename : string) (files : list Path) (p : string),
      path_glob vfx_dir (shot_name ++ "_*_?*_vfx" ++ file_ext) = Ok files ->
      Forall (fun f => name f <> EmptyString) files ->
      _find_latest_version shot_name vfx_dir file_ext (Some exclude_filename)
        = Ok (Some p) ->
      exists f m,
        In f files /\ suffix f = file_ext /\ name f <> exclude_filename /\
        Re.search version_re (stem f) = Some m /\ p = str f /\
        forall f' m',
          In f' files -> suffix f' = file_ext -> name f' <> exclude_filename ->
          Re.search version_re (stem f') = Some m' ->
          (Str.int (group_or_empty m' 2) <= Str.int (group_or_empty m 2))%N) /\
  (forall names : list string,
      Permutation [Example.u0003; Example.w0012; Example.i0007] names ->
      @_find_latest_version (Example.dir_with names) "SEQ_1140a" Example.vfx_dir
         ".mov" (Some Example.w0012)
      = Ok (Some (str (div Example.vfx_dir Example.i0007)))).
Proof.
  split.
  - intros FS shot_name vfx_dir file_ext e files p Hglob Hnamed Hres.
    rewrite Forall_forall in Hnamed.
    destruct (path_exists vfx_dir) as [[|]|x] eqn:Hex.
    + rewrite (find_latest_unfold _ _ _ _ _ Hex Hglob) in Hres.
      destruct (sort_desc fst (ranked file_ext (Some e) files)) as [|[v q] t] eqn:E;
        [discriminate|].
      injection Hres as ->.
      destruct (sort_desc_head_max _ _ _ _ E) as [Hin Hmax].
      apply ranked_In in Hin. destruct Hin as (f & m & Hf & Hs & Hx & Hm & -> & ->).
      exists f, m. repeat split; try assumption.
      * apply excluded_false_iff; auto.
      * intros f' m' Hf' Hs' Hn' Hm'.
        apply (Hmax (Str.int (group_or_empty m' 2), str f')).
        apply ranked_In. exists f', m'. repeat split; try assumption.
        apply excluded_false_iff; auto.
    + unfold _find_latest_version in Hres. rewrite Hex in Hres. discriminate.
    + unfold _find_latest_version in Hres. rewrite Hex in Hres. discriminate.
  - intros names H. apply perm3_cases in H.
    destruct H as [->|[->|[->|[->|[->| ->]]]]]; vm_compute; reflexivity.
Qed.

Lemma latest_skips_excluded_witness :
  exists f m,
    In f (map (div Example.vfx_dir) [Example.u0003; Example.w0012; Example.i0007]) /\
    suffix f = ".mov" /\ name f <> Example.w0012 /\
    Re.search version_re (stem f) = Some m /\
    "/shows/SEQ/SEQ_1140/_vfx/SEQ_1140a_comp_i0007_vfx.mov" = str f /\
    forall f' m',
      In f' (map (div Example.vfx_dir) [Example.u0003; Example.w0012; Example.i0007]) ->
      suffix f' = ".mov" -> name f' <> Example.w0012 ->
      Re.search version_re (stem f') = Some m' ->
      (Str.int (group_or_empty m' 2) <= Str.int (group_or_empty m 2))%N.
Proof.
  refine (proj1 latest_skips_excluded
    (Example.dir_with [Example.u0003; Example.w0012; Example.i0007])
    "SEQ_1140a" Example.vfx_dir ".mov" Example.w0012
    (map (div Example.vfx_dir) [Example.u0003; Example.w0012; Example.i0007])
    "/shows/SEQ/SEQ_1140/_vfx/SEQ_1140a_comp_i0007_vfx.mov" _ _ _).
  - vm_compute; reflexivity.
  - repeat constructor; vm_compute; discriminate.
  - vm_compute; reflexivity.
Defined.

(* ------------------------------------------------------------------ *)
(** ** Latest version: version zero takes part *)

(** C10. A candidate whose digit group is [0000] enters the ranking with
    number 0 like any other; when it is the only candidate that reaches the
    ranking it is the result.  A directory holding only
    [SEQ_1140a_comp_u0000_vfx.mov] gives that file as the latest version of
    [SEQ_1140a], with no exclusion and with another filename excluded. *)
Theorem version_zero_is_ranked :
  (forall (FS : FileSystem) (shot_name : string) (vfx_dir : Path) (file_ext : string)
          (exclude_filename : option string) (files : list Path)
          (f : Path) (m : Re.match_obj),
      path_exists vfx_dir = Ok true ->
      path_glob vfx_dir (shot_name ++ "_*_?*_vfx" ++ file_ext) = Ok files ->
      In f files -> suffix f = file_ext -> excluded exclude_filename f = false ->
      Re.search version_re (stem f) = Some m -> group_or_empty m 2 = "0000" ->
      In (0%N, str f) (ranked file_ext exclude_filename files) /\
      ((forall f', In f' files -> suffix f' = file_ext ->
                   excluded exclude_filename f' = false ->
                   Re.search version_re (stem f') <> None -> f' = f) ->
       _find_latest_version shot_name vfx_dir file_ext exclude_filename
         = Ok (Some (str f)))) /\
  @_find_latest_version (Example.dir_with [Example.a_u0000]) "SEQ_1140a"
     Example.vfx_dir ".mov" None
    = Ok (Some (str (div Example.vfx_dir Example.a_u0000))) /\
  @_find_latest_version (Example.dir_with [Example.a_u0000]) "SEQ_1140a"
     Example.vfx_dir ".mov" (Some Example.w0012)
    = Ok (Some (str (div Example.vfx_dir Example.a_u0000))).
Proof.
  split; [|split; vm_compute; reflexivity].
  intros FS shot_name vfx_dir file_ext excl files f m Hex Hglob Hf Hs Hx Hm Hg.
  assert (Hin : In (0%N, str f) (ranked file_ext excl files)).
  { apply ranked_In. exists f, m. rewrite Hg. repeat split; assumption. }
  split; [assumption|]. intros Honly.
  rewrite (find_latest_unfold _ _ _ _ _ Hex Hglob).
  destruct (sort_desc fst (ranked file_ext excl files)) as [|[v q] t] eqn:E.
  - apply sort_desc_nil in E. rewrite E in Hin. destruct Hin.
  - destruct (sort_desc_head_max _ _ _ _ E) as [Hq _].
    apply ranked_In in Hq. destruct Hq as (f' & m' & Hf' & Hs' & Hx' & Hm' & _ & ->).
    rewrite (Honly f' Hf' Hs' Hx'); [reflexivity|]. rewrite Hm'. discriminate.
Qed.

Lemma version_zero_is_ranked_witness :
  In (0%N, str (div Example.vfx_dir Example.a_u0000))
     (ranked ".mov" None [div Example.vfx_dir Example.a_u0000]).
Proof.
  refine (proj1 (proj1 version_zero_is_ranked
    (Example.dir_with [Example.a_u0000]) "SEQ_1140a" Example.vfx_dir ".mov" None
    [div Example.vfx_dir Example.a_u0000] (div Example.vfx_dir Example.a_u0000)
    (Re.mkMatch 2 [(2, "0000"); (1, "u")] EmptyString) _ _ _ _ _ _ _)).
  - vm_compute; reflexivity.
  - vm_compute; reflexivity.
  - now left.
  - vm_compute; reflexivity.
  - reflexivity.
  - vm_compute; reflexivity.
  - reflexivity.
Defined.

(* ------------------------------------------------------------------ *)
(** ** Version zero: the search uses the shot base *)

(** C3. [_find_version_zero] reads the shot identity only through its shot
    base: two identities with the same base give the same result on every
    disk.  For [SEQ_1140a] the base is [SEQ_1140]; in a directory that
    holds [SEQ_1140_comp_u0000_vfx.mov] the result is never [None], and
    when the directory holds exactly that file and
    [SEQ_1140_comp_w0000_vfx.mov], in either order, the result is one of
    the two.  A version-zero file named after the exact identity
    ([SEQ_1140a_comp_u0000_vfx.mov]) is not found. *)
Theorem version_zero_uses_shot_base :
  (forall (FS : FileSystem) (shot1 shot2 : string) (vfx_dir : Path) (file_ext : string),
      _shot_base shot1 = _shot_base shot2 ->
      _find_version_zero shot1 vfx_dir file_ext =
      _find_version_zero shot2 vfx_dir file_ext) /\
  _shot_base "SEQ_1140a" = "SEQ_1140" /\
  (forall names : list string,
      In Example.base_u0000 names ->
      exists p,
        @_find_version_zero (Example.dir_with names) "SEQ_1140a" Example.vfx_dir ".mov"
        = Ok (Some p)) /\
  (forall names : list string,
      Permutation [Example.base_u0000; Example.base_w0000] names ->
      @_find_version_zero (Example.dir_with names) "SEQ_1140a" Example.vfx_dir ".mov"
        = Ok (Some (str (div Example.vfx_dir Example.base_u0000))) \/
      @_find_version_zero (Example.dir_with names) "SEQ_1140a" Example.vfx_dir ".mov"
        = Ok (Some (str (div Example.vfx_dir Example.base_w0000)))) /\
  @_find_version_zero (Example.dir_with [Example.a_u0000]) "SEQ_1140a"
     Example.vfx_dir ".mov" = Ok None.
Proof.
  split; [|split; [|split; [|split; [|vm_compute; reflexivity]]]].
  - intros FS shot1 shot2 vfx_dir file_ext H. unfold _find_version_zero.
    now rewrite H.
  - vm_compute; reflexivity.
  - intros names Hin.
    assert (Hex : @path_exists (Example.dir_with names) Example.vfx_dir = Ok true)
      by (vm_compute; reflexivity).
    rewrite (@find_version_zero_unfold (Example.dir_with names) _ _ _ Hex).
    change (_shot_base "SEQ_1140a") with "SEQ_1140".
    unfold version_zero_patterns. cbn [first_match append].
    unfold glob_ext at 1. cbn [path_glob Example.dir_with DiskFS].
    rewrite (disk_glob_wildcard _ _ "SEQ_1140_*_?0000_vfx.mov" eq_refl eq_refl
               ltac:(discriminate)).
    change (Disk.has_double_star "SEQ_1140_*_?0000_vfx.mov") with false. cbv iota.
    replace (Disk.stat [(Example.vfx_dir, names)] Example.vfx_dir)
      with (@Ok (option Disk.kind) (Some Disk.KDir)) by (vm_compute; reflexivity).
    replace (Disk.entries [(Example.vfx_dir, names)] Example.vfx_dir)
      with names by (vm_compute; reflexivity).
    cbn [bind].
    set (pat := "SEQ_1140_*_?0000_vfx.mov").
    destruct (filter _ (map _ (filter (fun n => Fnmatch.fnmatchcase n pat) names)))
      as [|f fs] eqn:E.
    + exfalso. revert E.
      apply (filter_nonempty _ (div Example.vfx_dir Example.base_u0000)).
      * apply in_map. apply filter_In. split; [assumption|]. vm_compute; reflexivity.
      * vm_compute; reflexivity.
    + eexists. reflexivity.
  - intros names H. apply Permutation_length_2_inv in H.
    destruct H as [->| ->]; [left|right]; vm_compute; reflexivity.
Qed.

Lemma version_zero_uses_shot_base_witness :
  @_find_version_zero (Example.dir_with [Example.base_w0000; Example.base_u0000])
     "SEQ_1140a" Example.vfx_dir ".mov" =
  @_find_version_zero (Example.dir_with [Example.base_w0000; Example.base_u0000])
     "SEQ_1140b" Example.vfx_dir ".mov".
Proof.
  apply (proj1 version_zero_uses_shot_base). vm_compute; reflexivity.
Defined.

(* ------------------------------------------------------------------ *)
(** ** The shot base *)

Section ShotBase.

Lemma shot_base_match_cons (bos : bool) (c : ascii) (rest : string) :
  Re.match_at shot_base_re bos (String c rest) =
  if Str.is_lower c && Re.at_eol rest
  then Some (Re.mkMatch 0 [] rest) else None.
Proof.
  unfold Re.match_at, shot_base_re, Re.lower. cbn [Re.rx].
  rewrite lower_class. destruct (Str.is_lower c); [|reflexivity].
  destruct (Re.at_eol rest); reflexivity.
Qed.

Lemma shot_base_sub_cons (bos : bool) (c : ascii) (rest : string) :
  Re.sub_from shot_base_re EmptyString 0 bos (String c rest) =
  if Str.is_lower c && Re.at_eol rest
  then Re.sub_from shot_base_re EmptyString 0 false rest
  else String c (Re.sub_from shot_base_re EmptyString 0 false rest).
Proof.
  cbn [Re.sub_from]. rewrite shot_base_match_cons.
  destruct (Str.is_lower c && Re.at_eol rest); [|reflexivity].
  cbn [Re.m_rest append].
  replace (String.length (String c rest) - String.length rest) with 1
    by (cbn [String.length]; lia).
  reflexivity.
Qed.

Lemma shot_base_sub_length (bos : bool) (s : string) :
  String.length (Re.sub_from shot_base_re EmptyString 0 bos s) <= String.length s.
Proof.
  revert bos. induction s as [|c rest IH]; intros bos.
  - cbn. lia.
  - rewrite shot_base_sub_cons. specialize (IH false).
    destruct (Str.is_lower c && Re.at_eol rest); cbn [String.length]; lia.
Qed.

Lemma shot_base_fixed (bos : bool) (s : string) :
  ends_in_letter s = false ->
  Re.sub_from shot_base_re EmptyString 0 bos s = s.
Proof.
  revert bos. induction s as [|c rest IH]; intros bos H.
  - reflexivity.
  - cbn [ends_in_letter] in H. apply orb_false_iff in H. destruct H as [H1 H2].
    rewrite shot_base_sub_cons, H1. now rewrite IH.
Qed.

Lemma shot_base_shrinks (bos : bool) (s : string) :
  ends_in_letter s = true ->
  String.length (Re.sub_from shot_base_re EmptyString 0 bos s) < String.length s.
Proof.
  revert bos. induction s as [|c rest IH]; intros bos H.
  - discriminate.
  - rewrite shot_base_sub_cons. cbn [ends_in_letter] in H.
    destruct (Str.is_lower c && Re.at_eol rest).
    + pose proof (shot_base_sub_length false rest). cbn [String.length]. lia.
    + simpl in H. specialize (IH false H). cbn [String.length]. lia.
Qed.

(** An identity of the documented form: a body whose last character [d]
    is neither a lowercase letter nor a newline (a digit, say), then at
    most one lowercase letter. *)
Lemma shot_base_of_single_letter (body : string) (d : ascii) (tail : string) :
  Str.is_lower d = false -> Ascii.eqb d Str.newline = false ->
  tail = EmptyString \/ (exists c, Str.is_lower c = true /\ tail = String c EmptyString) ->
  _shot_base (body ++ String d tail) = (body ++ String d EmptyString)%string /\
  ends_in_letter (body ++ String d EmptyString) = false.
Proof.
  intros Hd Hn Htail. unfold _shot_base, Re.sub. generalize true as bos.
  induction body as [|a body IH]; intros bos.
  - cbn [append]. rewrite shot_base_sub_cons, Hd. cbn [andb]. split.
    + f_equal. destruct Htail as [->|(c & Hc & ->)]; [reflexivity|].
      rewrite shot_base_sub_cons, Hc. reflexivity.
    + cbn. now rewrite Hd.
  - cbn [append]. rewrite shot_base_sub_cons. destruct (IH false) as [IH1 IH2].
    assert (He : forall t, Re.at_eol (body ++ String d t) = false).
    { intros t. destruct body as [|b body]; cbn [append Re.at_eol].
      - destruct t; [exact Hn|reflexivity].
      - destruct body; reflexivity. }
    rewrite He, andb_false_r. split.
    + now rewrite IH1.
    + cbn [ends_in_letter]. now rewrite He, andb_false_r, IH2.
Qed.

End ShotBase.

Lemma digits_last (num : string) :
  all_digits num = true -> num <> EmptyString ->
  exists front d, num = (front ++ String d EmptyString)%string /\ Str.is_digit d = true.
Proof.
  induction num as [|c num IH]; intros Hd Hne; [congruence|].
  cbn [all_digits] in Hd. apply andb_true_iff in Hd. destruct Hd as [Hc Hn].
  destruct num as [|c' num'].
  - exists EmptyString, c. split; [reflexivity|exact Hc].
  - destruct (IH Hn ltac:(discriminate)) as (front & d & E & Hdig).
    exists (String c front), d. split; [cbn [append]; now rewrite <- E|exact Hdig].
Qed.

Lemma digit_not_letter (d : ascii) :
  Str.is_digit d = true -> Str.is_lower d = false /\ Ascii.eqb d Str.newline = false.
Proof.
  destruct d as [[] [] [] [] [] [] [] []]; vm_compute; intros H;
    solve [discriminate H | split; reflexivity].
Qed.

Lemma no_letter_behind_two (body : string) (d c : ascii) :
  Str.is_lower d = false -> Str.is_lower c = false ->
  ends_in_letter (body ++ String d (String c EmptyString)) = false.
Proof.
  intros Hd Hc. induction body as [|a body IH]; cbn [append ends_in_letter].
  - rewrite Hd, Hc. reflexivity.
  - rewrite IH, orb_false_r.
    replace (Re.at_eol (body ++ String d (String c EmptyString))) with false;
      [apply andb_false_r|].
    destruct body as [|b [|b' body]]; reflexivity.
Qed.

(** C4. The shot-base derivation is idempotent on shot identities: an
    identity is a sequence code, an underscore, a shot number and at most
    one letter; [_shot_base] strips that letter if it is a lowercase one,
    which leaves the sequence code, the underscore and the shot number,
    and it strips nothing from an identity without a lowercase letter at
    its end; either way a second application strips nothing. *)
Theorem shot_base_idempotent (x : string) :
  shot_identity x ->
  _shot_base (_shot_base x) = _shot_base x /\
  ends_in_letter (_shot_base x) = false /\
  forall seq num tail,
    x = (seq ++ "_" ++ num ++ tail)%string ->
    all_digits num = true -> num <> EmptyString ->
    (forall c,
        tail = String c EmptyString -> Str.is_lower c = true ->
        _shot_base x = (seq ++ "_" ++ num)%string) /\
    (tail = EmptyString \/
     (exists c, tail = String c EmptyString /\ is_letter c = true /\
                Str.is_lower c = false) ->
     _shot_base x = x).
Proof.
  assert (Hlow : forall seq num tail,
             x = (seq ++ "_" ++ num ++ tail)%string ->
             all_digits num = true -> num <> EmptyString ->
             tail = EmptyString \/
             (exists c, Str.is_lower c = true /\ tail = String c EmptyString) ->
             _shot_base x = (seq ++ "_" ++ num)%string /\
             ends_in_letter (seq ++ "_" ++ num) = false).
  { intros seq num tail -> Hd Hne Htail.
    destruct (digits_last num Hd Hne) as (front & d & -> & Hdig).
    destruct (digit_not_letter d Hdig) as [Hl Hn].
    destruct (shot_base_of_single_letter (seq ++ "_" ++ front) d tail Hl Hn Htail)
      as [H1 H2].
    replace (seq ++ "_" ++ (front ++ String d EmptyString) ++ tail)%string
      with ((seq ++ "_" ++ front) ++ String d tail)%string
      by (rewrite !string_app_assoc; cbn [append]; reflexivity).
    replace (seq ++ "_" ++ front ++ String d EmptyString)%string
      with ((seq ++ "_" ++ front) ++ String d EmptyString)%string
      by (rewrite !string_app_assoc; reflexivity).
    split; assumption. }
  assert (Hup : forall seq num c,
             x = (seq ++ "_" ++ num ++ String c EmptyString)%string ->
             all_digits num = true -> num <> EmptyString ->
             Str.is_lower c = false ->
             _shot_base x = x /\ ends_in_letter x = false).
  { intros seq num c -> Hd Hne Hc.
    destruct (digits_last num Hd Hne) as (front & d & -> & Hdig).
    destruct (digit_not_letter d Hdig) as [Hl _].
    assert (E : ends_in_letter
                  (seq ++ "_" ++ (front ++ String d EmptyString) ++ String c EmptyString)
                = false).
    { replace (seq ++ "_" ++ (front ++ String d EmptyString) ++ String c EmptyString)%string
        with ((seq ++ "_" ++ front) ++ String d (String c EmptyString))%string
        by (rewrite !string_app_assoc; cbn [append]; reflexivity).
      now apply no_letter_behind_two. }
    split; [exact (shot_base_fixed true _ E)|exact E]. }
  intros (seq & num & tail & Hx & Hd & Hne & Htail).
  assert (Hends : ends_in_letter (_shot_base x) = false).
  { destruct Htail as [->|(c & Hc & ->)].
    - destruct (Hlow seq num EmptyString Hx Hd Hne (or_introl eq_refl)) as [H1 H2].
      now rewrite H1.
    - destruct (Str.is_lower c) eqn:El.
      + destruct (Hlow seq num (String c EmptyString) Hx Hd Hne) as [H1 H2].
        { right. exists c. now split. }
        now rewrite H1.
      + destruct (Hup seq num c Hx Hd Hne El) as [H1 H2]. now rewrite H1. }
  split; [exact (shot_base_fixed true _ Hends)|]. split; [exact Hends|].
  intros seq' num' tail' Hx' Hd' Hne'. split.
  - intros c -> Hc. apply (Hlow seq' num' (String c EmptyString) Hx' Hd' Hne').
    right. exists c. now split.
  - intros [->|(c & -> & _ & Hc)].
    + destruct (Hlow seq' num' EmptyString Hx' Hd' Hne' (or_introl eq_refl)) as [H1 _].
      rewrite H1, Hx'. now rewrite string_app_nil_r.
    + exact (proj1 (Hup seq' num' c Hx' Hd' Hne' Hc)).
Qed.

Lemma shot_base_idempotent_witness :
  (_shot_base (_shot_base "SEQ_1140a") = _shot_base "SEQ_1140a" /\
   _shot_base "SEQ_1140a" = "SEQ_1140"%string) /\
  (_shot_base (_shot_base "SEQ_1140B") = _shot_base "SEQ_1140B" /\
   _shot_base "SEQ_1140B" = "SEQ_1140B"%string) /\
  (_shot_base (_shot_base "SEQ_1140") = _shot_base "SEQ_1140" /\
   _shot_base "SEQ_1140" = "SEQ_1140"%string).
Proof.
  assert (Ha : shot_identity "SEQ_1140a").
  { exists "SEQ"%string, "1140"%string, "a"%string. split; [reflexivity|].
    split; [reflexivity|]. split; [discriminate|].
    right. exists "a"%char. split; reflexivity. }
  assert (Hb : shot_identity "SEQ_1140B").
  { exists "SEQ"%string, "1140"%string, "B"%string. split; [reflexivity|].
    split; [reflexivity|]. split; [discriminate|].
    right. exists "B"%char. split; reflexivity. }
  assert (H0 : shot_identity "SEQ_1140").
  { exists "SEQ"%string, "1140"%string, EmptyString. split; [reflexivity|].
    split; [reflexivity|]. split; [discriminate|]. now left. }
  assert (Hne : "1140"%string <> EmptyString) by discriminate.
  split; [|split].
  - destruct (shot_base_idempotent "SEQ_1140a" Ha) as (H1 & _ & H3).
    split; [exact H1|].
    exact (proj1 (H3 "SEQ"%string "1140"%string "a"%string eq_refl eq_refl Hne)
             "a"%char eq_refl eq_refl).
  - destruct (shot_base_idempotent "SEQ_1140B" Hb) as (H1 & _ & H3).
    split; [exact H1|].
    apply (proj2 (H3 "SEQ"%string "1140"%string "B"%string eq_refl eq_refl Hne)).
    right. exists "B"%char. repeat split.
  - destruct (shot_base_idempotent "SEQ_1140" H0) as (H1 & _ & H3).
    split; [exact H1|].
    apply (proj2 (H3 "SEQ"%string "1140"%string EmptyString eq_refl eq_refl Hne)).
    now left.
Defined.

(* ------------------------------------------------------------------ *)
(** ** The name parser *)

Lemma match_groups (r : Re.regex) (s : string) (m : Re.match_obj) :
  Re.match_ r s = Some m -> Re.m_groups m = Re.ngroups r.
Proof.
  unfold Re.match_, Re.match_at.
  destruct (Re.rx r true s [] Re.accept) as [[rest g]|]; [|discriminate].
  intros H. injection H as <-. reflexivity.
Qed.

Lemma extract_shot_name_returns (filename : string) (shot_regex : Re.regex) :
  Re.ngroups shot_regex = 1 ->
  exists identity, _extract_shot_name filename shot_regex = Ok identity.
Proof.
  intros Hg. unfold _extract_shot_name.
  destruct (Re.match_ shot_regex (fst (OsPath.splitext filename))) as [m|] eqn:E.
  - unfold Re.group. rewrite (match_groups _ _ _ E), Hg. eexists. reflexivity.
  - eexists. reflexivity.
Qed.

Lemma extract_shot_name_example :
  _extract_shot_name "SEQ_1140a_comp_w0012_vfx.mov" Example.shot_re = Ok (Some "SEQ_1140a") /\
  _extract_shot_name "readme.mov" Example.shot_re = Ok None.
Proof. split; vm_compute; reflexivity. Qed.

(** Without a capture group, [m.group(1)] raises. *)
Lemma extract_shot_name_no_group :
  _extract_shot_name "SEQ_1140a.mov" (Re.Lit "SEQ") = Raise IndexError.
Proof. vm_compute; reflexivity. Qed.

(* ------------------------------------------------------------------ *)
(** ** The entries of a selection *)


Lemma parse_entries_spec (shot_regex : Re.regex) (selected : list node) :
  Re.ngroups shot_regex = 1 ->
  exists entries,
    parse_entries shot_regex selected = Ok entries /\
    map entry_node entries = filter (parses shot_regex) selected /\
    Forall (fun e =>
              _extract_shot_name (OsPath.basename (file_value (entry_node e))) shot_regex
                = Ok (Some (entry_shot e)) /\
              Str.truthy (entry_shot e) = true /\
              entry_label e =
                _extract_version_label (OsPath.basename (file_value (entry_node e))))
           entries.
Proof.
  intros Hg. induction selected as [|n rest IH].
  - exists []. repeat split. constructor.
  - destruct IH as (more & Hmore & Hmap & Hall).
    destruct (extract_shot_name_returns (OsPath.basename (file_value n)) _ Hg)
      as [identity Hid].
    cbn [parse_entries filter]. unfold parses at 1. rewrite Hid, Hmore. cbn [bind].
    destruct identity as [s|].
    + destruct (Str.truthy s) eqn:Ht.
      * exists ((s, _extract_version_label (OsPath.basename (file_value n)), n) :: more).
        split; [reflexivity|]. split; [cbn [map]; now rewrite Hmap|].
        constructor; [|assumption]. repeat split; assumption.
      * exists more. repeat split; assumption.
    + exists more. repeat split; assumption.
Qed.

Lemma parses_needs_match (shot_regex : Re.regex) (n : node) :
  Re.match_ shot_regex (fst (OsPath.splitext (OsPath.basename (file_value n)))) = None ->
  parses shot_regex n = false.
Proof.
  intros H. unfold parses, _extract_shot_name. now rewrite H.
Qed.

(* ------------------------------------------------------------------ *)
(** ** The resolution loop *)

Lemma Forall2_nth_error {A B : Type} (R : A -> B -> Prop) (l1 : list A) (l2 : list B) :
  Forall2 R l1 l2 ->
  forall i a, nth_error l1 i = Some a -> exists b, nth_error l2 i = Some b /\ R a b.
Proof.
  induction 1 as [|x y l1 l2 Hxy _ IH]; intros i a Hi.
  - destruct i; discriminate.
  - destruct i as [|i]; simpl in *.
    + injection Hi as <-. exists y. split; [reflexivity|assumption].
    + exact (IH i a Hi).
Qed.

Lemma lookups_entry_events (l : list entry) :
  lookups (flat_map entry_events l) = 2 * List.length l.
Proof.
  unfold lookups. induction l as [|e l IH]; [reflexivity|].
  cbn [flat_map entry_events app filter is_lookup List.length]. rewrite IH. lia.
Qed.

Section LoopFacts.

Context {FS : FileSystem} (isCancelled : nat -> bool) (cfg : config).

(** A run of the loop from [st]: it handles the first [m] entries, each
    with one poll followed by its two lookups, and stops early exactly at
    a poll that answers true. *)
Lemma resolve_loop_inv (entries : list entry) :
  forall st st',
    resolve_loop isCancelled cfg entries st = Ok st' ->
    exists m v0s lats,
      m <= List.length entries /\
      Forall2 (fun e v => lookup_version_zero cfg e = Ok v) (firstn m entries) v0s /\
      Forall2 (fun e v => lookup_latest cfg e = Ok v) (firstn m entries) lats /\
      v0_results st' = v0_results st ++ v0s /\
      latest_results st' = latest_results st ++ lats /\
      step st' = step st + 2 * m /\
      trace st' = trace st ++ flat_map entry_events (firstn m entries)
                    ++ (if (m <? List.length entries)%nat then [EvPoll true] else []) /\
      cancelled st' = cancelled st || (m <? List.length entries)%nat /\
      (forall j, j < m -> isCancelled (step st + 2 * j) = false) /\
      (m < List.length entries -> isCancelled (step st + 2 * m) = true).
Proof.
  induction entries as [|e rest IH]; intros st st' H.
  - cbn in H. injection H as <-. exists 0, [], []. cbn.
    rewrite !app_nil_r, orb_false_r. repeat split; try constructor; try lia.
  - cbn [resolve_loop] in H. destruct (isCancelled (step st)) eqn:Hc.
    + injection H as <-. exists 0, [], []. cbn.
      rewrite !app_nil_r, orb_true_r, Nat.add_0_r.
      repeat split; try constructor; try lia. intros _. exact Hc.
    + destruct (lookup_version_zero cfg e) as [v0|x] eqn:Ev; [|discriminate].
      destruct (lookup_latest cfg e) as [lat|x] eqn:El; [|discriminate].
      cbn [bind] in H. apply IH in H.
      destruct H as (m & v0s & lats & Hm & F0 & Fl & R0 & Rl & Hs & Ht & Hcan & Hno & Hyes).
      cbn [v0_results latest_results step trace cancelled] in *.
      exists (S m), (v0 :: v0s), (lat :: lats).
      cbn [firstn flat_map List.length].
      split; [lia|]. split; [constructor; assumption|].
      split; [constructor; assumption|].
      split; [rewrite R0, <- app_assoc; reflexivity|].
      split; [rewrite Rl, <- app_assoc; reflexivity|].
      split; [lia|].
      split; [rewrite Ht, <- !app_assoc; reflexivity|].
      split; [exact Hcan|].
      split.
      * intros [|j] Hj.
        -- rewrite Nat.add_0_r. exact Hc.
        -- replace (step st + 2 * S j) with (step st + 2 + 2 * j) by lia.
           apply Hno. lia.
      * intros Hlt. replace (step st + 2 * S m) with (step st + 2 + 2 * m) by lia.
        apply Hyes. lia.
Qed.

Lemma resolve_loop_returns (entries : list entry) :
  Forall (lookups_return cfg) entries ->
  forall st, exists st', resolve_loop isCancelled cfg entries st = Ok st'.
Proof.
  induction 1 as [|e rest (v0 & lat & Ev & El) _ IH]; intros st.
  - eexists. reflexivity.
  - cbn [resolve_loop]. destruct (isCancelled (step st)).
    + eexists. reflexivity.
    + rewrite Ev, El. cbn [bind]. apply IH.
Qed.

End LoopFacts.

(* ------------------------------------------------------------------ *)
(** ** Cancellation *)

(** C8, as the code has it.  [task.isCancelled()] is polled once per entry,
    before its version-zero lookup; the latest lookup of the entry follows
    with no poll in between.  A run handles the first [m] entries, so it
    makes [2 * m] lookups, and is cancelled exactly when a poll answers
    true.  When cancellation is signaled once [k] lookups have been started,
    the poll that comes next, if there is one, stops the loop: the lookups
    of the entry in progress are completed, at most [k + 1] lookups are
    made in all, and no lookup of a later entry is started. *)
Theorem cancellation_polled_once_per_entry {FS : FileSystem}
  (isCancelled : nat -> bool) (cfg : config) (entries : list entry) :
  Forall (lookups_return cfg) entries ->
  exists st m,
    resolve_loop isCancelled cfg entries loop_init = Ok st /\
    m <= List.length entries /\
    trace st = flat_map entry_events (firstn m entries)
                 ++ (if (m <? List.length entries)%nat then [EvPoll true] else []) /\
    cancelled st = (m <? List.length entries)%nat /\
    lookups (trace st) = 2 * m /\
    forall k,
      (forall completed, isCancelled completed = signaled_during k completed) ->
      lookups (trace st) <= k + 1 /\
      m = Nat.min (List.length entries) ((k + 1) / 2).
Proof.
  intros Hret.
  destruct (resolve_loop_returns isCancelled cfg entries Hret loop_init) as [st Hst].
  exists st. pose proof (resolve_loop_inv isCancelled cfg entries _ _ Hst) as Hinv.
  destruct Hinv as (m & v0s & lats & Hm & _ & _ & _ & _ & _ & Ht & Hcan & Hno & Hyes).
  cbn [loop_init trace cancelled step app orb Nat.add] in Ht, Hcan, Hno, Hyes.
  exists m.
  assert (Hlook : lookups (trace st) = 2 * m).
  { rewrite Ht. unfold lookups. rewrite filter_app, length_app.
    fold (lookups (flat_map entry_events (firstn m entries))).
    rewrite lookups_entry_events, length_firstn.
    destruct (m <? List.length entries)%nat; cbn [filter is_lookup List.length]; lia. }
  repeat split; try assumption.
  - rewrite Hlook. destruct m as [|m']; [lia|].
    specialize (Hno m' (Nat.lt_succ_diag_r m')). rewrite H in Hno.
    unfold signaled_during in Hno. apply Nat.leb_gt in Hno. lia.
  - assert (Hlow : 2 * m <= k + 1).
    { destruct m as [|m']; [lia|].
      specialize (Hno m' (Nat.lt_succ_diag_r m')). rewrite H in Hno.
      unfold signaled_during in Hno. apply Nat.leb_gt in Hno. lia. }
    destruct (Nat.lt_ge_cases m (List.length entries)) as [Hlt|Hge].
    + specialize (Hyes Hlt). rewrite H in Hyes. unfold signaled_during in Hyes.
      apply Nat.leb_le in Hyes.
      assert ((k + 1) / 2 = m) by (symmetry; apply (Nat.div_unique _ 2 m (k + 1 - 2 * m)); lia).
      lia.
    + assert (m <= (k + 1) / 2) by (apply Nat.div_le_lower_bound; lia).
      lia.
Qed.

Lemma cancellation_polled_once_per_entry_witness :
  exists st m,
    @resolve_loop (Example.dir_with Example.renders) (signaled_during 2) Example.cfg
       [Example.entry_w0012; Example.entry_u0003] loop_init = Ok st /\
    m <= 2 /\
    trace st = flat_map entry_events (firstn m [Example.entry_w0012; Example.entry_u0003])
                 ++ (if (m <? 2)%nat then [EvPoll true] else []) /\
    cancelled st = (m <? 2)%nat /\
    lookups (trace st) = 2 * m /\
    forall k,
      (forall completed, signaled_during 2 completed = signaled_during k completed) ->
      lookups (trace st) <= k + 1 /\ m = Nat.min 2 ((k + 1) / 2).
Proof.
  apply (@cancellation_polled_once_per_entry (Example.dir_with Example.renders)
           (signaled_during 2) Example.cfg [Example.entry_w0012; Example.entry_u0003]).
  repeat constructor; eexists; eexists; split; vm_compute; reflexivity.
Defined.

(** C8, as stated: cancellation is signaled during the version-zero lookup
    of the first entry (one lookup started).  There is no poll before the
    latest lookup of that entry, which is started and completed after the
    signal; the loop stops at the poll of the second entry. *)
Lemma no_poll_before_latest_lookup :
  exists st,
    @resolve_loop (Example.dir_with Example.renders) (signaled_during 1) Example.cfg
       [Example.entry_w0012; Example.entry_u0003] loop_init = Ok st /\
    trace st = [EvPoll false; EvVersionZero "SEQ_1140a"; EvLatest "SEQ_1140a";
                EvPoll true] /\
    nth_error (trace st) 1 = Some (EvVersionZero "SEQ_1140a") /\
    nth_error (trace st) 2 = Some (EvLatest "SEQ_1140a") /\
    polls (firstn 3 (trace st)) = 1 /\
    lookups (trace st) = 2 /\
    ~ lookups (trace st) <= 1.
Proof.
  eexists. split; [vm_compute; reflexivity|].
  cbn [trace]. repeat split. vm_compute. lia.
Qed.

(* ------------------------------------------------------------------ *)
(** ** The columns handed to the layout *)

Lemma columns_from_ok (entries : list entry) (st : loop_state) :
  forall col_idx,
    (forall i e,
        nth_error entries i = Some e ->
        exists latest v0,
          nth_error (latest_results st) (col_idx + i) = Some latest /\
          nth_error (v0_results st) (col_idx + i) = Some v0) ->
    exists cols,
      columns_from col_idx entries st = Ok cols /\
      map (fun c => fst (fst c)) cols = entries.
Proof.
  induction entries as [|e rest IH]; intros col_idx H.
  - exists []. split; reflexivity.
  - destruct (H 0 e eq_refl) as (latest & v0 & Hl & Hv).
    rewrite Nat.add_0_r in Hl, Hv.
    destruct (IH (S col_idx)) as (more & Hmore & Hmap).
    { intros i e' Hi. destruct (H (S i) e' Hi) as (l & v & Hl' & Hv').
      exists l, v. replace (S col_idx + i) with (col_idx + S i) by lia. now split. }
    exists ((e, latest, v0) :: more). cbn [columns_from]. unfold index.
    rewrite Hl, Hv. cbn [bind]. rewrite Hmore. cbn [bind map fst].
    split; [reflexivity|now rewrite Hmap].
Qed.

(** A run that is not cancelled hands one column per entry to the layout,
    in the order of the entries: no index is out of range. *)
Lemma run_done {FS : FileSystem} (isCancelled : nat -> bool) (cfg : config)
  (selected : list node) (entries : list entry) :
  parse_entries (shot_regex cfg) selected = Ok entries ->
  entries <> [] ->
  Forall (lookups_return cfg) entries ->
  (forall completed, isCancelled completed = false) ->
  exists cols,
    run isCancelled cfg selected = Ok (Done cols) /\
    map (fun c => fst (fst c)) cols = entries.
Proof.
  intros Hparse Hne Hret Hnever. unfold run.
  destruct selected as [|n rest].
  - cbn in Hparse. injection Hparse as <-. contradiction.
  - rewrite Hparse. cbn [bind]. destruct entries as [|e es] eqn:Ee; [contradiction|].
    rewrite <- Ee in *. clear Hne.
    destruct (resolve_loop_returns isCancelled cfg entries Hret loop_init) as [st Hst].
    rewrite Hst. cbn [bind]. apply resolve_loop_inv in Hst.
    destruct Hst as (m & v0s & lats & Hm & F0 & Fl & R0 & Rl & _ & _ & Hcan & _ & Hyes).
    cbn [loop_init v0_results latest_results cancelled app orb] in R0, Rl, Hcan.
    assert (Hfull : m = List.length entries).
    { destruct (Nat.lt_ge_cases m (List.length entries)) as [Hlt|Hge]; [|lia].
      specialize (Hyes Hlt). rewrite Hnever in Hyes. discriminate. }
    subst m. rewrite Nat.ltb_irrefl in Hcan. rewrite Hcan.
    rewrite firstn_all in F0, Fl.
    destruct (columns_from_ok entries st 0) as (cols & Hcols & Hmap).
    { intros i e' Hi. cbn [Nat.add]. rewrite R0, Rl.
      destruct (Forall2_nth_error _ _ _ F0 i e' Hi) as (v0 & H0 & _).
      destruct (Forall2_nth_error _ _ _ Fl i e' Hi) as (lat & Hl & _).
      exists lat, v0. split; assumption. }
    exists cols. rewrite Hcols. split; [reflexivity|assumption].
Qed.

(* ================================================================== *)
(** * Further properties of the code *)

(* ------------------------------------------------------------------ *)
(** ** Strings *)

Lemma take_drop (n : nat) (s : string) : (Str.take n s ++ Str.drop n s)%string = s.
Proof.
  revert s. induction n as [|n IH]; intros [|c s]; cbn; try reflexivity.
  now rewrite IH.
Qed.

Lemma get_drop (k : nat) (s : string) (c : ascii) :
  String.get k s = Some c -> Str.drop k s = String c (Str.drop (S k) s).
Proof.
  revert s. induction k as [|k IH]; intros [|a s] H; cbn in *; try discriminate.
  - now injection H as ->.
  - exact (IH s H).
Qed.

Lemma drop_length (k : nat) (s : string) :
  String.length (Str.drop k s) = String.length s - k.
Proof.
  revert s. induction k as [|k IH]; intros [|a s]; cbn; try reflexivity; try lia.
  apply IH.
Qed.

Lemma lacks_app (c : ascii) (a b : string) :
  lacks c (a ++ b) = lacks c a && lacks c b.
Proof.
  induction a as [|x a IH]; cbn; [reflexivity|]. now rewrite IH, andb_assoc.
Qed.


Lemma lacks_drop (c : ascii) (n : nat) (s : string) :
  lacks c s = true -> lacks c (Str.drop n s) = true.
Proof.
  intros H. rewrite <- (take_drop n s), lacks_app in H.
  now apply andb_true_iff in H.
Qed.


Lemma no_sep_lacks (s : string) : Disk.no_sep s = lacks "/" s.
Proof. induction s as [|c s IH]; cbn; [reflexivity|now rewrite IH]. Qed.

(** [s.rfind(c)]: no [c] in [s] and the default, or the index of a [c]
    with no [c] behind it. *)
Lemma rfind_from_spec (c : ascii) (s : string) :
  forall i found,
    (lacks c s = true /\ Str.rfind_from c s i found = found) \/
    (exists k,
        k < String.length s /\
        Str.rfind_from c s i found = (i + Z.of_nat k)%Z /\
        String.get k s = Some c /\
        lacks c (Str.drop (S k) s) = true).
Proof.
  induction s as [|a s IH]; intros i found; cbn [Str.rfind_from lacks].
  - left. split; reflexivity.
  - destruct (IH (i + 1)%Z (if Ascii.eqb a c then i else found))
      as [[Hl Hr]|(k & Hk & Hr & Hg & Hl)].
    + destruct (Ascii.eqb a c) eqn:E.
      * right. exists 0. apply Ascii.eqb_eq in E. subst a.
        cbn. repeat split; try lia; try assumption.
      * left. cbn. split; assumption.
    + right. exists (S k). cbn. repeat split; try lia; try assumption.
Qed.

Lemma rfind_spec (c : ascii) (s : string) :
  (lacks c s = true /\ Str.rfind c s = (-1)%Z) \/
  (exists k,
      k < String.length s /\ Str.rfind c s = Z.of_nat k /\
      String.get k s = Some c /\ lacks c (Str.drop (S k) s) = true).
Proof.
  unfold Str.rfind. destruct (rfind_from_spec c s 0 (-1)) as [H|(k & H)].
  - now left.
  - right. exists k. now rewrite Z.add_0_l in H.
Qed.

(* ------------------------------------------------------------------ *)
(** ** What [_shot_base] removes *)

Lemma at_eol_cases (t : string) :
  Re.at_eol t = true -> t = EmptyString \/ t = String Str.newline EmptyString.
Proof.
  destruct t as [|a [|b t]]; cbn; intros H; try discriminate.
  - now left.
  - right. apply Ascii.eqb_eq in H. now subst a.
Qed.

Lemma lower_not_newline (c : ascii) :
  Str.is_lower c = true -> Ascii.eqb c Str.newline = false.
Proof.
  intros H. destruct (Ascii.eqb c Str.newline) eqn:E; [|reflexivity].
  apply Ascii.eqb_eq in E. subst c. discriminate.
Qed.

Lemma at_eol_before_letter (body : string) (c : ascii) (tail : string) :
  Str.is_lower c = true -> body <> EmptyString \/ tail <> EmptyString ->
  Re.at_eol (body ++ String c tail) = false.
Proof.
  intros Hc H. destruct body as [|b body]; cbn [append Re.at_eol].
  - destruct tail; [destruct H; contradiction|reflexivity].
  - destruct body; reflexivity.
Qed.

Lemma shot_base_strips (body : string) (c : ascii) (tail : string) :
  Str.is_lower c = true -> Re.at_eol tail = true ->
  forall bos,
    Re.sub_from shot_base_re EmptyString 0 bos (body ++ String c tail)
    = (body ++ tail)%string.
Proof.
  intros Hc Ht. induction body as [|a body IH]; intros bos; cbn [append].
  - rewrite shot_base_sub_cons, Hc, Ht. cbn [andb].
    apply shot_base_fixed. destruct (at_eol_cases tail Ht) as [-> | ->]; reflexivity.
  - rewrite shot_base_sub_cons.
    assert (He : Re.at_eol (body ++ String c tail) = false).
    { destruct body as [|b body]; cbn [append].
      - destruct (at_eol_cases tail Ht) as [-> | ->]; cbn.
        + now apply lower_not_newline.
        + reflexivity.
      - apply (at_eol_before_letter (String b body) c tail Hc). left. discriminate. }
    rewrite He, andb_false_r. now rewrite IH.
Qed.

Lemma ends_in_letter_split (x : string) :
  ends_in_letter x = true ->
  exists body c tail,
    x = (body ++ String c tail)%string /\ Str.is_lower c = true /\ Re.at_eol tail = true.
Proof.
  induction x as [|a x IH]; cbn [ends_in_letter]; [discriminate|].
  intros H. apply orb_true_iff in H. destruct H as [H|H].
  - apply andb_true_iff in H. destruct H as [Ha Ht].
    exists EmptyString, a, x. repeat split; assumption.
  - destruct (IH H) as (body & c & tail & -> & Hc & Ht).
    exists (String a body), c, tail. repeat split; assumption.
Qed.

(** X1. [_shot_base] leaves a name alone unless a lowercase letter stands
    at its end (or just before a final newline); then it removes that one
    letter and nothing else: digits, capitals, underscores and the final
    newline stay. *)
Theorem shot_base_cases (x : string) :
  (ends_in_letter x = false /\ _shot_base x = x) \/
  (exists body c tail,
      x = (body ++ String c tail)%string /\
      Str.is_lower c = true /\
      (tail = EmptyString \/ tail = String Str.newline EmptyString) /\
      _shot_base x = (body ++ tail)%string).
Proof.
  destruct (ends_in_letter x) eqn:E.
  - right. destruct (ends_in_letter_split x E) as (body & c & tail & -> & Hc & Ht).
    exists body, c, tail. split; [reflexivity|]. split; [assumption|].
    split; [now apply at_eol_cases|]. exact (shot_base_strips body c tail Hc Ht true).
  - left. split; [reflexivity|]. exact (shot_base_fixed true x E).
Qed.

(* ------------------------------------------------------------------ *)
(** ** The derived directory *)

Lemma shot_base_lacks (c : ascii) (x : string) :
  lacks c x = true -> lacks c (_shot_base x) = true.
Proof.
  intros H. destruct (ends_in_letter x) eqn:E.
  - destruct (ends_in_letter_split x E) as (body & a & tail & -> & Ha & Ht).
    unfold _shot_base, Re.sub. rewrite (shot_base_strips body a tail Ha Ht true).
    rewrite lacks_app in *. cbn [lacks] in H.
    apply andb_true_iff in H. destruct H as [Hb H].
    apply andb_true_iff in H. destruct H as [_ Htl]. now rewrite Hb, Htl.
  - unfold _shot_base, Re.sub. now rewrite (shot_base_fixed true x E).
Qed.

Lemma split_head_lacks (c d : ascii) (s : string) :
  lacks c s = true -> lacks c (Str.split_head d s) = true.
Proof.
  induction s as [|a s IH]; cbn; [reflexivity|]. intros H.
  apply andb_true_iff in H. destruct H as [Ha Hs].
  destruct (Ascii.eqb a d); [reflexivity|]. cbn. now rewrite Ha, IH.
Qed.

Lemma is_absolute_no_sep (s : string) : Disk.no_sep s = true -> is_absolute s = false.
Proof.
  destruct s as [|c s]; [reflexivity|]. cbn [Disk.no_sep]. intros H.
  apply andb_true_iff in H. destruct H as [H _]. apply negb_true_iff in H.
  now rewrite is_absolute_eqb.
Qed.

Lemma of_string_no_sep (s : string) :
  Disk.no_sep s = true -> of_string s = mkPath EmptyString (kept s).
Proof.
  intros H. unfold of_string, kept.
  rewrite (split_sep_no_sep s EmptyString H),
    (splitroot_relative s (is_absolute_no_sep s H)).
  cbn [append filter]. destruct (keep_part s); reflexivity.
Qed.

Lemma div_no_sep (p : Path) (s : string) :
  Disk.no_sep s = true -> div p s = mkPath (p_root p) (p_parts p ++ kept s).
Proof. intros H. unfold div. now rewrite (of_string_no_sep s H). Qed.

(** X2. The directory of a shot is the tree root followed by the sequence
    code (the shot base up to its first underscore), the shot base and the
    version subfolder, for a shot name and a subfolder without separator;
    a component that is empty or a lone dot leaves no trace (a shot base
    that begins with an underscore has no sequence level).  The root of
    the result is that of the tree root: none, [/], or [//] for a tree
    root that begins with exactly two separators. *)
Theorem vfx_path_layout (shot_name shot_tree_root version_subfolder : string) :
  Disk.no_sep shot_name = true ->
  Disk.no_sep version_subfolder = true ->
  _build_vfx_path shot_name shot_tree_root version_subfolder =
  mkPath (p_root (of_string shot_tree_root))
    (p_parts (of_string shot_tree_root)
       ++ kept (Str.split_head "_" (_shot_base shot_name))
       ++ kept (_shot_base shot_name)
       ++ kept version_subfolder).
Proof.
  intros Hs Hv. unfold _build_vfx_path.
  assert (Hb : Disk.no_sep (_shot_base shot_name) = true).
  { rewrite no_sep_lacks in *. now apply shot_base_lacks. }
  assert (Hq : Disk.no_sep (Str.split_head "_" (_shot_base shot_name)) = true).
  { rewrite no_sep_lacks in *. now apply split_head_lacks. }
  rewrite (div_no_sep _ _ Hq), (div_no_sep _ _ Hb), (div_no_sep _ _ Hv).
  cbn [p_root p_parts]. now rewrite <- !app_assoc.
Qed.

Lemma vfx_path_layout_witness :
  _build_vfx_path "SEQ_1140a" "/shows" "_vfx" =
  mkPath "/" (["shows"] ++ ["SEQ"] ++ ["SEQ_1140"] ++ ["_vfx"]) /\
  _build_vfx_path "_1140a" "/shows" "_vfx" =
  mkPath "/" (["shows"] ++ [] ++ ["_1140"] ++ ["_vfx"]) /\
  _build_vfx_path "SEQ_1140a" "//shows" "_vfx" =
  mkPath "//" (["shows"] ++ ["SEQ"] ++ ["SEQ_1140"] ++ ["_vfx"]) /\
  _build_vfx_path "SEQ_1140a" "shows" "_vfx" =
  mkPath EmptyString (["shows"] ++ ["SEQ"] ++ ["SEQ_1140"] ++ ["_vfx"]).
Proof.
  split; [|split; [|split]].
  - exact (vfx_path_layout "SEQ_1140a" "/shows" "_vfx" eq_refl eq_refl).
  - exact (vfx_path_layout "_1140a" "/shows" "_vfx" eq_refl eq_refl).
  - exact (vfx_path_layout "SEQ_1140a" "//shows" "_vfx" eq_refl eq_refl).
  - exact (vfx_path_layout "SEQ_1140a" "shows" "_vfx" eq_refl eq_refl).
Defined.

(** X3. Sibling variants share one directory: a shot name that ends in
    one lowercase letter, with in front of that letter a character that is
    neither a lowercase letter nor a newline, has the directory of the name
    without that letter, whatever the letter. *)
Theorem sibling_variants_share_directory
  (body : string) (d c : ascii) (shot_tree_root version_subfolder : string) :
  Str.is_lower d = false -> Ascii.eqb d Str.newline = false ->
  Str.is_lower c = true ->
  _build_vfx_path (body ++ String d (String c EmptyString)) shot_tree_root version_subfolder
  = _build_vfx_path (body ++ String d EmptyString) shot_tree_root version_subfolder.
Proof.
  intros Hd Hn Hc. unfold _build_vfx_path.
  destruct (shot_base_of_single_letter body d (String c EmptyString) Hd Hn) as [H1 _].
  { right. exists c. split; [assumption|reflexivity]. }
  destruct (shot_base_of_single_letter body d EmptyString Hd Hn) as [H2 _].
  { now left. }
  now rewrite H1, H2.
Qed.

Lemma sibling_variants_share_directory_witness :
  _build_vfx_path "SEQ_1140b" "/shows" "_vfx" = _build_vfx_path "SEQ_1140" "/shows" "_vfx".
Proof.
  apply (sibling_variants_share_directory "SEQ_114" "0" "b" "/shows" "_vfx");
    reflexivity.
Defined.

(* ------------------------------------------------------------------ *)
(** ** Equal numbers *)

Lemma sort_desc_first_max {A : Type} (key : A -> N) (l1 : list A) (x : A) (l2 : list A) :
  (forall y, In y l1 -> (key y < key x)%N) ->
  (forall y, In y l2 -> (key y <= key x)%N) ->
  exists t, sort_desc key (l1 ++ x :: l2) = x :: t.
Proof.
  intros H1 H2. induction l1 as [|y l1 IH]; cbn [app sort_desc].
  - destruct (sort_desc key l2) as [|h t] eqn:E; cbn [insert_desc].
    + now exists [].
    + assert (Hh : In h l2) by (apply (sort_desc_In key); rewrite E; now left).
      specialize (H2 h Hh). replace (key x <? key h)%N with false
        by (symmetry; apply N.ltb_ge; lia).
      now exists (h :: t).
  - destruct IH as [t Ht]; [intros z Hz; apply H1; now right|].
    rewrite Ht. cbn [insert_desc].
    replace (key y <? key x)%N with true
      by (symmetry; apply N.ltb_lt; apply H1; now left).
    now exists (insert_desc key y t).
Qed.

(** X4. Candidates with equal numbers: the one enumerated first wins.  When
    the ranking holds a candidate after only smaller numbers and before
    none larger, its path is the result; so the vendor letter decides
    nothing, the enumeration order does. *)
Theorem latest_tie_goes_to_first_enumerated {FS : FileSystem}
  (shot_name : string) (vfx_dir : Path) (file_ext : string)
  (exclude_filename : option string) (files : list Path)
  (before after : list (N * string)) (v : N) (p : string) :
  path_exists vfx_dir = Ok true ->
  path_glob vfx_dir (shot_name ++ "_*_?*_vfx" ++ file_ext) = Ok files ->
  ranked file_ext exclude_filename files = before ++ (v, p) :: after ->
  (forall c, In c before -> (fst c < v)%N) ->
  (forall c, In c after -> (fst c <= v)%N) ->
  _find_latest_version shot_name vfx_dir file_ext exclude_filename = Ok (Some p).
Proof.
  intros Hex Hglob Hr Hb Ha. rewrite (find_latest_unfold _ _ _ _ _ Hex Hglob), Hr.
  destruct (sort_desc_first_max fst before (v, p) after Hb Ha) as [t ->]. reflexivity.
Qed.

Lemma latest_tie_goes_to_first_enumerated_witness :
  @_find_latest_version
     (Example.dir_with ["SEQ_1140a_comp_u0005_vfx.mov"; "SEQ_1140a_comp_w0005_vfx.mov"])
     "SEQ_1140a" Example.vfx_dir ".mov" None
    = Ok (Some "/shows/SEQ/SEQ_1140/_vfx/SEQ_1140a_comp_u0005_vfx.mov") /\
  @_find_latest_version
     (Example.dir_with ["SEQ_1140a_comp_w0005_vfx.mov"; "SEQ_1140a_comp_u0005_vfx.mov"])
     "SEQ_1140a" Example.vfx_dir ".mov" None
    = Ok (Some "/shows/SEQ/SEQ_1140/_vfx/SEQ_1140a_comp_w0005_vfx.mov").
Proof.
  split.
  - refine (@latest_tie_goes_to_first_enumerated
              (Example.dir_with ["SEQ_1140a_comp_u0005_vfx.mov"; "SEQ_1140a_comp_w0005_vfx.mov"])
              "SEQ_1140a" Example.vfx_dir ".mov" None
              (map (div Example.vfx_dir)
                   ["SEQ_1140a_comp_u0005_vfx.mov"; "SEQ_1140a_comp_w0005_vfx.mov"])
              [] [(5%N, "/shows/SEQ/SEQ_1140/_vfx/SEQ_1140a_comp_w0005_vfx.mov")]
              5%N _ _ _ _ _ _); try (vm_compute; reflexivity).
    + intros c [].
    + intros c [<-|[]]. cbn. lia.
  - refine (@latest_tie_goes_to_first_enumerated
              (Example.dir_with ["SEQ_1140a_comp_w0005_vfx.mov"; "SEQ_1140a_comp_u0005_vfx.mov"])
              "SEQ_1140a" Example.vfx_dir ".mov" None
              (map (div Example.vfx_dir)
                   ["SEQ_1140a_comp_w0005_vfx.mov"; "SEQ_1140a_comp_u0005_vfx.mov"])
              [] [(5%N, "/shows/SEQ/SEQ_1140/_vfx/SEQ_1140a_comp_u0005_vfx.mov")]
              5%N _ _ _ _ _ _); try (vm_compute; reflexivity).
    + intros c [].
    + intros c [<-|[]]. cbn. lia.
Defined.

(* ------------------------------------------------------------------ *)
(** ** The extension filter *)

(** [p.suffix] is empty, or a dot followed by at least one character and no
    further dot. *)
Lemma suffix_shape (p : Path) :
  suffix p = EmptyString \/ simple_suffix (suffix p) = true.
Proof.
  unfold suffix. destruct (dot_splits (name p)) as [i|] eqn:E; [|now left].
  right. unfold dot_splits in E.
  destruct (rfind_spec "." (name p)) as [[_ Hr]|(k & Hk & Hr & Hg & Hl)];
    rewrite Hr in E.
  - discriminate.
  - destruct ((0 <? Z.of_nat k) && (Z.of_nat k <? Z.of_nat (String.length (name p)) - 1))%Z
      eqn:Eb; [|discriminate].
    injection E as <-. rewrite Nat2Z.id, (get_drop _ _ _ Hg).
    apply andb_true_iff in Eb. destruct Eb as [_ Eb]. apply Z.ltb_lt in Eb.
    cbn [simple_suffix]. rewrite Hl, andb_true_r.
    pose proof (drop_length (S k) (name p)) as L.
    destruct (Str.drop (S k) (name p)); [cbn in L; lia|reflexivity].
Qed.

Lemma glob_ext_malformed {FS : FileSystem} (vfx_dir : Path) (file_ext pat : string)
  (l : list Path) :
  file_ext <> EmptyString -> simple_suffix file_ext = false ->
  glob_ext vfx_dir file_ext pat = Ok l -> l = [].
Proof.
  intros Hne Hbad. unfold glob_ext.
  destruct (path_glob vfx_dir pat) as [fs|e]; [|discriminate].
  cbn [bind]. intros H. injection H as <-.
  induction fs as [|f fs IH]; [reflexivity|]. cbn [filter].
  destruct (String.eqb (suffix f) file_ext) eqn:E; [|exact IH].
  apply String.eqb_eq in E. destruct (suffix_shape f) as [H|H]; rewrite E in H.
  - contradiction.
  - rewrite H in Hbad. discriminate.
Qed.

(** X5. A configured extension that [Path.suffix] can never equal (one
    without its leading dot, such as [mov], a lone dot, or one with a second
    dot, such as [.tar.gz]) makes both lookups find nothing: neither ever
    returns a path, whatever the directory holds. *)
Theorem malformed_extension_finds_nothing {FS : FileSystem}
  (shot_name : string) (vfx_dir : Path) (file_ext : string)
  (exclude_filename : option string) (p : string) :
  file_ext <> EmptyString -> simple_suffix file_ext = false ->
  _find_version_zero shot_name vfx_dir file_ext <> Ok (Some p) /\
  _find_latest_version shot_name vfx_dir file_ext exclude_filename <> Ok (Some p).
Proof.
  intros Hne Hbad. split.
  - unfold _find_version_zero.
    destruct (path_exists vfx_dir) as [[|]|x]; cbn [bind negb]; try discriminate.
    unfold version_zero_patterns. cbn [first_match].
    destruct (glob_ext vfx_dir file_ext
                (_shot_base shot_name ++ "_*_?0000_vfx" ++ file_ext)) as [l1|e] eqn:E1;
      [|discriminate].
    rewrite (glob_ext_malformed _ _ _ _ Hne Hbad E1). cbn [bind].
    destruct (glob_ext vfx_dir file_ext
                (_shot_base shot_name ++ "_?0000_vfx" ++ file_ext)) as [l2|e] eqn:E2;
      [|discriminate].
    rewrite (glob_ext_malformed _ _ _ _ Hne Hbad E2). discriminate.
  - unfold _find_latest_version.
    destruct (path_exists vfx_dir) as [[|]|x]; cbn [bind negb]; try discriminate.
    unfold latest_patterns. cbn [gather].
    destruct (glob_ext vfx_dir file_ext (shot_name ++ "_*_?*_vfx" ++ file_ext))
      as [l1|e] eqn:E1; [|discriminate].
    rewrite (glob_ext_malformed _ _ _ _ Hne Hbad E1). discriminate.
Qed.

Lemma malformed_extension_finds_nothing_witness :
  @_find_version_zero (Example.dir_with ["SEQ_1140_comp_u0000_vfx.tar.gz"])
     "SEQ_1140a" Example.vfx_dir ".tar.gz"
    <> Ok (Some "/shows/SEQ/SEQ_1140/_vfx/SEQ_1140_comp_u0000_vfx.tar.gz") /\
  @_find_latest_version (Example.dir_with ["SEQ_1140_comp_u0000_vfx.tar.gz"])
     "SEQ_1140a" Example.vfx_dir ".tar.gz" None
    <> Ok (Some "/shows/SEQ/SEQ_1140/_vfx/SEQ_1140_comp_u0000_vfx.tar.gz").
Proof.
  apply (@malformed_extension_finds_nothing
           (Example.dir_with ["SEQ_1140_comp_u0000_vfx.tar.gz"])).
  - discriminate.
  - reflexivity.
Defined.

(* ------------------------------------------------------------------ *)
(** ** Names that reach the lookups *)






Lemma extract_shot_name_piece (filename : string) (shot_regex : Re.regex) (t : string) :
  _extract_shot_name filename shot_regex = Ok (Some t) ->
  piece_of (fst (OsPath.splitext filename)) t.
Proof.
  unfold _extract_shot_name.
  destruct (Re.match_ shot_regex (fst (OsPath.splitext filename))) as [m|] eqn:E;
    [|discriminate].
  unfold Re.group. destruct (1 <=? Re.m_groups m)%nat; [|discriminate].
  intros H. injection H as H. destruct (match_sound _ _ _ E) as (_ & _ & Hp).
  exact (Hp 1 t H).
Qed.


Lemma parse_entries_ok (shot_regex : Re.regex) (selected : list node) (entries : list entry) :
  parse_entries shot_regex selected = Ok entries ->
  map entry_node entries = filter (parses shot_regex) selected /\
  Forall (fun e =>
            _extract_shot_name (OsPath.basename (file_value (entry_node e))) shot_regex
              = Ok (Some (entry_shot e)) /\
            Str.truthy (entry_shot e) = true /\
            entry_label e =
              _extract_version_label (OsPath.basename (file_value (entry_node e))))
         entries.
Proof.
  revert entries. induction selected as [|n rest IH]; intros entries H.
  - cbn in H. injection H as <-. split; [reflexivity|constructor].
  - cbn [parse_entries] in H. cbn [filter]. unfold parses at 1.
    destruct (_extract_shot_name (OsPath.basename (file_value n)) shot_regex)
      as [identity|x] eqn:Hid; [|discriminate].
    cbn [bind] in H.
    destruct (parse_entries shot_regex rest) as [more|x] eqn:Hmore; [|discriminate].
    cbn [bind] in H. destruct (IH more eq_refl) as [Hmap Hall].
    destruct identity as [s|].
    + destruct (Str.truthy s) eqn:Ht; injection H as <-.
      * split; [cbn [map]; now rewrite Hmap|].
        constructor; [|assumption]. repeat split; assumption.
      * split; assumption.
    + injection H as <-. split; assumption.
Qed.

(* ------------------------------------------------------------------ *)
(** ** Lookups on a disk *)












(* ------------------------------------------------------------------ *)
(** ** What a run reports *)

Lemma columns_from_spec (entries : list entry) (st : loop_state) :
  forall col_idx cols,
    columns_from col_idx entries st = Ok cols ->
    map (fun c => fst (fst c)) cols = entries /\
    forall i c,
      nth_error cols i = Some c ->
      nth_error (latest_results st) (col_idx + i) = Some (snd (fst c)) /\
      nth_error (v0_results st) (col_idx + i) = Some (snd c).
Proof.
  induction entries as [|e rest IH]; intros k cols H; cbn [columns_from] in H.
  - injection H as <-. split; [reflexivity|]. intros [|i] c Hc; discriminate.
  - unfold index in H.
    destruct (nth_error (latest_results st) k) as [latest|] eqn:El; [|discriminate].
    destruct (nth_error (v0_results st) k) as [v0|] eqn:Ev; [|discriminate].
    cbn [bind] in H.
    destruct (columns_from (S k) rest st) as [more|x] eqn:Em; [|discriminate].
    cbn [bind] in H. injection H as <-. destruct (IH _ _ Em) as [Hmap Hnth].
    split; [cbn [map fst]; now rewrite Hmap|].
    intros [|i] c Hc; cbn [nth_error] in Hc.
    + injection Hc as <-. rewrite Nat.add_0_r. cbn [fst snd]. split; assumption.
    + replace (k + S i) with (S k + i) by lia. exact (Hnth i c Hc).
Qed.

Lemma full_run_results {FS : FileSystem} (isCancelled : nat -> bool) (cfg : config)
  (entries : list entry) (st : loop_state) :
  resolve_loop isCancelled cfg entries loop_init = Ok st ->
  cancelled st = false ->
  Forall2 (fun e v => lookup_version_zero cfg e = Ok v) entries (v0_results st) /\
  Forall2 (fun e v => lookup_latest cfg e = Ok v) entries (latest_results st) /\
  forall j, j < List.length entries -> isCancelled (2 * j) = false.
Proof.
  intros Hst Hnc. apply resolve_loop_inv in Hst.
  destruct Hst as (m & v0s & lats & Hm & F0 & Fl & R0 & Rl & _ & _ & Hcan & Hno & _).
  cbn [loop_init v0_results latest_results cancelled step app orb Nat.add]
    in R0, Rl, Hcan, Hno.
  rewrite Hnc in Hcan. symmetry in Hcan. apply Nat.ltb_ge in Hcan.
  assert (m = List.length entries) by lia. subst m.
  rewrite firstn_all in F0, Fl. rewrite R0, Rl. repeat split; assumption.
Qed.

Lemma cancelled_run_poll {FS : FileSystem} (isCancelled : nat -> bool) (cfg : config)
  (entries : list entry) (st : loop_state) :
  resolve_loop isCancelled cfg entries loop_init = Ok st ->
  cancelled st = true ->
  exists j,
    j < List.length entries /\ isCancelled (2 * j) = true /\
    forall i, i < j -> isCancelled (2 * i) = false.
Proof.
  intros Hst Hc. apply resolve_loop_inv in Hst.
  destruct Hst as (m & v0s & lats & Hm & _ & _ & _ & _ & _ & _ & Hcan & Hno & Hyes).
  cbn [loop_init cancelled step orb Nat.add] in Hcan, Hno, Hyes.
  rewrite Hc in Hcan. symmetry in Hcan. apply Nat.ltb_lt in Hcan.
  exists m. split; [assumption|]. split; [now apply Hyes|assumption].
Qed.

Lemma full_run_columns {FS : FileSystem} (isCancelled : nat -> bool) (cfg : config)
  (entries : list entry) (st : loop_state) :
  resolve_loop isCancelled cfg entries loop_init = Ok st ->
  cancelled st = false ->
  exists cols, columns_from 0 entries st = Ok cols.
Proof.
  intros Hst Hnc. destruct (full_run_results _ _ _ _ Hst Hnc) as (F0 & Fl & _).
  destruct (columns_from_ok entries st 0) as (cols & Hcols & _).
  - intros i e Hi. cbn [Nat.add].
    destruct (Forall2_nth_error _ _ _ F0 i e Hi) as (v0 & H0 & _).
    destruct (Forall2_nth_error _ _ _ Fl i e Hi) as (lat & Hl & _).
    exists lat, v0. split; assumption.
  - exists cols. exact Hcols.
Qed.

(** C7. The batch resolution keeps order and length over the parseable
    entries.  The entries are the selected nodes whose filename parses, in
    selection order; a node whose stem the pattern does not match is not
    among them, and it is left out before any lookup.  The result lists are
    read only by a run that was not cancelled, and then [v0_results] and
    [latest_results] have one element per entry, element [i] being the
    result of the two lookups of entry [i] ([None] for a lookup that found
    nothing), and column [i] of what is handed to the layout holds entry
    [i] with these two results.  A loop that stops on a cancellation hands
    nothing over: the run only reports the cancellation. *)
Theorem resolution_keeps_order_and_length {FS : FileSystem}
  (isCancelled : nat -> bool) (cfg : config) (selected : list node) :
  Re.ngroups (shot_regex cfg) = 1 ->
  exists entries,
    parse_entries (shot_regex cfg) selected = Ok entries /\
    map entry_node entries = filter (parses (shot_regex cfg)) selected /\
    (forall n,
        Re.match_ (shot_regex cfg)
          (fst (OsPath.splitext (OsPath.basename (file_value n)))) = None ->
        ~ In n (map entry_node entries)) /\
    (forall st,
        resolve_loop isCancelled cfg entries loop_init = Ok st ->
        cancelled st = false ->
        List.length (v0_results st) = List.length entries /\
        List.length (latest_results st) = List.length entries /\
        forall i e,
          nth_error entries i = Some e ->
          exists v0 latest,
            nth_error (v0_results st) i = Some v0 /\
            nth_error (latest_results st) i = Some latest /\
            lookup_version_zero cfg e = Ok v0 /\
            lookup_latest cfg e = Ok latest) /\
    (forall cols,
        run isCancelled cfg selected = Ok (Done cols) ->
        exists st,
          resolve_loop isCancelled cfg entries loop_init = Ok st /\
          cancelled st = false /\
          List.length cols = List.length entries /\
          forall i e,
            nth_error entries i = Some e ->
            exists v0 latest,
              nth_error cols i = Some (e, latest, v0) /\
              nth_error (v0_results st) i = Some v0 /\
              nth_error (latest_results st) i = Some latest) /\
    (forall st,
        resolve_loop isCancelled cfg entries loop_init = Ok st ->
        cancelled st = true ->
        run isCancelled cfg selected = Ok Cancelled) /\
    (Forall (lookups_return cfg) entries ->
     (forall completed, isCancelled completed = false) ->
     exists st,
       resolve_loop isCancelled cfg entries loop_init = Ok st /\ cancelled st = false).
Proof.
  intros Hg. destruct (parse_entries_spec (shot_regex cfg) selected Hg)
    as (entries & Hparse & Hmap & _).
  exists entries. split; [assumption|]. split; [assumption|].
  split; [|split; [|split; [|split]]].
  - intros n Hn Hin. rewrite Hmap in Hin. apply filter_In in Hin.
    destruct Hin as [_ Hp]. rewrite (parses_needs_match _ _ Hn) in Hp. discriminate.
  - intros st Hrun Hnc. destruct (full_run_results _ _ _ _ Hrun Hnc) as (F0 & Fl & _).
    split; [symmetry; exact (Forall2_length F0)|].
    split; [symmetry; exact (Forall2_length Fl)|].
    intros i e Hi.
    destruct (Forall2_nth_error _ _ _ F0 i e Hi) as (v0 & H0 & E0).
    destruct (Forall2_nth_error _ _ _ Fl i e Hi) as (lat & Hl & El).
    exists v0, lat. repeat split; assumption.
  - intros cols Hdone. unfold run in Hdone.
    destruct selected as [|n0 sel]; [discriminate|].
    rewrite Hparse in Hdone. cbn [bind] in Hdone.
    destruct entries as [|e0 es] eqn:Ee; [discriminate|]. rewrite <- Ee in *.
    destruct (resolve_loop isCancelled cfg entries loop_init) as [st|x] eqn:Hst;
      [|discriminate].
    cbn [bind] in Hdone. destruct (cancelled st) eqn:Hc; [discriminate|].
    destruct (columns_from 0 entries st) as [cols'|x] eqn:Hcols; [|discriminate].
    cbn [bind] in Hdone. injection Hdone as <-.
    exists st. split; [reflexivity|]. split; [exact Hc|].
    destruct (columns_from_spec _ _ _ _ Hcols) as [Hm Hnth].
    split; [rewrite <- Hm; now rewrite length_map|].
    intros i e Hi. rewrite <- Hm in Hi. rewrite nth_error_map in Hi.
    match type of Hi with
    | option_map _ ?o = _ => destruct o as [[[e' lat] v0]|] eqn:Hc'; [|discriminate]
    end.
    cbn [option_map fst] in Hi. injection Hi as ->.
    destruct (Hnth i _ Hc') as [Hl Hv]. cbn [Nat.add fst snd] in Hl, Hv.
    exists v0, lat. repeat split; assumption.
  - intros st Hst Hc. unfold run.
    destruct selected as [|n0 sel].
    { cbn in Hparse. injection Hparse as <-. cbn in Hst. injection Hst as <-.
      discriminate Hc. }
    rewrite Hparse. cbn [bind].
    destruct entries as [|e0 es].
    { cbn in Hst. injection Hst as <-. discriminate Hc. }
    rewrite Hst. cbn [bind]. now rewrite Hc.
  - intros Hret Hnever.
    destruct (resolve_loop_returns isCancelled cfg entries Hret loop_init) as [st Hst].
    exists st. split; [assumption|].
    apply resolve_loop_inv in Hst.
    destruct Hst as (m & v0s & lats & Hm & _ & _ & _ & _ & _ & _ & Hcan & _ & Hyes).
    rewrite Hcan. cbn. apply Nat.ltb_ge.
    destruct (Nat.lt_ge_cases m (List.length entries)) as [Hlt|Hge]; [|assumption].
    specialize (Hyes Hlt). rewrite Hnever in Hyes. discriminate.
Qed.

Lemma resolution_keeps_order_and_length_witness :
  exists entries,
    parse_entries Example.shot_re
      [Example.selected_w0012; Example.selected_notes; Example.selected_u0003]
      = Ok entries /\
    map entry_node entries = [Example.selected_w0012; Example.selected_u0003] /\
    exists st,
      @resolve_loop (Example.dir_with Example.renders) never_cancelled Example.cfg
         entries loop_init = Ok st /\
      cancelled st = false /\
      List.length (v0_results st) = List.length entries /\
      List.length (latest_results st) = List.length entries.
Proof.
  destruct (@resolution_keeps_order_and_length (Example.dir_with Example.renders)
              never_cancelled Example.cfg
              [Example.selected_w0012; Example.selected_notes; Example.selected_u0003]
              eq_refl)
    as (entries & Hparse & Hmap & _ & Hlen & _ & _ & Hrun).
  exists entries. split; [exact Hparse|]. split; [exact Hmap|].
  assert (Hret : Forall (@lookups_return (Example.dir_with Example.renders) Example.cfg)
                        entries).
  { vm_compute in Hparse. injection Hparse as <-.
    repeat constructor; eexists; eexists; split; vm_compute; reflexivity. }
  destruct (Hrun Hret (fun _ => eq_refl)) as (st & Hst & Hnc).
  exists st. destruct (Hlen st Hst Hnc) as (L0 & Ll & _). repeat split; assumption.
Defined.



(** X7. When the run gets to the layout, it hands over one column per
    selected node whose filename parses, in selection order; each column
    holds the results of the two lookups of its own entry, and no poll has
    answered true. *)
Theorem run_done_columns {FS : FileSystem} (isCancelled : nat -> bool) (cfg : config)
  (selected : list node) (cols : list column) :
  run isCancelled cfg selected = Ok (Done cols) ->
  cols <> [] /\
  map (fun c => entry_node (fst (fst c))) cols = filter (parses (shot_regex cfg)) selected /\
  Forall (fun c =>
            lookup_latest cfg (fst (fst c)) = Ok (snd (fst c)) /\
            lookup_version_zero cfg (fst (fst c)) = Ok (snd c)) cols /\
  forall j, j < List.length cols -> isCancelled (2 * j) = false.
Proof.
  unfold run. destruct selected as [|n rest]; [discriminate|].
  destruct (parse_entries (shot_regex cfg) (n :: rest)) as [entries|x] eqn:Hparse;
    [|discriminate].
  cbn [bind]. destruct entries as [|e es] eqn:Ee; [discriminate|]. rewrite <- Ee in *.
  destruct (resolve_loop isCancelled cfg entries loop_init) as [st|x] eqn:Hst;
    [|discriminate].
  cbn [bind]. destruct (cancelled st) eqn:Hc; [discriminate|].
  destruct (columns_from 0 entries st) as [cs|x] eqn:Hcols; [|discriminate].
  cbn [bind]. intros H. injection H as ->.
  destruct (columns_from_spec _ _ _ _ Hcols) as [Hmap Hnth].
  destruct (full_run_results _ _ _ _ Hst Hc) as (F0 & Fl & Hno).
  destruct (parse_entries_ok _ _ _ Hparse) as [Hnodes _].
  assert (Hlen : List.length cols = List.length entries)
    by (rewrite <- Hmap; now rewrite length_map).
  split; [|split; [|split]].
  - intros ->. rewrite Ee in Hlen. discriminate.
  - rewrite <- Hnodes, <- Hmap, map_map. reflexivity.
  - apply Forall_forall. intros c Hin. apply In_nth_error in Hin.
    destruct Hin as [i Hi]. destruct (Hnth i c Hi) as [Hl Hv]. cbn [Nat.add] in Hl, Hv.
    assert (He : nth_error entries i = Some (fst (fst c))).
    { rewrite <- Hmap. now rewrite nth_error_map, Hi. }
    destruct (Forall2_nth_error _ _ _ F0 i _ He) as (v0 & H0 & E0).
    destruct (Forall2_nth_error _ _ _ Fl i _ He) as (lat & H1 & E1).
    rewrite Hv in H0. rewrite Hl in H1. injection H0 as <-. injection H1 as <-.
    split; assumption.
  - intros j Hj. apply Hno. lia.
Qed.

Lemma run_done_columns_witness :
  map (fun c => entry_node (fst (fst c)))
      [(Example.entry_w0012,
        Some "/shows/SEQ/SEQ_1140/_vfx/SEQ_1140a_comp_i0007_vfx.mov",
        Some "/shows/SEQ/SEQ_1140/_vfx/SEQ_1140_comp_u0000_vfx.mov")]
  = filter (parses Example.shot_re) [Example.selected_notes; Example.selected_w0012].
Proof.
  refine (proj1 (proj2
    (@run_done_columns (Example.dir_with Example.renders) never_cancelled Example.cfg
       [Example.selected_notes; Example.selected_w0012]
       [(Example.entry_w0012,
         Some "/shows/SEQ/SEQ_1140/_vfx/SEQ_1140a_comp_i0007_vfx.mov",
         Some "/shows/SEQ/SEQ_1140/_vfx/SEQ_1140_comp_u0000_vfx.mov")] _))).
  vm_compute; reflexivity.
Defined.

(** X8. The reports that end a run early.  "Select Read nodes first" is
    reported exactly for an empty selection; "could not parse" only when no
    selected filename parses; "cancelled" only when a poll has answered
    true, at the first such poll, before the lookups of some entry. *)
Theorem run_early_reports {FS : FileSystem} (isCancelled : nat -> bool) (cfg : config)
  (selected : list node) :
  (run isCancelled cfg selected = Ok SelectReadNodesFirst <-> selected = []) /\
  (run isCancelled cfg selected = Ok CouldNotParse ->
   selected <> [] /\ filter (parses (shot_regex cfg)) selected = []) /\
  (run isCancelled cfg selected = Ok Cancelled ->
   exists j,
     j < List.length (filter (parses (shot_regex cfg)) selected) /\
     isCancelled (2 * j) = true /\
     forall i, i < j -> isCancelled (2 * i) = false).
Proof.
  unfold run. destruct selected as [|n rest].
  { split; [split; reflexivity|]. split; discriminate. }
  destruct (parse_entries (shot_regex cfg) (n :: rest)) as [entries|x] eqn:Hparse.
  2:{ cbn [bind]. split; [split; discriminate|]. split; discriminate. }
  cbn [bind]. destruct (parse_entries_ok _ _ _ Hparse) as [Hnodes _].
  destruct entries as [|e es] eqn:Ee.
  { split; [split; discriminate|]. split; [|discriminate].
    intros _. split; [discriminate|]. now rewrite <- Hnodes. }
  rewrite <- Ee in *.
  destruct (resolve_loop isCancelled cfg entries loop_init) as [st|x] eqn:Hst.
  2:{ cbn [bind]. split; [split; discriminate|]. split; discriminate. }
  cbn [bind]. destruct (cancelled st) eqn:Hc.
  - split; [split; discriminate|]. split; [discriminate|]. intros _.
    destruct (cancelled_run_poll _ _ _ _ Hst Hc) as (j & Hj & Ht & Hf).
    exists j. rewrite <- Hnodes, length_map. repeat split; assumption.
  - destruct (columns_from 0 entries st) as [cs|x]; cbn [bind];
      (split; [split; discriminate|]; split; discriminate).
Qed.

Lemma run_early_reports_witness :
  exists j,
    j < List.length (filter (parses Example.shot_re)
                       [Example.selected_w0012; Example.selected_u0003]) /\
    signaled_during 1 (2 * j) = true /\
    forall i, i < j -> signaled_during 1 (2 * i) = false.
Proof.
  refine (proj2 (proj2
    (@run_early_reports (Example.dir_with Example.renders) (signaled_during 1)
       Example.cfg [Example.selected_w0012; Example.selected_u0003])) _).
  vm_compute; reflexivity.
Defined.

(* ------------------------------------------------------------------ *)
(** ** A pattern without capture group *)

Lemma extract_without_group (filename : string) (shot_regex : Re.regex) :
  Re.ngroups shot_regex = 0 ->
  ((exists rest, Reads shot_regex true (fst (OsPath.splitext filename)) rest) ->
   _extract_shot_name filename shot_regex = Raise IndexError) /\
  (~ (exists rest, Reads shot_regex true (fst (OsPath.splitext filename)) rest) ->
   _extract_shot_name filename shot_regex = Ok None).
Proof.
  intros Hg. unfold _extract_shot_name. split.
  - intros (rest & Hr). destruct (match_complete _ _ _ Hr) as [m Hm].
    rewrite Hm. unfold Re.group. now rewrite (match_groups _ _ _ Hm), Hg.
  - intros Hno.
    destruct (Re.match_ shot_regex (fst (OsPath.splitext filename))) as [m|] eqn:E;
      [|reflexivity].
    exfalso. apply Hno. exists (Re.m_rest m). exact (proj1 (match_sound _ _ _ E)).
Qed.

(** X9. With a pattern that has no capture group, [m.group(1)] raises
    [IndexError] for every filename whose stem the pattern matches and
    [_extract_shot_name] returns [None] for the others; so a run raises as
    soon as one selected filename matches, and reports "could not parse"
    when none does. *)
Theorem pattern_without_group_raises {FS : FileSystem} (isCancelled : nat -> bool)
  (cfg : config) (selected : list node) :
  Re.ngroups (shot_regex cfg) = 0 ->
  (forall filename,
      (exists rest, Reads (shot_regex cfg) true (fst (OsPath.splitext filename)) rest) ->
      _extract_shot_name filename (shot_regex cfg) = Raise IndexError) /\
  (Exists (fun n =>
             exists rest,
               Reads (shot_regex cfg) true
                 (fst (OsPath.splitext (OsPath.basename (file_value n)))) rest) selected ->
   run isCancelled cfg selected = Raise IndexError) /\
  (selected <> [] ->
   Forall (fun n =>
             ~ exists rest,
                 Reads (shot_regex cfg) true
                   (fst (OsPath.splitext (OsPath.basename (file_value n)))) rest) selected ->
   run isCancelled cfg selected = Ok CouldNotParse).
Proof.
  intros Hg. split; [|split].
  - intros filename Hr. exact (proj1 (extract_without_group filename _ Hg) Hr).
  - intros Hex.
    assert (Hp : parse_entries (shot_regex cfg) selected = Raise IndexError).
    { induction selected as [|n rest IH]; [inversion Hex|]. cbn [parse_entries].
      destruct (extract_without_group (OsPath.basename (file_value n)) _ Hg) as [Hy Hn].
      inversion Hex as [? ? Hhere|? ? Hlater]; subst.
      - now rewrite (Hy Hhere).
      - rewrite (IH Hlater).
        destruct (_extract_shot_name (OsPath.basename (file_value n)) (shot_regex cfg))
          as [v|x] eqn:E; cbn [bind]; [reflexivity|].
        destruct (Re.match_ (shot_regex cfg)
                    (fst (OsPath.splitext (OsPath.basename (file_value n))))) as [m|] eqn:Em.
        + pose proof (Hy (ex_intro _ (Re.m_rest m) (proj1 (match_sound _ _ _ Em)))) as Hx.
          injection Hx as ->. reflexivity.
        + unfold _extract_shot_name in E. rewrite Em in E. discriminate. }
    unfold run. destruct selected as [|n rest]; [inversion Hex|]. now rewrite Hp.
  - intros Hne Hall.
    assert (Hp : parse_entries (shot_regex cfg) selected = Ok []).
    { clear Hne. induction Hall as [|n rest Hn _ IH]; [reflexivity|].
      cbn [parse_entries].
      rewrite (proj2 (extract_without_group (OsPath.basename (file_value n)) _ Hg) Hn).
      cbn [bind]. now rewrite IH. }
    unfold run. destruct selected as [|n rest]; [contradiction|]. now rewrite Hp.
Qed.

Lemma pattern_without_group_raises_witness :
  @run (Example.dir_with Example.renders) never_cancelled
     (mkConfig (Re.Lit "SEQ") "/shows" "_vfx" ".mov")
     [Example.selected_notes; Example.selected_w0012]
  = Raise IndexError.
Proof.
  refine (proj1 (proj2
    (@pattern_without_group_raises (Example.dir_with Example.renders) never_cancelled
       (mkConfig (Re.Lit "SEQ") "/shows" "_vfx" ".mov")
       [Example.selected_notes; Example.selected_w0012] eq_refl)) _).
  apply Exists_cons_tl, Exists_cons_hd.
  exists "_1140a_comp_w0012_vfx".
  refine (proj1 (match_sound (Re.Lit "SEQ") "SEQ_1140a_comp_w0012_vfx"
                   (Re.mkMatch 0 [] "_1140a_comp_w0012_vfx") _)).
  vm_compute; reflexivity.
Defined.

(* ------------------------------------------------------------------ *)
(** ** The version token, read exactly *)

Lemma string_length_pos (c : ascii) (s : string) : 0 < String.length (String c s).
Proof. cbn. lia. Qed.

(** A greedy run of digits reads all the digits in front of a non-digit,
    when the continuation accepts what follows. *)
Lemma star_digit_complete (k : Re.cont) (ds : string) :
  forall n bos rest g x,
    all_digits ds = true -> stops_digits rest = true ->
    String.length ds < n ->
    k (still bos (ds ++ rest) rest) rest g = Some x ->
    Re.star_loop (Re.rx Re.digit) k n bos (ds ++ rest) g = Some x.
Proof.
  induction ds as [|d ds IH]; intros n bos rest g x Hd Hs Hn Hk;
    (destruct n as [|n]; [cbn in Hn; lia|]); cbn [append Re.star_loop].
  - cbn [append] in Hk. rewrite still_same in Hk.
    unfold Re.digit at 1. cbn [Re.rx]. destruct rest as [|a rest]; [exact Hk|].
    rewrite digit_class. cbn [stops_digits] in Hs. apply negb_true_iff in Hs.
    rewrite Hs. exact Hk.
  - cbn [all_digits] in Hd. apply andb_true_iff in Hd. destruct Hd as [Hd Hds].
    unfold Re.digit at 1. cbn [Re.rx]. rewrite digit_class, Hd. fold Re.digit.
    replace (String.length (ds ++ rest) <? String.length (String d (ds ++ rest)))%nat
      with true by (symmetry; apply Nat.ltb_lt; cbn; lia).
    rewrite (IH n false rest g x Hds Hs); [reflexivity|cbn in Hn; lia|].
    unfold still in *. cbn [andb]. cbn [append] in Hk.
    replace (String.length rest =? String.length (String d (ds ++ rest)))%nat
      with false in Hk
      by (symmetry; apply Nat.eqb_neq; cbn; rewrite string_length_app; lia).
    now rewrite andb_false_r in Hk.
Qed.

Lemma version_re_match_complete (bos : bool) (c d : ascii) (ds rest : string) :
  Str.is_lower c = true -> Str.is_digit d = true -> all_digits ds = true ->
  Re.at_eol rest = true ->
  Re.match_at version_re bos (String "_" (String c (String d ds ++ "_vfx" ++ rest)))
  = Some (Re.mkMatch 2 [(2, String d ds); (1, String c EmptyString)] rest).
Proof.
  intros Hc Hd Hds He. unfold Re.match_at.
  replace (Re.rx version_re bos
             (String "_" (String c (String d ds ++ "_vfx" ++ rest))) [] Re.accept)
    with (Some (rest, [(2, String d ds); (1, String c EmptyString)])); [reflexivity|].
  symmetry. unfold version_re, Re.Plus, Re.lower. cbn [Re.rx Re.Lit append].
  rewrite lower_class, Hc. unfold Re.digit at 1. cbn [Re.rx].
  rewrite digit_class, Hd. fold Re.digit.
  apply star_digit_complete;
    [assumption|reflexivity|rewrite ?string_length_app; cbn [String.length]; lia|].
  cbn [append]. cbn -[Str.take String.length Nat.sub]. rewrite He.
  unfold Re.accept. f_equal. f_equal. f_equal.
  - f_equal. exact (take_app_length (String d ds) ("_vfx" ++ rest)).
  - f_equal. f_equal.
    exact (take_app_length (String c EmptyString) (String d (ds ++ "_vfx" ++ rest))).
Qed.

Lemma label_re_match_sound (bos : bool) (s : string) (m : Re.match_obj) :
  Re.match_at label_re bos s = Some m ->
  exists c ds,
    s = String "_" (String c (ds ++ "_vfx" ++ Re.m_rest m)) /\
    Str.is_lower c = true /\ all_digits ds = true /\ ds <> EmptyString /\
    Re.at_eol (Re.m_rest m) = true /\
    Re.m_caps m = [(1, String c ds)].
Proof.
  unfold Re.match_at.
  destruct (Re.rx label_re bos s [] Re.accept) as [[rest g]|] eqn:E; [|discriminate].
  intros H. injection H as <-. cbn [Re.m_rest Re.m_caps].
  unfold label_re, Re.Plus, Re.lower in E. cbn [Re.rx Re.Lit] in E.
  destruct s as [|a s1]; [discriminate|].
  destruct (Ascii.eqb a "_") eqn:Ea; [|discriminate]. apply Ascii.eqb_eq in Ea. subst a.
  destruct s1 as [|c s2]; [discriminate|].
  rewrite lower_class in E. destruct (Str.is_lower c) eqn:Ec; [|discriminate].
  unfold Re.digit in E at 1. cbn [Re.rx] in E.
  destruct s2 as [|d s3]; [discriminate|].
  rewrite digit_class in E. destruct (Str.is_digit d) eqn:Ed; [|discriminate].
  fold Re.digit in E. apply star_digit_sound in E.
  destruct E as (ds & tail & b' & -> & Hds & E).
  destruct tail as [|t1 tail]; [discriminate|].
  destruct (Ascii.eqb t1 "_") eqn:E1; [|discriminate]. apply Ascii.eqb_eq in E1. subst t1.
  destruct tail as [|t2 tail]; [discriminate|].
  destruct (Ascii.eqb t2 "v") eqn:E2; [|discriminate]. apply Ascii.eqb_eq in E2. subst t2.
  destruct tail as [|t3 tail]; [discriminate|].
  destruct (Ascii.eqb t3 "f") eqn:E3; [|discriminate]. apply Ascii.eqb_eq in E3. subst t3.
  destruct tail as [|t4 tail]; [discriminate|].
  destruct (Ascii.eqb t4 "x") eqn:E4; [|discriminate]. apply Ascii.eqb_eq in E4. subst t4.
  destruct (Re.at_eol tail) eqn:Eeol; [|discriminate].
  unfold Re.accept in E. injection E as <- <-.
  exists c, (String d ds). repeat split.
  - assumption.
  - cbn [all_digits]. now rewrite Ed, Hds.
  - discriminate.
  - assumption.
  - f_equal. f_equal.
    exact (take_app_length (String c (String d ds)) ("_vfx" ++ tail)).
Qed.

Lemma label_re_match_complete (bos : bool) (c d : ascii) (ds rest : string) :
  Str.is_lower c = true -> Str.is_digit d = true -> all_digits ds = true ->
  Re.at_eol rest = true ->
  Re.match_at label_re bos (String "_" (String c (String d ds ++ "_vfx" ++ rest)))
  = Some (Re.mkMatch 1 [(1, String c (String d ds))] rest).
Proof.
  intros Hc Hd Hds He. unfold Re.match_at.
  replace (Re.rx label_re bos
             (String "_" (String c (String d ds ++ "_vfx" ++ rest))) [] Re.accept)
    with (Some (rest, [(1, String c (String d ds))])); [reflexivity|].
  symmetry. unfold label_re, Re.Plus, Re.lower. cbn [Re.rx Re.Lit append].
  rewrite lower_class, Hc. unfold Re.digit at 1. cbn [Re.rx].
  rewrite digit_class, Hd. fold Re.digit.
  apply star_digit_complete;
    [assumption|reflexivity|rewrite ?string_length_app; cbn [String.length]; lia|].
  cbn [append]. cbn -[Str.take String.length Nat.sub]. rewrite He.
  unfold Re.accept. f_equal. f_equal. f_equal. f_equal.
  exact (take_app_length (String c (String d ds)) ("_vfx" ++ rest)).
Qed.

Lemma label_fallback_match_sound (bos : bool) (s : string) (m : Re.match_obj) :
  Re.match_at label_fallback_re bos s = Some m ->
  exists ds,
    s = String "_" (String "v" (ds ++ Re.m_rest m)) /\
    all_digits ds = true /\ ds <> EmptyString /\
    Re.m_caps m = [(1, String "v" ds)].
Proof.
  unfold Re.match_at.
  destruct (Re.rx label_fallback_re bos s [] Re.accept) as [[rest g]|] eqn:E;
    [|discriminate].
  intros H. injection H as <-. cbn [Re.m_rest Re.m_caps].
  unfold label_fallback_re, Re.Plus in E. cbn [Re.rx] in E.
  destruct s as [|a s1]; [discriminate|].
  destruct (Ascii.eqb a "_") eqn:Ea; [|discriminate]. apply Ascii.eqb_eq in Ea. subst a.
  destruct s1 as [|c s2]; [discriminate|].
  destruct (Ascii.eqb c "v") eqn:Ec; [|discriminate]. apply Ascii.eqb_eq in Ec. subst c.
  unfold Re.digit in E at 1. cbn [Re.rx] in E.
  destruct s2 as [|d s3]; [discriminate|].
  rewrite digit_class in E. destruct (Str.is_digit d) eqn:Ed; [|discriminate].
  fold Re.digit in E. apply star_digit_sound in E.
  destruct E as (ds & tail & b' & -> & Hds & E).
  unfold Re.accept in E. injection E as <- <-.
  exists (String d ds). repeat split.
  - cbn [all_digits]. now rewrite Ed, Hds.
  - discriminate.
  - f_equal. f_equal.
    exact (take_app_length (String "v" (String d ds)) tail).
Qed.

(** The two patterns that read the token succeed at the same places. *)
Lemma label_version_search (s : string) :
  forall bos,
    match Re.search_from version_re bos s, Re.search_from label_re bos s with
    | Some m, Some m' =>
        Re.m_caps m' = [(1, (group_or_empty m 1 ++ group_or_empty m 2)%string)] /\
        Re.m_rest m' = Re.m_rest m
    | None, None => True
    | _, _ => False
    end.
Proof.
  assert (Hat : forall bos t,
             match Re.match_at version_re bos t, Re.match_at label_re bos t with
             | Some m, Some m' =>
                 Re.m_caps m' = [(1, (group_or_empty m 1 ++ group_or_empty m 2)%string)] /\
                 Re.m_rest m' = Re.m_rest m
             | None, None => True
             | _, _ => False
             end).
  { intros bos t. destruct (Re.match_at version_re bos t) as [m|] eqn:Ev.
    - destruct (version_re_match_sound _ _ _ Ev) as (c & ds & -> & Hc & Hd & Hne & He & Hcaps).
      destruct ds as [|d ds]; [congruence|].
      cbn [all_digits] in Hd. apply andb_true_iff in Hd. destruct Hd as [Hd Hds].
      rewrite (label_re_match_complete bos c d ds _ Hc Hd Hds He).
      unfold group_or_empty. rewrite Hcaps. cbn. split; reflexivity.
    - destruct (Re.match_at label_re bos t) as [m'|] eqn:El; [|exact I].
      destruct (label_re_match_sound _ _ _ El) as (c & ds & -> & Hc & Hd & Hne & He & _).
      destruct ds as [|d ds]; [congruence|].
      cbn [all_digits] in Hd. apply andb_true_iff in Hd. destruct Hd as [Hd Hds].
      rewrite (version_re_match_complete bos c d ds _ Hc Hd Hds He) in Ev. discriminate. }
  induction s as [|a s IH]; intros bos; cbn [Re.search_from].
  - specialize (Hat bos EmptyString).
    destruct (Re.match_at version_re bos EmptyString),
             (Re.match_at label_re bos EmptyString); exact Hat.
  - specialize (Hat bos (String a s)).
    destruct (Re.match_at version_re bos (String a s)),
             (Re.match_at label_re bos (String a s));
      try exact Hat; try contradiction.
    apply IH.
Qed.

(** The last occurrence of a character splits a string in one way only. *)
Lemma split_last (c : ascii) (a : string) :
  forall a' b b',
    lacks c b = true -> lacks c b' = true ->
    (a ++ String c b)%string = (a' ++ String c b')%string -> a = a' /\ b = b'.
Proof.
  induction a as [|x a IH]; intros [|x' a'] b b' Hb Hb' E; cbn [append] in E.
  - injection E as ->. now split.
  - injection E as <- ->. rewrite lacks_app in Hb. cbn [lacks] in Hb.
    rewrite Ascii.eqb_refl in Hb. cbn in Hb. now rewrite andb_false_r in Hb.
  - injection E as -> <-. rewrite lacks_app in Hb'. cbn [lacks] in Hb'.
    rewrite Ascii.eqb_refl in Hb'. cbn in Hb'. now rewrite andb_false_r in Hb'.
  - injection E as <- E. destruct (IH _ _ _ Hb Hb' E) as [-> ->]. now split.
Qed.

Lemma digits_lack_underscore (ds : string) :
  all_digits ds = true -> lacks "_" ds = true.
Proof.
  induction ds as [|d ds IH]; cbn [all_digits lacks]; [reflexivity|].
  intros H. apply andb_true_iff in H. destruct H as [Hd Hds].
  rewrite (IH Hds), andb_true_r. apply negb_true_iff.
  destruct (Ascii.eqb d "_") eqn:E; [|reflexivity].
  apply Ascii.eqb_eq in E. subst d. discriminate.
Qed.

Lemma lower_not_underscore (c : ascii) :
  Str.is_lower c = true -> Ascii.eqb c "_" = false.
Proof.
  intros H. destruct (Ascii.eqb c "_") eqn:E; [|reflexivity].
  apply Ascii.eqb_eq in E. subst c. discriminate.
Qed.

Lemma eol_lacks_underscore (rest : string) :
  Re.at_eol rest = true -> lacks "_" ("vfx" ++ rest) = true.
Proof.
  intros H. destruct (at_eol_cases _ H) as [-> | ->]; reflexivity.
Qed.

(** No version token begins inside another one. *)
Lemma no_token_inside (c0 c : ascii) (ds0 ds rest0 rest w : string) :
  Str.is_lower c0 = true -> all_digits ds0 = true ->
  Re.at_eol rest0 = true -> Re.at_eol rest = true ->
  String c0 (ds0 ++ "_vfx" ++ rest0) = (w ++ String "_" (String c (ds ++ "_vfx" ++ rest)))%string ->
  False.
Proof.
  intros Hc0 Hd0 He0 He E.
  assert (E' : (String c0 ds0 ++ String "_" ("vfx" ++ rest0))%string
               = ((w ++ String "_" (String c ds)) ++ String "_" ("vfx" ++ rest))%string).
  { rewrite !string_app_assoc. cbn [append] in E |- *. exact E. }
  apply split_last in E'; try (apply eol_lacks_underscore; assumption).
  destruct E' as [E' _].
  assert (Hl : lacks "_" (String c0 ds0) = true).
  { cbn [lacks]. rewrite (lower_not_underscore _ Hc0), (digits_lack_underscore _ Hd0).
    reflexivity. }
  rewrite E', lacks_app in Hl. cbn [lacks] in Hl. cbn in Hl.
  now rewrite andb_false_r in Hl.
Qed.

Lemma version_re_search_complete (pre : string) :
  forall bos c ds rest,
    Str.is_lower c = true -> all_digits ds = true -> ds <> EmptyString ->
    Re.at_eol rest = true ->
    Re.search_from version_re bos (token_stem pre c ds rest)
    = Some (Re.mkMatch 2 [(2, ds); (1, String c EmptyString)] rest).
Proof.
  unfold token_stem.
  induction pre as [|a pre IH]; intros bos c ds rest Hc Hd Hne He.
  - cbn [append]. destruct ds as [|d ds]; [congruence|].
    cbn [all_digits] in Hd. apply andb_true_iff in Hd. destruct Hd as [Hd Hds].
    assert (H := version_re_match_complete bos c d ds rest Hc Hd Hds He).
    cbn [append] in H. cbn [Re.search_from]. cbn [append]. now rewrite H.
  - cbn [append Re.search_from].
    destruct (Re.match_at version_re bos
                (String a (pre ++ String "_" (String c (ds ++ "_vfx" ++ rest))))) as [m0|] eqn:E0.
    + exfalso.
      destruct (version_re_match_sound _ _ _ E0) as (c0 & ds0 & E & Hc0 & Hd0 & _ & He0 & _).
      injection E as _ E.
      exact (no_token_inside c0 c ds0 ds _ rest pre Hc0 Hd0 He0 He (eq_sym E)).
    + cbn [append] in E0. rewrite E0. exact (IH false c ds rest Hc Hd Hne He).
Qed.

(** X10 ([_extract_version_label]).  The label of a file name is read off
    its [os.path.splitext] stem, and one of three cases holds.  The stem ends
    (up to a final newline) in an underscore, a lowercase letter, digits and
    [_vfx], and the label is that letter with those digits.  Or the ranking
    pattern of [_find_latest_version] does not match the stem, the stem has
    an underscore, a [v] and digits somewhere, and the label is [v] with
    digits read there.  Or neither the ranking pattern nor the fallback
    pattern matches, and the label is empty. *)
Theorem version_label_cases (filename : string) :
  let stem := fst (OsPath.splitext filename) in
  let label := _extract_version_label filename in
  (exists pre c ds rest,
      stem = token_stem pre c ds rest /\ Str.is_lower c = true /\
      all_digits ds = true /\ ds <> EmptyString /\ Re.at_eol rest = true /\
      label = String c ds)
  \/ (Re.search version_re stem = None /\
      exists pre ds rest,
        stem = (pre ++ String "_" (String "v" (ds ++ rest)))%string /\
        all_digits ds = true /\ ds <> EmptyString /\
        label = String "v" ds)
  \/ (Re.search version_re stem = None /\
      Re.search label_fallback_re stem = None /\ label = EmptyString).
Proof.
  cbv zeta. unfold _extract_version_label.
  set (stem := fst (OsPath.splitext filename)).
  assert (Hag := label_version_search stem true). fold (Re.search version_re stem) in Hag.
  fold (Re.search label_re stem) in Hag.
  destruct (Re.search label_re stem) as [m|] eqn:El.
  - left. unfold Re.search in El. apply search_from_sound in El.
    destruct El as (pre & at_ & b & Hs & Hm).
    apply label_re_match_sound in Hm.
    destruct Hm as (c & ds & -> & Hc & Hd & Hne & He & Hcaps).
    exists pre, c, ds, (Re.m_rest m). unfold token_stem, group_or_empty.
    rewrite Hcaps. cbn. repeat split; assumption.
  - right. assert (Hv : Re.search version_re stem = None).
    { destruct (Re.search version_re stem); [contradiction|reflexivity]. }
    destruct (Re.search label_fallback_re stem) as [m|] eqn:Ef.
    + left. split; [exact Hv|].
      unfold Re.search in Ef. apply search_from_sound in Ef.
      destruct Ef as (pre & at_ & b & Hs & Hm).
      apply label_fallback_match_sound in Hm.
      destruct Hm as (ds & -> & Hd & Hne & Hcaps).
      exists pre, ds, (Re.m_rest m). unfold group_or_empty. rewrite Hcaps. cbn.
      repeat split; assumption.
    + right. repeat split. exact Hv.
Qed.

(** X11 ([_extract_version_label], [_find_latest_version]).  The pattern that
    labels a file and the pattern that ranks it find the same token: whenever
    the ranking pattern matches a stem, the label of a file name with that
    stem is the matched vendor letter followed by the matched digits. *)
Theorem version_label_is_ranking_token (filename : string) (m : Re.match_obj) :
  Re.search version_re (fst (OsPath.splitext filename)) = Some m ->
  _extract_version_label filename
  = (group_or_empty m 1 ++ group_or_empty m 2)%string.
Proof.
  intros Hm. unfold _extract_version_label.
  set (stem := fst (OsPath.splitext filename)) in *.
  assert (Hag := label_version_search stem true).
  fold (Re.search version_re stem) in Hag. fold (Re.search label_re stem) in Hag.
  rewrite Hm in Hag.
  destruct (Re.search label_re stem) as [m'|]; [|contradiction].
  destruct Hag as [Hcaps _]. unfold group_or_empty at 1. rewrite Hcaps. reflexivity.
Qed.

Lemma version_label_is_ranking_token_witness :
  _extract_version_label "ABC_010_v0012_vfx.mov" = "v0012".
Proof.
  exact (version_label_is_ranking_token "ABC_010_v0012_vfx.mov"
           (Re.mkMatch 2 [(2, "0012"); (1, "v")] "") eq_refl).
Defined.

(** X12 ([_find_latest_version], the loop over [matching_files]).  The
    candidates for the ranking are exactly the files that are not excluded and
    whose stem ends (up to a final newline) in an underscore, one lowercase
    letter, digits and [_vfx]; such a file is ranked by the number those
    digits spell, whatever comes before the token. *)
Theorem ranked_files_are_token_files
  (exclude_filename : option string) (files : list Path) (v : N) (p : string) :
  In (v, p) (collect_versions exclude_filename files) <->
  exists f pre c ds rest,
    In f files /\ excluded exclude_filename f = false /\
    stem f = token_stem pre c ds rest /\
    Str.is_lower c = true /\ all_digits ds = true /\ ds <> EmptyString /\
    Re.at_eol rest = true /\
    v = Str.int ds /\ p = str f.
Proof.
  rewrite collect_versions_In. split.
  - intros (f & m & Hin & Hx & Hm & -> & ->).
    destruct (version_re_search_sound _ _ Hm) as (pre & c & ds & Hs & Hc & Hd & Hne & He & _ & H2).
    exists f, pre, c, ds, (Re.m_rest m). rewrite H2. unfold token_stem.
    repeat split; assumption.
  - intros (f & pre & c & ds & rest & Hin & Hx & Hs & Hc & Hd & Hne & He & -> & ->).
    exists f, (Re.mkMatch 2 [(2, ds); (1, String c EmptyString)] rest).
    repeat split; try assumption.
    rewrite Hs. exact (version_re_search_complete pre true c ds rest Hc Hd Hne He).
Qed.

(* ------------------------------------------------------------------ *)
(** ** The name parser, in terms of the text *)




(** Every word of the pattern is read on some way through it. *)
Lemma Reads_Spans (i : nat) (r : Re.regex) (bos : bool) (s s' : string) :
  Reads r bos s s' -> exists t, Spans i r bos s s' t.
Proof.
  induction 1 as [bos s|c bos s|neg ranges a bos s Hin|r1 r2 bos s s1 s2 _ IH1 _ IH2
                 |r1 r2 bos s s' _ IH|r1 r2 bos s s' _ IH|r bos s
                 |r bos s s1 s2 _ IH1 _ IH2|j r bos s s' R IH|s|bos s He].
  - eexists. constructor.
  - eexists. constructor.
  - eexists. now constructor.
  - destruct IH1 as [t1 H1], IH2 as [t2 H2]. eexists. econstructor; eassumption.
  - destruct IH as [t H]. exists t. now apply SpansAltL.
  - destruct IH as [t H]. exists t. now apply SpansAltR.
  - eexists. constructor.
  - destruct IH1 as [t1 H1], IH2 as [t2 H2]. eexists. econstructor 8; eassumption.
  - destruct IH as [t H]. destruct (Reads_end _ _ _ _ R) as (w & ->).
    eexists. constructor. exact H.
  - eexists. constructor.
  - eexists. now constructor.
Qed.























(* ------------------------------------------------------------------ *)
(** ** Colours *)

(** A base-16 digit is none of the characters that the steps of
    [_parse_color] treat specially. *)
Lemma hex_char_plain (c : ascii) :
  is_hex c = true ->
  Text.is_space c = false /\ Text.is_int_space c = false /\
  Ascii.eqb "#" c = false /\ Ascii.eqb c "x" = false /\ Ascii.eqb c "X" = false /\
  Ascii.eqb c "+" = false /\ Ascii.eqb c "-" = false /\ Ascii.eqb c "_" = false.
Proof.
  destruct c as [[] [] [] [] [] [] [] []]; vm_compute; intros H;
    solve [discriminate H | repeat split; reflexivity].
Qed.

Lemma rstrip_hex (h : string) :
  all_hex h = true -> Text.rstrip_by Text.is_space h = h.
Proof.
  induction h as [|c h IH]; cbn [all_hex Text.rstrip_by]; [reflexivity|].
  intros H. apply andb_true_iff in H. destruct H as [Hc Hh].
  rewrite (IH Hh). destruct (hex_char_plain c Hc) as (Hs & _).
  rewrite Hs. destruct h; reflexivity.
Qed.

Lemma lstrip_hex (p : ascii -> bool) (h : string) :
  (forall c, is_hex c = true -> p c = false) ->
  all_hex h = true -> Text.lstrip_by p h = h.
Proof.
  intros Hp. destruct h as [|c h]; cbn [all_hex Text.lstrip_by]; [reflexivity|].
  intros H. apply andb_true_iff in H. destruct H as [Hc _]. now rewrite (Hp c Hc).
Qed.

Lemma remove_0x_hex (h : string) :
  all_hex h = true -> Text.remove_0x h = h.
Proof.
  induction h as [|c h IH]; [reflexivity|].
  intros H. cbn [all_hex] in H. apply andb_true_iff in H. destruct H as [Hc Hh].
  cbn [Text.remove_0x]. destruct h as [|d h']; [reflexivity|].
  assert (Hd : is_hex d = true).
  { cbn [all_hex] in Hh. now apply andb_true_iff in Hh. }
  destruct (hex_char_plain d Hd) as (_ & _ & _ & Hx & _).
  rewrite Hx, andb_false_r. now rewrite (IH Hh).
Qed.

Lemma digits16_hex (h : string) :
  forall acc n,
    all_hex h = true ->
    Text.digits16 h false acc n = Some (hex_from acc h, (n + String.length h)%nat, EmptyString).
Proof.
  induction h as [|c h IH]; intros acc n H; cbn [Text.digits16 hex_from String.length].
  - now rewrite Nat.add_0_r.
  - cbn [all_hex] in H. apply andb_true_iff in H. destruct H as [Hc Hh].
    unfold is_hex in Hc. destruct (Text.hex_value c) as [v|]; [|discriminate].
    rewrite (IH _ _ Hh). cbn [get]. do 3 f_equal. lia.
Qed.

Lemma int16_hex (h : string) :
  all_hex h = true -> h <> EmptyString -> Text.int16 h = Ok (hex_number h).
Proof.
  intros H Hne. destruct h as [|c h]; [congruence|].
  assert (Hc : is_hex c = true) by (cbn [all_hex] in H; now apply andb_true_iff in H).
  destruct (hex_char_plain c Hc) as (_ & Hs & _ & _ & _ & Hp & Hm & Hu).
  unfold Text.int16. cbn [Text.lstrip_by]. rewrite Hs, Hp, Hm.
  assert (E : match String c h with
              | String c0 (String d r) =>
                  if Ascii.eqb c0 "0" && (Ascii.eqb d "x" || Ascii.eqb d "X")
                  then match r with
                       | String u r' => if Ascii.eqb u "_" then r' else r
                       | EmptyString => r
                       end
                  else String c h
              | _ => String c h
              end = String c h).
  { destruct h as [|d h']; [reflexivity|].
    assert (Hd : is_hex d = true).
    { cbn [all_hex] in H. apply andb_true_iff in H. destruct H as [_ H].
      now apply andb_true_iff in H. }
    destruct (hex_char_plain d Hd) as (_ & _ & _ & Hx & HX & _).
    now rewrite Hx, HX, andb_false_r. }
  rewrite E. rewrite Hu. rewrite (digits16_hex _ 0%Z 0%nat H).
  cbn [String.length Nat.add Nat.ltb Nat.leb Text.lstrip_by String.eqb andb].
  now rewrite Z.mul_1_l.
Qed.

Lemma all_hex_app (a b : string) :
  all_hex (a ++ b) = all_hex a && all_hex b.
Proof.
  induction a as [|c a IH]; cbn [append all_hex]; [reflexivity|].
  now rewrite IH, andb_assoc.
Qed.

Lemma hex_from_app (a b : string) :
  forall acc, hex_from acc (a ++ b) = hex_from (hex_from acc a) b.
Proof.
  induction a as [|c a IH]; intros acc; cbn [append hex_from]; [reflexivity|apply IH].
Qed.

Lemma hex_from_nonneg (h : string) :
  forall acc, (0 <= acc)%Z -> (0 <= hex_from acc h)%Z.
Proof.
  induction h as [|c h IH]; intros acc Ha; cbn [hex_from]; [exact Ha|].
  apply IH. unfold Text.hex_value.
  destruct (Str.is_digit c); [cbn [get]; lia|].
  destruct (Str.in_range "a" "f" c); [cbn [get]; lia|].
  destruct (Str.in_range "A" "F" c); cbn [get]; lia.
Qed.

(** The text that [_parse_color] hands to [int] for a colour written as
    base-16 digits, bare or behind [#], [0x] or [#0x]. *)
Lemma parse_color_text (pre h : string) :
  In pre [""; "#"; "0x"; "#0x"] -> all_hex h = true -> h <> EmptyString ->
  Text.remove_0x (Text.lstrip_char "#" (Text.strip (pre ++ h))) = h.
Proof.
  intros Hpre H Hne. unfold Text.strip, Text.lstrip_char.
  assert (Hr : Text.rstrip_by Text.is_space (pre ++ h) = (pre ++ h)%string).
  { assert (G : forall c t, Text.is_space c = false ->
                        Text.rstrip_by Text.is_space t = t -> t <> EmptyString ->
                        Text.rstrip_by Text.is_space (String c t) = String c t).
    { intros c t _ Ht Hn. cbn [Text.rstrip_by]. rewrite Ht.
      destruct t; [congruence|reflexivity]. }
    assert (Hh := rstrip_hex h H).
    cbn [In] in Hpre. destruct Hpre as [<- | [<- | [<- | [<- | []]]]]; cbn [append].
    - exact Hh.
    - now apply G.
    - apply G; [reflexivity| |discriminate]. now apply G.
    - apply G; [reflexivity| |discriminate]. apply G; [reflexivity| |discriminate].
      now apply G. }
  rewrite Hr.
  assert (Hl1 : Text.lstrip_by Text.is_space h = h).
  { apply lstrip_hex; [|exact H]. intros c Hc. now destruct (hex_char_plain c Hc). }
  assert (Hl2 : Text.lstrip_by (Ascii.eqb "#") h = h).
  { apply lstrip_hex; [|exact H]. intros c Hc.
    now destruct (hex_char_plain c Hc) as (_ & _ & ? & _). }
  assert (Hx := remove_0x_hex h H).
  assert (G0 : Text.remove_0x (String "0" (String "x" h)) = h).
  { cbn [Text.remove_0x]. cbn. exact Hx. }
  assert (S1 : forall c t, Text.is_space c = false ->
                       Text.lstrip_by Text.is_space (String c t) = String c t).
  { intros c t Hc. cbn [Text.lstrip_by]. now rewrite Hc. }
  cbn [In] in Hpre. destruct Hpre as [<- | [<- | [<- | [<- | []]]]]; cbn [append].
  - now rewrite Hl1, Hl2.
  - rewrite S1 by reflexivity.
    change (Text.lstrip_by (Ascii.eqb "#") (String "#" h))
      with (Text.lstrip_by (Ascii.eqb "#") h).
    now rewrite Hl2.
  - rewrite S1 by reflexivity.
    change (Text.lstrip_by (Ascii.eqb "#") (String "0" (String "x" h)))
      with (String "0" (String "x" h)).
    exact G0.
  - rewrite S1 by reflexivity.
    change (Text.lstrip_by (Ascii.eqb "#") (String "#" (String "0" (String "x" h))))
      with (String "0" (String "x" h)).
    exact G0.
Qed.

(** X13 ([_parse_color]).  A colour written as base-16 digits, bare or
    behind [#], [0x] or [#0x], is read as the number the digits spell, except
    that six digits (red, green, blue) are completed with full alpha
    [FF]; the value is not negative. *)
Theorem parse_color_hex (pre h : string) :
  In pre [""; "#"; "0x"; "#0x"] -> all_hex h = true -> h <> EmptyString ->
  _parse_color (ColorStr (pre ++ h))
  = Ok (if (String.length h =? 6)%nat then hex_number h * 256 + 255 else hex_number h)%Z
  /\ (0 <= hex_number h)%Z.
Proof.
  intros Hpre H Hne. split; [|apply hex_from_nonneg; lia].
  unfold _parse_color, str_of. rewrite (parse_color_text pre h Hpre H Hne).
  destruct (String.length h =? 6)%nat.
  - rewrite int16_hex.
    + unfold hex_number. rewrite hex_from_app. cbn [hex_from].
      change (get (Text.hex_value "F") 0%Z) with 15%Z. f_equal. lia.
    + rewrite all_hex_app, H. reflexivity.
    + destruct h; [congruence|discriminate].
  - now apply int16_hex.
Qed.

Lemma parse_color_hex_witness :
  _parse_color (ColorStr "#4A6FA5") = Ok 1248830975%Z /\ (0 <= hex_number "4A6FA5")%Z.
Proof.
  exact (parse_color_hex "#" "4A6FA5" (or_intror (or_introl eq_refl)) eq_refl
           ltac:(discriminate)).
Defined.

(* ------------------------------------------------------------------ *)
(** ** Layout and summary *)

Lemma ebind_lift_ok {A B : Type} (a : A) (k : A -> effect B) :
  ebind (lift (Ok a)) k = k a.
Proof. unfold ebind, lift. destruct (k a). reflexivity. Qed.

Lemma ebind_lift_raise {A B : Type} (e : exn) (k : A -> effect B) :
  ebind (lift (Raise e)) k = ([], Raise e).
Proof. reflexivity. Qed.

Lemma ebind_emit {B : Type} (c : command) (k : unit -> effect B) :
  ebind (emit c) k = (c :: fst (k tt), snd (k tt)).
Proof. unfold ebind, emit. destruct (k tt). reflexivity. Qed.

Lemma index_nth {A : Type} (l : list A) (i : nat) (x : A) :
  nth_error l i = Some x -> index l i = Ok x.
Proof. unfold index. now intros ->. Qed.

(** With the results of its column in the lists, a cell issues its backdrop
    and its node. *)
Lemma layout_cell_ok (layout : layout_config) (start_x start_y : Z) (st : loop_state)
  (col_idx : nat) (c : column) (row_idx : nat) (row : string * Z) :
  nth_error (latest_results st) col_idx = Some (col_latest c) ->
  nth_error (v0_results st) col_idx = Some (col_v0 c) ->
  layout_cell layout start_x start_y st col_idx (col_entry c) row_idx row
  = (cell_commands layout start_x start_y col_idx c row_idx row, Ok tt).
Proof.
  intros Hl Hv. unfold layout_cell, cell_commands. destruct row as [row_label row_color].
  assert (E : (if (row_idx =? 0)%nat then Ok (Some (file_value (entry_node (col_entry c))))
               else if (row_idx =? 1)%nat then index (latest_results st) col_idx
               else index (v0_results st) col_idx) = Ok (fpath_of c row_idx)).
  { unfold fpath_of. rewrite (index_nth _ _ _ Hl), (index_nth _ _ _ Hv).
    destruct (row_idx =? 0)%nat; [reflexivity|]. destruct (row_idx =? 1)%nat; reflexivity. }
  rewrite E, ebind_lift_ok. rewrite ebind_emit. cbn [fst snd]. unfold pad_x, pad_y.
  destruct (fpath_of c row_idx) as [p|]; cbn [found get].
  - destruct (Str.truthy p); reflexivity.
  - reflexivity.
Qed.

Lemma layout_rows_ok (layout : layout_config) (start_x start_y : Z) (st : loop_state)
  (col_idx : nat) (c : column) (rows : list (string * Z)) :
  nth_error (latest_results st) col_idx = Some (col_latest c) ->
  nth_error (v0_results st) col_idx = Some (col_v0 c) ->
  forall row_idx,
    layout_rows layout start_x start_y st col_idx (col_entry c) row_idx rows
    = (rows_commands layout start_x start_y col_idx c row_idx rows, Ok tt).
Proof.
  intros Hl Hv. induction rows as [|row rows IH]; intros row_idx;
    cbn [layout_rows rows_commands]; [reflexivity|].
  rewrite (layout_cell_ok _ _ _ _ _ _ _ _ Hl Hv). unfold ebind. rewrite IH. reflexivity.
Qed.

(** The layout loop issues the grid of the columns. *)
Lemma layout_columns_ok (layout : layout_config) (start_x start_y : Z) (st : loop_state)
  (rows : list (string * Z)) (entries : list entry) :
  forall col_idx cols,
    columns_from col_idx entries st = Ok cols ->
    layout_columns layout start_x start_y st rows col_idx entries
    = (grid_commands layout start_x start_y rows col_idx cols, Ok tt).
Proof.
  induction entries as [|e entries IH]; intros col_idx cols H;
    cbn [columns_from layout_columns] in *.
  - injection H as <-. reflexivity.
  - unfold index in H at 1 2.
    destruct (nth_error (latest_results st) col_idx) as [latest|] eqn:El; [|discriminate].
    destruct (nth_error (v0_results st) col_idx) as [v0|] eqn:Ev; [|discriminate].
    cbn [bind] in H.
    destruct (columns_from (S col_idx) entries st) as [more|] eqn:Em; [|discriminate].
    cbn [bind] in H. injection H as <-. cbn [grid_commands].
    assert (R := layout_rows_ok layout start_x start_y st col_idx (e, latest, v0) rows
                   El Ev 0).
    unfold col_entry in R. cbn [fst] in R. rewrite R.
    unfold ebind. rewrite (IH _ _ Em). reflexivity.
Qed.

(** The comprehensions of the summary list the columns without result. *)
Lemma missing_from_cols (proj : column -> option string)
  (results : loop_state -> list (option string)) (st : loop_state)
  (entries : list entry) :
  (forall i c, nth_error (latest_results st) i = Some (col_latest c) ->
               nth_error (v0_results st) i = Some (col_v0 c) ->
               nth_error (results st) i = Some (proj c)) ->
  forall col_idx cols,
    columns_from col_idx entries st = Ok cols ->
    missing_from (results st) col_idx entries = Ok (missing_labels proj cols).
Proof.
  intros Hp. induction entries as [|e entries IH]; intros col_idx cols H;
    cbn [columns_from missing_from] in *.
  - injection H as <-. reflexivity.
  - unfold index in H at 1 2.
    destruct (nth_error (latest_results st) col_idx) as [latest|] eqn:El; [|discriminate].
    destruct (nth_error (v0_results st) col_idx) as [v0|] eqn:Ev; [|discriminate].
    cbn [bind] in H.
    destruct (columns_from (S col_idx) entries st) as [more|] eqn:Em; [|discriminate].
    cbn [bind] in H. injection H as <-.
    rewrite (index_nth _ _ _ (Hp col_idx (e, latest, v0) El Ev)). cbn [bind].
    rewrite (IH _ _ Em). cbn [bind]. unfold missing_labels. cbn [filter].
    destruct (found (proj (e, latest, v0))); reflexivity.
Qed.

Lemma fold_max_spec (l : list Z) :
  forall x, (x <= fold_left Z.max l x)%Z /\
            (forall y, In y l -> (y <= fold_left Z.max l x)%Z).
Proof.
  induction l as [|a l IH]; intros x; cbn [fold_left].
  - split; [lia|intros y []].
  - destruct (IH (Z.max x a)) as [H1 H2]. split; [lia|].
    intros y [<-|Hy]; [lia|now apply H2].
Qed.

Lemma fold_min_spec (l : list Z) :
  forall x, (fold_left Z.min l x <= x)%Z /\
            (forall y, In y l -> (fold_left Z.min l x <= y)%Z).
Proof.
  induction l as [|a l IH]; intros x; cbn [fold_left].
  - split; [lia|intros y []].
  - destruct (IH (Z.min x a)) as [H1 H2]. split; [lia|].
    intros y [<-|Hy]; [lia|now apply H2].
Qed.

Lemma max_of_spec (l : list Z) (m : Z) :
  max_of l = Ok m -> forall y, In y l -> (y <= m)%Z.
Proof.
  destruct l as [|x l]; [discriminate|]. cbn [max_of]. intros H. injection H as <-.
  destruct (fold_max_spec l x) as [H1 H2]. intros y [<-|Hy]; [exact H1|now apply H2].
Qed.

Lemma min_of_spec (l : list Z) (m : Z) :
  min_of l = Ok m -> forall y, In y l -> (m <= y)%Z.
Proof.
  destruct l as [|x l]; [discriminate|]. cbn [min_of]. intros H. injection H as <-.
  destruct (fold_min_spec l x) as [H1 H2]. intros y [<-|Hy]; [exact H1|now apply H2].
Qed.

(** What a run that reaches the layout has gone through. *)
Lemma run_done_inv {FS : FileSystem} (isCancelled : nat -> bool) (cfg : config)
  (selected : list node) (cols : list column) :
  run isCancelled cfg selected = Ok (Done cols) ->
  exists entries st,
    selected <> [] /\
    parse_entries (shot_regex cfg) selected = Ok entries /\ entries <> [] /\
    resolve_loop isCancelled cfg entries loop_init = Ok st /\
    cancelled st = false /\
    columns_from 0 entries st = Ok cols.
Proof.
  unfold run. destruct selected as [|n0 sel]; [discriminate|].
  destruct (parse_entries (shot_regex cfg) (n0 :: sel)) as [entries|] eqn:Ep;
    [|discriminate].
  cbn [bind]. destruct entries as [|e0 entries]; [discriminate|].
  destruct (resolve_loop isCancelled cfg (e0 :: entries) loop_init) as [st|] eqn:Er;
    [|discriminate].
  cbn [bind]. destruct (cancelled st) eqn:Ec; [discriminate|].
  destruct (columns_from 0 (e0 :: entries) st) as [cols'|] eqn:Ecol; [|discriminate].
  cbn [bind]. intros H. injection H as <-.
  exists (e0 :: entries), st. repeat split; try assumption; discriminate.
Qed.

(** On such a run the script goes on to the layout branch. *)
Lemma script_done {FS : FileSystem} (isCancelled : nat -> bool) (cfg : config)
  (layout : layout_config) (colors : colors_config)
  (selected : list node) (entries : list entry) (st : loop_state) :
  selected <> [] ->
  parse_entries (shot_regex cfg) selected = Ok entries -> entries <> [] ->
  resolve_loop isCancelled cfg entries loop_init = Ok st ->
  cancelled st = false ->
  script isCancelled cfg layout colors selected = finish layout colors entries st.
Proof.
  intros Hs Hp He Hr Hc. unfold script. destruct selected as [|n0 sel]; [congruence|].
  rewrite Hp, ebind_lift_ok. destruct entries as [|e0 entries]; [congruence|].
  rewrite Hr, ebind_lift_ok, Hc. reflexivity.
Qed.

Lemma int16_raises (s : string) (e : exn) :
  Text.int16 s = Raise e -> e = ValueError.
Proof.
  unfold Text.int16.
  destruct (match Text.lstrip_by Text.is_int_space s with
            | String c r =>
                if Ascii.eqb c "+" then (1%Z, r)
                else if Ascii.eqb c "-" then ((-1)%Z, r)
                else (1%Z, Text.lstrip_by Text.is_int_space s)
            | EmptyString => (1%Z, Text.lstrip_by Text.is_int_space s)
            end) as [sign s2].
  match goal with |- match ?s3 with _ => _ end = _ -> _ => destruct s3 as [|u s3'] end;
    [congruence|].
  destruct (Ascii.eqb u "_"); [congruence|].
  match goal with |- match ?d with _ => _ end = _ -> _ => destruct d as [[[v n] rest]|] end;
    [|congruence].
  match goal with |- (if ?b then _ else _) = _ -> _ => destruct b end; congruence.
Qed.

Lemma rows_of_raises (colors : colors_config) (e : exn) :
  rows_of colors = Raise e -> e = ValueError.
Proof.
  unfold rows_of, _parse_color.
  repeat match goal with
         | |- bind (Text.int16 ?s) _ = _ -> _ =>
             let E := fresh "E" in
             destruct (Text.int16 s) eqn:E; cbn [bind];
             [|intros H; injection H as <-; exact (int16_raises _ _ E)]
         end.
  discriminate.
Qed.

Lemma rows_of_three (colors : colors_config) (rows : list (string * Z)) :
  rows_of colors = Ok rows -> exists r0 r1 r2, rows = [r0; r1; r2].
Proof.
  unfold rows_of.
  destruct (_parse_color (get (selected_versions colors) _)); [|discriminate].
  destruct (_parse_color (get (latest_versions colors) _)); [|discriminate].
  destruct (_parse_color (get (version_zeros colors) _)); [|discriminate].
  cbn [bind]. intros H. injection H as <-. eexists. eexists. eexists. reflexivity.
Qed.

Lemma count_app {A : Type} (p : A -> bool) (a b : list A) :
  count p (a ++ b) = count p a + count p b.
Proof. unfold count. now rewrite filter_app, length_app. Qed.

(** The selected file of a parsed entry has a name. *)
Lemma parsed_file_truthy (shot_regex : Re.regex) (n : node) (s : string) :
  _extract_shot_name (OsPath.basename (file_value n)) shot_regex = Ok (Some s) ->
  Str.truthy s = true -> Str.truthy (file_value n) = true.
Proof.
  intros H Ht. destruct (file_value n) as [|a fv] eqn:E; [|reflexivity].
  apply extract_shot_name_piece in H. destruct H as (a & b & H).
  change (fst (OsPath.splitext (OsPath.basename ""))) with EmptyString in H.
  destruct a; [|discriminate]. destruct s; [discriminate Ht|discriminate H].
Qed.

Lemma finish_done (layout : layout_config) (colors : colors_config)
  (entries : list entry) (st : loop_state) (cols : list column) (rows : list (string * Z)) :
  entries <> [] ->
  columns_from 0 entries st = Ok cols ->
  rows_of colors = Ok rows ->
  exists max_x min_y,
    max_of (map (fun e => xpos (entry_node e)) entries) = Ok max_x /\
    min_of (map (fun e => ypos (entry_node e)) entries) = Ok min_y /\
    finish layout colors entries st
    = (UndoBegin "Find versions"
         :: grid_commands layout (max_x + col_spacing layout + 200) min_y rows 0 cols
         ++ [UndoEnd;
             Message (summary_text entries (missing_labels col_v0 cols)
                                   (missing_labels col_latest cols))],
       Ok tt).
Proof.
  intros Hne Hcols Hrows.
  destruct (max_of (map (fun e => xpos (entry_node e)) entries)) as [max_x|] eqn:Emax;
    [|destruct entries; [congruence|discriminate]].
  destruct (min_of (map (fun e => ypos (entry_node e)) entries)) as [min_y|] eqn:Emin;
    [|destruct entries; [congruence|discriminate]].
  exists max_x, min_y. split; [reflexivity|]. split; [reflexivity|].
  unfold finish. rewrite Emax, ebind_lift_ok, Emin, ebind_lift_ok, Hrows, ebind_lift_ok.
  rewrite ebind_emit. cbn [fst snd].
  rewrite (layout_columns_ok layout _ _ st rows entries 0 cols Hcols).
  rewrite (missing_from_cols col_v0 v0_results st entries
             ltac:(intros i c _ Hv; exact Hv) 0 cols Hcols).
  rewrite (missing_from_cols col_latest latest_results st entries
             ltac:(intros i c Hl _; exact Hl) 0 cols Hcols).
  unfold finally, emit. cbn [ebind lift fst snd app]. rewrite <- app_assoc. reflexivity.
Qed.

(** The ways in which a run of the script can go. *)
Lemma script_cases {FS : FileSystem} (isCancelled : nat -> bool) (cfg : config)
  (layout : layout_config) (colors : colors_config) (selected : list node) :
  (exists e, script isCancelled cfg layout colors selected = ([], Raise e))
  \/ (exists text, script isCancelled cfg layout colors selected = ([Message text], Ok tt))
  \/ (exists cols rows max_x min_y,
        run isCancelled cfg selected = Ok (Done cols) /\
        rows_of colors = Ok rows /\
        max_of (map (fun c => xpos (entry_node (col_entry c))) cols) = Ok max_x /\
        min_of (map (fun c => ypos (entry_node (col_entry c))) cols) = Ok min_y /\
        script isCancelled cfg layout colors selected
        = (UndoBegin "Find versions"
             :: grid_commands layout (max_x + col_spacing layout + 200) min_y rows 0 cols
             ++ [UndoEnd;
                 Message (summary_text (map col_entry cols) (missing_labels col_v0 cols)
                                       (missing_labels col_latest cols))],
           Ok tt)).
Proof.
  unfold script, run. destruct selected as [|n0 sel].
  { right. left. eexists. reflexivity. }
  destruct (parse_entries (shot_regex cfg) (n0 :: sel)) as [entries|e] eqn:Ep;
    [|left; exists e; reflexivity].
  rewrite ebind_lift_ok. cbn [bind].
  destruct entries as [|e0 entries]; [right; left; eexists; reflexivity|].
  destruct (resolve_loop isCancelled cfg (e0 :: entries) loop_init) as [st|e] eqn:Er;
    [|left; exists e; reflexivity].
  rewrite ebind_lift_ok. cbn [bind].
  destruct (cancelled st) eqn:Ec; [right; left; eexists; reflexivity|].
  destruct (full_run_columns isCancelled cfg _ st Er Ec) as [cols Hcols].
  rewrite Hcols. cbn [bind].
  destruct (rows_of colors) as [rows|e] eqn:Erows.
  - right. right.
    destruct (finish_done layout colors (e0 :: entries) st cols rows
                ltac:(discriminate) Hcols Erows) as (max_x & min_y & Hmax & Hmin & Hf).
    destruct (columns_from_spec _ _ _ _ Hcols) as [Hmap _].
    assert (Hm : map col_entry cols = e0 :: entries) by exact Hmap.
    exists cols, rows, max_x, min_y.
    rewrite <- (map_map col_entry (fun e => xpos (entry_node e))).
    rewrite <- (map_map col_entry (fun e => ypos (entry_node e))).
    rewrite Hm. repeat split; assumption.
  - left. exists e. unfold finish.
    destruct (max_of (map (fun e1 => xpos (entry_node e1)) (e0 :: entries))) eqn:Emax;
      [|discriminate].
    destruct (min_of (map (fun e1 => ypos (entry_node e1)) (e0 :: entries))) eqn:Emin;
      [|discriminate].
    rewrite !ebind_lift_ok. rewrite Erows. reflexivity.
Qed.

Lemma created_app (a b : list command) : created (a ++ b) = created a ++ created b.
Proof. unfold created. apply filter_app. Qed.

Lemma created_cell (layout : layout_config) (sx sy : Z) (i : nat) (c : column)
  (r : nat) (row : string * Z) :
  created (cell_commands layout sx sy i c r row) = cell_commands layout sx sy i c r row.
Proof.
  unfold cell_commands, created, _create_backdrop. cbn [filter is_backdrop orb].
  destruct (found (fpath_of c r)); reflexivity.
Qed.

Lemma created_rows (layout : layout_config) (sx sy : Z) (i : nat) (c : column)
  (rows : list (string * Z)) :
  forall r, created (rows_commands layout sx sy i c r rows)
            = rows_commands layout sx sy i c r rows.
Proof.
  induction rows as [|row rows IH]; intros r; cbn [rows_commands]; [reflexivity|].
  now rewrite created_app, created_cell, IH.
Qed.

Lemma created_grid (layout : layout_config) (sx sy : Z) (rows : list (string * Z))
  (cols : list column) :
  forall i, created (grid_commands layout sx sy rows i cols)
            = grid_commands layout sx sy rows i cols.
Proof.
  induction cols as [|c cols IH]; intros i; cbn [grid_commands]; [reflexivity|].
  now rewrite created_app, created_rows, IH.
Qed.

Lemma count_split {A : Type} (p : A -> bool) (l : list A) :
  count p l + count (fun x => negb (p x)) l = List.length l.
Proof.
  unfold count. induction l as [|x l IH]; cbn [filter]; [reflexivity|].
  destruct (p x); cbn [negb List.length]; lia.
Qed.

Lemma found_lookups_cons (c : column) (cols : list column) :
  found_lookups (c :: cols)
  = (if found (col_v0 c) then 1 else 0) + (if found (col_latest c) then 1 else 0)
    + found_lookups cols.
Proof.
  unfold found_lookups, count. cbn [filter].
  destruct (found (col_v0 c)), (found (col_latest c)); cbn [List.length]; lia.
Qed.

(** The three cells of a column: three backdrops, a Read node for the
    selected file, and for each lookup a Read node or a placeholder. *)
Lemma column_counts (layout : layout_config) (sx sy : Z) (i : nat) (c : column)
  (r0 r1 r2 : string * Z) :
  Str.truthy (file_value (entry_node (col_entry c))) = true ->
  let w := rows_commands layout sx sy i c 0 [r0; r1; r2] in
  count is_backdrop w = 3 /\
  count is_read w
  = 1 + ((if found (col_v0 c) then 1 else 0) + (if found (col_latest c) then 1 else 0)) /\
  count is_placeholder w
  + ((if found (col_v0 c) then 1 else 0) + (if found (col_latest c) then 1 else 0)) = 2.
Proof.
  intros Ht. cbv zeta. cbn [rows_commands]. unfold cell_commands, _create_backdrop, fpath_of.
  cbn [Nat.eqb found]. rewrite Ht.
  destruct (found (col_v0 c)), (found (col_latest c)); repeat split; reflexivity.
Qed.

Lemma grid_counts (layout : layout_config) (sx sy : Z) (r0 r1 r2 : string * Z)
  (cols : list column) :
  Forall (fun c => Str.truthy (file_value (entry_node (col_entry c))) = true) cols ->
  forall i,
    let w := grid_commands layout sx sy [r0; r1; r2] i cols in
    count is_backdrop w = 3 * List.length cols /\
    count is_read w = List.length cols + found_lookups cols /\
    count is_placeholder w + found_lookups cols = 2 * List.length cols.
Proof.
  induction 1 as [|c cols Hc _ IH]; intros i; cbv zeta.
  - repeat split; reflexivity.
  - cbn [grid_commands]. rewrite !count_app, found_lookups_cons.
    destruct (column_counts layout sx sy i c r0 r1 r2 Hc) as (H1 & H2 & H3).
    destruct (IH (S i)) as (G1 & G2 & G3). cbv zeta in *.
    rewrite H1, H2, G1, G2. cbn [List.length]. repeat split; lia.
Qed.

(** The columns of a run that reaches the layout come from parsed entries,
    whose selected files have names. *)
Lemma done_files_truthy {FS : FileSystem} (isCancelled : nat -> bool) (cfg : config)
  (selected : list node) (cols : list column) :
  run isCancelled cfg selected = Ok (Done cols) ->
  Forall (fun c => Str.truthy (file_value (entry_node (col_entry c))) = true) cols.
Proof.
  intros H. destruct (run_done_inv _ _ _ _ H) as (entries & st & _ & Hp & _ & _ & _ & Hc).
  destruct (parse_entries_ok _ _ _ Hp) as [_ Hall].
  destruct (columns_from_spec _ _ _ _ Hc) as [Hmap _].
  assert (Hm : map col_entry cols = entries) by exact Hmap. subst entries.
  rewrite Forall_map in Hall. eapply Forall_impl; [|exact Hall].
  intros c (He & Ht & _). exact (parsed_file_truthy _ _ _ He Ht).
Qed.

Lemma missing_labels_length (proj : column -> option string) (cols : list column) :
  List.length (missing_labels proj cols) + count (fun c => found (proj c)) cols
  = List.length cols.
Proof.
  unfold missing_labels. rewrite length_map.
  rewrite <- (count_split (fun c => found (proj c)) cols). unfold count. lia.
Qed.

(** X14 (main script, [_parse_color]).  The colours are parsed only after
    every lookup has been made.  When a run has resolved all its entries and
    one of the three colours cannot be read, the script raises [ValueError]
    having created no node, opened no undo block and shown no message. *)
Theorem bad_colour_raises_before_layout {FS : FileSystem}
  (isCancelled : nat -> bool) (cfg : config)
  (layout : layout_config) (colors : colors_config)
  (selected : list node) (cols : list column) (e : exn) :
  run isCancelled cfg selected = Ok (Done cols) ->
  rows_of colors = Raise e ->
  script isCancelled cfg layout colors selected = ([], Raise ValueError).
Proof.
  intros Hrun Hrows.
  destruct (run_done_inv _ _ _ _ Hrun) as (entries & st & Hs & Hp & Hne & Hr & Hc & _).
  rewrite (script_done _ _ layout colors _ _ _ Hs Hp Hne Hr Hc).
  rewrite (rows_of_raises _ _ Hrows) in Hrows.
  unfold finish. destruct entries as [|e0 entries]; [congruence|].
  cbn [map max_of min_of]. rewrite !ebind_lift_ok, Hrows. reflexivity.
Qed.

Lemma bad_colour_raises_before_layout_witness :
  @script (Example.dir_with Example.renders) never_cancelled Example.cfg
          (mkLayout None None None None) (mkColors (Some (ColorStr "red")) None None)
          [Example.selected_w0012]
  = ([], Raise ValueError).
Proof.
  refine (@bad_colour_raises_before_layout (Example.dir_with Example.renders)
            never_cancelled Example.cfg
            (mkLayout None None None None) (mkColors (Some (ColorStr "red")) None None)
            [Example.selected_w0012]
            [(Example.entry_w0012,
              Some "/shows/SEQ/SEQ_1140/_vfx/SEQ_1140a_comp_i0007_vfx.mov",
              Some "/shows/SEQ/SEQ_1140/_vfx/SEQ_1140_comp_u0000_vfx.mov")]
            ValueError _ _); vm_compute; reflexivity.
Defined.

(** X15 (main script).  What a run asks of Nuke has one of three shapes.  A
    run that raises has issued no command at all: every exception of the
    script's own code comes before the first command.  A run that returns
    has either shown one message and nothing else, or has opened the undo
    block, created nodes and nothing but nodes, closed the block and then
    shown one message. *)
Theorem script_command_shape {FS : FileSystem}
  (isCancelled : nat -> bool) (cfg : config)
  (layout : layout_config) (colors : colors_config) (selected : list node) :
  let w := fst (script isCancelled cfg layout colors selected) in
  match snd (script isCancelled cfg layout colors selected) with
  | Raise _ => w = []
  | Ok _ =>
      (exists text, w = [Message text]) \/
      (exists nodes text,
          w = UndoBegin "Find versions" :: nodes ++ [UndoEnd; Message text] /\
          created nodes = nodes /\ nodes <> [])
  end.
Proof.
  cbv zeta.
  destruct (script_cases isCancelled cfg layout colors selected)
    as [[e ->] | [[text ->] | (cols & rows & max_x & min_y & Hrun & Hrows & _ & _ & ->)]];
    cbn [fst snd].
  - reflexivity.
  - left. now exists text.
  - right. eexists. eexists. split; [reflexivity|]. split; [apply created_grid|].
    destruct (run_done_inv _ _ _ _ Hrun) as (entries & st & _ & _ & Hne & _ & _ & Hc).
    destruct (columns_from_spec _ _ _ _ Hc) as [Hmap _].
    destruct cols as [|c cols]; [cbn in Hmap; congruence|].
    destruct (rows_of_three _ _ Hrows) as (r0 & r1 & r2 & ->).
    cbn [grid_commands rows_commands]. unfold cell_commands. discriminate.
Qed.

(** X16 (main script, layout and summary).  A run that has resolved all its
    entries, with colours that can be read, opens the undo block, creates the
    grid of its columns to the right of the parsed nodes, closes the block and
    shows the summary.  The grid has three backdrops per column; its Read
    nodes are one per column for the selected file plus one per lookup that
    found a file; its placeholders are the lookups that found none.  The
    count of found lookups that the summary reports is that same number. *)
Theorem layout_census {FS : FileSystem}
  (isCancelled : nat -> bool) (cfg : config)
  (layout : layout_config) (colors : colors_config)
  (selected : list node) (cols : list column) (rows : list (string * Z)) :
  run isCancelled cfg selected = Ok (Done cols) ->
  rows_of colors = Ok rows ->
  exists max_x min_y,
    max_of (map (fun c => xpos (entry_node (col_entry c))) cols) = Ok max_x /\
    min_of (map (fun c => ypos (entry_node (col_entry c))) cols) = Ok min_y /\
    let nodes :=
      grid_commands layout (max_x + col_spacing layout + 200) min_y rows 0 cols in
    let entries := map col_entry cols in
    let missing_v0 := missing_labels col_v0 cols in
    let missing_latest := missing_labels col_latest cols in
    script isCancelled cfg layout colors selected
    = (UndoBegin "Find versions" :: nodes
         ++ [UndoEnd; Message (summary_text entries missing_v0 missing_latest)],
       Ok tt) /\
    count is_backdrop nodes = 3 * List.length cols /\
    count is_read nodes = List.length cols + found_lookups cols /\
    count is_placeholder nodes + found_lookups cols = 2 * List.length cols /\
    (len entries - len missing_v0 + len entries - len missing_latest)%Z
    = Z.of_nat (found_lookups cols).
Proof.
  intros Hrun Hrows.
  destruct (script_cases isCancelled cfg layout colors selected)
    as [[e Hs] | [[text Hs] | (cols' & rows' & max_x & min_y & Hrun' & Hrows' & Hmax & Hmin & Hs)]].
  - exfalso. destruct (run_done_inv _ _ _ _ Hrun) as (entries & st & Hsel & Hp & Hne & Hr & Hc & Hcols).
    rewrite (script_done _ _ layout colors _ _ _ Hsel Hp Hne Hr Hc) in Hs.
    destruct (finish_done layout colors entries st cols rows Hne Hcols Hrows)
      as (mx & my & _ & _ & Hf).
    rewrite Hf in Hs. discriminate.
  - exfalso. destruct (run_done_inv _ _ _ _ Hrun) as (entries & st & Hsel & Hp & Hne & Hr & Hc & Hcols).
    rewrite (script_done _ _ layout colors _ _ _ Hsel Hp Hne Hr Hc) in Hs.
    destruct (finish_done layout colors entries st cols rows Hne Hcols Hrows)
      as (mx & my & _ & _ & Hf).
    rewrite Hf in Hs. discriminate.
  - rewrite Hrun in Hrun'. injection Hrun' as <-.
    rewrite Hrows in Hrows'. injection Hrows' as <-.
    exists max_x, min_y. split; [exact Hmax|]. split; [exact Hmin|]. cbv zeta.
    split; [exact Hs|].
    destruct (rows_of_three _ _ Hrows) as (r0 & r1 & r2 & ->).
    destruct (grid_counts layout (max_x + col_spacing layout + 200) min_y r0 r1 r2 cols
                (done_files_truthy _ _ _ _ Hrun) 0) as (G1 & G2 & G3).
    cbv zeta in G1, G2, G3. repeat split; try assumption.
    unfold len. rewrite length_map.
    assert (M1 := missing_labels_length col_v0 cols).
    assert (M2 := missing_labels_length col_latest cols).
    unfold found_lookups. lia.
Qed.

Lemma layout_census_witness :
  exists max_x min_y,
    max_of (map (fun c => xpos (entry_node (col_entry c)))
              [(Example.entry_w0012,
                Some "/shows/SEQ/SEQ_1140/_vfx/SEQ_1140a_comp_i0007_vfx.mov",
                Some "/shows/SEQ/SEQ_1140/_vfx/SEQ_1140_comp_u0000_vfx.mov")]) = Ok max_x /\
    min_of (map (fun c => ypos (entry_node (col_entry c)))
              [(Example.entry_w0012,
                Some "/shows/SEQ/SEQ_1140/_vfx/SEQ_1140a_comp_i0007_vfx.mov",
                Some "/shows/SEQ/SEQ_1140/_vfx/SEQ_1140_comp_u0000_vfx.mov")]) = Ok min_y.
Proof.
  destruct (@layout_census (Example.dir_with Example.renders) never_cancelled Example.cfg
              (mkLayout None None None None) (mkColors None None None)
              [Example.selected_notes; Example.selected_w0012]
              [(Example.entry_w0012,
                Some "/shows/SEQ/SEQ_1140/_vfx/SEQ_1140a_comp_i0007_vfx.mov",
                Some "/shows/SEQ/SEQ_1140/_vfx/SEQ_1140_comp_u0000_vfx.mov")]
              [("Selected Versions", 1248830975%Z); ("Latest Versions", 2074031615%Z);
               ("Version Zeros", 2354986239%Z)]
              ltac:(vm_compute; reflexivity) ltac:(vm_compute; reflexivity))
    as (max_x & min_y & Hmax & Hmin & _).
  exists max_x, min_y. split; assumption.
Defined.

(* ------------------------------------------------------------------ *)
(** ** Geometry of the layout *)

Lemma rects_app (a b : list command) :
  backdrop_rects (a ++ b) = backdrop_rects a ++ backdrop_rects b.
Proof. unfold backdrop_rects. apply flat_map_app. Qed.

Lemma rects_cell (layout : layout_config) (sx sy : Z) (i : nat) (c : column)
  (r : nat) (row : string * Z) :
  backdrop_rects (cell_commands layout sx sy i c r row) = [cell_rect layout sx sy i r].
Proof.
  unfold cell_commands, _create_backdrop, cell_rect. cbn [backdrop_rects flat_map app].
  destruct (found (fpath_of c r)); reflexivity.
Qed.

Lemma rects_rows_in (layout : layout_config) (sx sy : Z) (i : nat) (c : column)
  (rows : list (string * Z)) (q : rect) :
  forall r0,
    In q (backdrop_rects (rows_commands layout sx sy i c r0 rows)) ->
    exists r, r0 <= r /\ q = cell_rect layout sx sy i r.
Proof.
  induction rows as [|row rows IH]; intros r0 H; cbn [rows_commands] in H.
  - destruct H.
  - rewrite rects_app, rects_cell in H. cbn [app In] in H. destruct H as [<-|H].
    + exists r0. split; [lia|reflexivity].
    + destruct (IH _ H) as (r & Hr & ->). exists r. split; [lia|reflexivity].
Qed.

Lemma rects_grid_in (layout : layout_config) (sx sy : Z) (rows : list (string * Z))
  (cols : list column) (q : rect) :
  forall i0,
    In q (backdrop_rects (grid_commands layout sx sy rows i0 cols)) ->
    exists i r, i0 <= i /\ q = cell_rect layout sx sy i r.
Proof.
  induction cols as [|c cols IH]; intros i0 H; cbn [grid_commands] in H.
  - destruct H.
  - rewrite rects_app in H. apply in_app_or in H. destruct H as [H|H].
    + destruct (rects_rows_in _ _ _ _ _ _ _ _ H) as (r & _ & ->).
      exists i0, r. split; [lia|reflexivity].
    + destruct (IH _ H) as (i & r & Hi & ->). exists i, r. split; [lia|reflexivity].
Qed.

Lemma ordpairs_app {A : Type} (R : A -> A -> Prop) (a b : list A) :
  ForallOrdPairs R a -> ForallOrdPairs R b ->
  (forall x y, In x a -> In y b -> R x y) ->
  ForallOrdPairs R (a ++ b).
Proof.
  intros Ha Hb Hab. induction Ha as [|x a Hx Ha IH]; cbn [app]; [exact Hb|].
  constructor.
  - apply Forall_app. split; [exact Hx|].
    apply Forall_forall. intros y Hy. apply Hab; [now left|exact Hy].
  - apply IH. intros u v Hu Hv. apply Hab; [now right|exact Hv].
Qed.

Lemma cells_apart_rows (layout : layout_config) (sx sy : Z) (i r r' : nat) :
  (0 < bd_h layout <= row_spacing layout)%Z -> r < r' ->
  apart (cell_rect layout sx sy i r) (cell_rect layout sx sy i r').
Proof.
  intros Hh Hr. unfold apart, cell_rect. right. right. left. nia.
Qed.

Lemma cells_apart_columns (layout : layout_config) (sx sy : Z) (i i' r r' : nat) :
  (0 < bd_w layout <= col_spacing layout)%Z -> i < i' ->
  apart (cell_rect layout sx sy i r) (cell_rect layout sx sy i' r').
Proof.
  intros Hw Hi. unfold apart, cell_rect. left. nia.
Qed.

Lemma rows_apart (layout : layout_config) (sx sy : Z) (i : nat) (c : column)
  (rows : list (string * Z)) :
  (0 < bd_h layout <= row_spacing layout)%Z ->
  forall r0,
    ForallOrdPairs apart (backdrop_rects (rows_commands layout sx sy i c r0 rows)).
Proof.
  intros Hh. induction rows as [|row rows IH]; intros r0; cbn [rows_commands].
  - constructor.
  - rewrite rects_app, rects_cell. cbn [app]. constructor; [|apply IH].
    apply Forall_forall. intros q Hq.
    destruct (rects_rows_in _ _ _ _ _ _ _ _ Hq) as (r & Hr & ->).
    apply cells_apart_rows; [exact Hh|lia].
Qed.

Lemma grid_apart (layout : layout_config) (sx sy : Z) (rows : list (string * Z))
  (cols : list column) :
  (0 < bd_w layout <= col_spacing layout)%Z ->
  (0 < bd_h layout <= row_spacing layout)%Z ->
  forall i0,
    ForallOrdPairs apart (backdrop_rects (grid_commands layout sx sy rows i0 cols)).
Proof.
  intros Hw Hh. induction cols as [|c cols IH]; intros i0; cbn [grid_commands].
  - constructor.
  - rewrite rects_app. apply ordpairs_app; [now apply rows_apart|apply IH|].
    intros x y Hx Hy.
    destruct (rects_rows_in _ _ _ _ _ _ _ _ Hx) as (r & _ & ->).
    destruct (rects_grid_in _ _ _ _ _ _ _ Hy) as (i & r' & Hi & ->).
    apply cells_apart_columns; [exact Hw|lia].
Qed.

Lemma framed_rows (layout : layout_config) (sx sy : Z) (i : nat) (c : column)
  (rows : list (string * Z)) (rest : list command) :
  (80 <= bd_w layout)%Z -> (80 < bd_h layout)%Z ->
  framed rest ->
  forall r0, framed (rows_commands layout sx sy i c r0 rows ++ rest).
Proof.
  intros Hw Hh Hrest.
  assert (D1 : (40 <= bd_w layout / 2)%Z) by (apply Z.div_le_lower_bound; lia).
  assert (D2 : (bd_w layout / 2 < bd_w layout)%Z) by (apply Z.div_lt; lia).
  induction rows as [|row rows IH]; intros r0; cbn [rows_commands].
  - exact Hrest.
  - unfold cell_commands, _create_backdrop. cbn [app framed].
    split; [|apply IH].
    destruct (found (fpath_of c r0)); cbn [is_node is_read is_placeholder orb position];
      (split; [reflexivity|]); split; lia.
Qed.

Lemma framed_grid (layout : layout_config) (sx sy : Z) (rows : list (string * Z))
  (cols : list column) :
  (80 <= bd_w layout)%Z -> (80 < bd_h layout)%Z ->
  forall i0, framed (grid_commands layout sx sy rows i0 cols).
Proof.
  intros Hw Hh. induction cols as [|c cols IH]; intros i0; cbn [grid_commands].
  - exact I.
  - apply framed_rows; [exact Hw|exact Hh|apply IH].
Qed.

Lemma grid_position (layout : layout_config) (sx sy : Z) (rows : list (string * Z))
  (cols : list column) (c : command) (x y : Z) :
  (0 <= col_spacing layout)%Z -> (80 <= bd_w layout)%Z ->
  forall i0,
    In c (grid_commands layout sx sy rows i0 cols) ->
    position c = Some (x, y) -> (sx - 30 <= x)%Z.
Proof.
  intros Hc Hw.
  assert (D1 : (40 <= bd_w layout / 2)%Z) by (apply Z.div_le_lower_bound; lia).
  induction cols as [|col cols IH]; intros i0 H Hp; cbn [grid_commands] in H.
  - destruct H.
  - apply in_app_or in H. destruct H as [H|H]; [|exact (IH _ H Hp)].
    clear IH. generalize dependent 0%nat. induction rows as [|row rows IHr];
      intros r0 H; cbn [rows_commands] in H; [destruct H|].
    apply in_app_or in H. destruct H as [H|H]; [|exact (IHr _ H)].
    unfold cell_commands, _create_backdrop in H. cbn [In] in H.
    destruct H as [<- | [<- | []]].
    + cbn [position] in Hp. injection Hp as <- _. nia.
    + destruct (found (fpath_of col r0)); cbn [position] in Hp;
        injection Hp as <- _; nia.
Qed.

(** X17 (main script, layout).  With backdrops at least 80 wide and more than
    80 high, and spacings no smaller than the backdrops, the layout is tidy:
    no two backdrops that a run creates overlap, and what a run creates comes
    in pairs of a backdrop and a Read node or placeholder whose position lies
    inside that backdrop. *)
Theorem layout_is_tidy {FS : FileSystem}
  (isCancelled : nat -> bool) (cfg : config)
  (layout : layout_config) (colors : colors_config) (selected : list node) :
  (80 <= bd_w layout <= col_spacing layout)%Z ->
  (80 < bd_h layout <= row_spacing layout)%Z ->
  let w := fst (script isCancelled cfg layout colors selected) in
  ForallOrdPairs apart (backdrop_rects w) /\ framed (created w).
Proof.
  intros Hw Hh. cbv zeta.
  destruct (script_cases isCancelled cfg layout colors selected)
    as [[e ->] | [[text ->] | (cols & rows & max_x & min_y & _ & _ & _ & _ & ->)]];
    cbn [fst].
  - split; [constructor|exact I].
  - split; [constructor|exact I].
  - split.
    + change (UndoBegin "Find versions" :: ?l) with ([UndoBegin "Find versions"] ++ l).
      rewrite !rects_app. cbn [backdrop_rects flat_map app]. rewrite app_nil_r.
      apply grid_apart; lia.
    + change (UndoBegin "Find versions" :: ?l) with ([UndoBegin "Find versions"] ++ l).
      rewrite !created_app, created_grid. cbn. rewrite app_nil_r.
      apply framed_grid; lia.
Qed.

Lemma layout_is_tidy_witness :
  let w := fst (@script (Example.dir_with Example.renders) never_cancelled Example.cfg
                  (mkLayout None None None None) (mkColors None None None)
                  [Example.selected_w0012; Example.selected_u0003]) in
  ForallOrdPairs apart (backdrop_rects w) /\ framed (created w).
Proof.
  apply (@layout_is_tidy (Example.dir_with Example.renders) never_cancelled Example.cfg
           (mkLayout None None None None) (mkColors None None None)
           [Example.selected_w0012; Example.selected_u0003]);
    vm_compute; split; first [reflexivity | discriminate].
Defined.

(** X18 (main script, layout).  With a column spacing that is not negative and
    backdrops at least 80 wide, everything a run creates is placed at least
    170 to the right of every selected node whose name was parsed. *)
Theorem layout_right_of_parsed_nodes {FS : FileSystem}
  (isCancelled : nat -> bool) (cfg : config)
  (layout : layout_config) (colors : colors_config)
  (selected : list node) (cols : list column) :
  run isCancelled cfg selected = Ok (Done cols) ->
  (0 <= col_spacing layout)%Z -> (80 <= bd_w layout)%Z ->
  forall c x y,
    In c (fst (script isCancelled cfg layout colors selected)) ->
    position c = Some (x, y) ->
    forall col, In col cols -> (xpos (entry_node (col_entry col)) + 170 <= x)%Z.
Proof.
  intros Hrun Hc Hw c x y Hin Hp col Hcol.
  destruct (script_cases isCancelled cfg layout colors selected)
    as [[e Hs] | [[text Hs] | (cols' & rows & max_x & min_y & Hrun' & _ & Hmax & _ & Hs)]];
    rewrite Hs in Hin; cbn [fst] in Hin.
  - destruct Hin.
  - destruct Hin as [<-|[]]. discriminate.
  - rewrite Hrun in Hrun'. injection Hrun' as <-.
    destruct Hin as [<-|Hin]; [discriminate|].
    apply in_app_or in Hin. destruct Hin as [Hin|Hin].
    + assert (G := grid_position layout _ _ rows cols c x y Hc Hw 0 Hin Hp).
      assert (M := max_of_spec _ _ Hmax (xpos (entry_node (col_entry col)))
                     (in_map (fun c0 => xpos (entry_node (col_entry c0))) cols col Hcol)).
      lia.
    + destruct Hin as [<-|[<-|[]]]; discriminate.
Qed.

Lemma layout_right_of_parsed_nodes_witness :
  (xpos Example.selected_w0012 + 170 <= 520)%Z.
Proof.
  apply (@layout_right_of_parsed_nodes (Example.dir_with Example.renders)
           never_cancelled Example.cfg
           (mkLayout None None None None) (mkColors None None None)
           [Example.selected_notes; Example.selected_w0012]
           [(Example.entry_w0012,
             Some "/shows/SEQ/SEQ_1140/_vfx/SEQ_1140a_comp_i0007_vfx.mov",
             Some "/shows/SEQ/SEQ_1140/_vfx/SEQ_1140_comp_u0000_vfx.mov")]
           ltac:(vm_compute; reflexivity)
           ltac:(vm_compute; discriminate) ltac:(vm_compute; discriminate)
           (BackdropNode 520 (-60) 300 200 1248830975
              "<center><b>Selected Versions
SEQ_1140a w0012</b></center>")
           520%Z (-60)%Z
           ltac:(vm_compute; right; left; reflexivity) eq_refl
           (Example.entry_w0012,
            Some "/shows/SEQ/SEQ_1140/_vfx/SEQ_1140a_comp_i0007_vfx.mov",
            Some "/shows/SEQ/SEQ_1140/_vfx/SEQ_1140_comp_u0000_vfx.mov")
           (or_introl eq_refl)).
Defined.

(* ------------------------------------------------------------------ *)
(** ** Colours given as numbers *)




